(** * gochatp2p: a shallow embedding of the chat overlay and its properties

    The development follows the Go sources file by file:
    - [Go]        : the few pieces of Go semantics the code relies on
                    (results with errors and panics, byte slices with a
                    capacity, the reader/writer mutex, decimal printing);
    - [Crypto]    : encryptAES / decryptAES / pkcs7Pad / pkcs7Unpad;
    - [Stun]      : parseSTUNResponse, sendSTUNRequest, getPublicIPAndPort;
    - [SuperNode] : the SuperNodeManager;
    - [Chat]      : the P2PChat session (rooms, discovery, routing).

    Bytes are integers in [0, 256); Go [int]s are unbounded integers (no
    quantity of this program comes near the 64-bit limits); a [time.Time]
    is a number of nanoseconds. *)

From Stdlib Require Import ZArith String Ascii List Bool Lia Arith.
From Stdlib Require Import DecimalString Permutation.
Import ListNotations.
Open Scope Z_scope.

(* ================================================================== *)
(** ** Go run-time conventions *)
(* ================================================================== *)

Module Go.

(** What a Go call of type [(T, error)] can do: return a value with a nil
    error, return a non-nil error (we keep its message), or panic. *)
Inductive result (A : Type) : Type :=
| Ok (a : A)
| Err (msg : string)
| Panic (msg : string).

Arguments Ok {A} a.
Arguments Err {A} msg.
Arguments Panic {A} msg.

Definition bind {A B : Type} (r : result A) (k : A -> result B) : result B :=
  match r with
  | Ok a => k a
  | Err m => Err m
  | Panic m => Panic m
  end.

Definition is_byte (b : Z) : Prop := 0 <= b < 256.
Definition bytes (l : list Z) : Prop := Forall is_byte l.

(** [byte(n)] for an [int] n: the low eight bits. *)
Definition byte (n : Z) : Z := n mod 256.

(** [len(s)] as a Go [int]. *)
Definition len {A : Type} (l : list A) : Z := Z.of_nat (length l).

(** [strconv.Itoa], and the verb [%d] of fmt on an [int]: the decimal
    digits, after a minus sign for a negative number. *)
Definition itoa (n : Z) : string :=
  if n <? 0
  then String "-" (NilZero.string_of_uint (N.to_uint (Z.to_N (- n))))
  else NilZero.string_of_uint (N.to_uint (Z.to_N n)).

(** A byte slice: the bytes up to its length, and the bytes of the backing
    array between its length and its capacity. *)
Record slice : Type := mkSlice { elems : list Z; spare : list Z }.

Definition cap (s : slice) : Z := len (elems s) + len (spare s).

(** A slice whose capacity is its length, such as a literal. *)
Definition exact (l : list Z) : slice := mkSlice l [].

(** [s[i]]: the index is checked against the length. *)
Definition index (s : slice) (i : Z) : result Z :=
  if (i <? 0) || (len (elems s) <=? i)
  then Panic "runtime error: index out of range"
  else Ok (nth (Z.to_nat i) (elems s) 0).

(** [s[lo:hi]]: for a slice the upper bound is checked against the
    capacity, not the length; the result shares the backing array. *)
Definition reslice (s : slice) (lo hi : Z) : result slice :=
  let backing := elems s ++ spare s in
  if (lo <? 0) || (hi <? lo) || (cap s <? hi)
  then Panic "runtime error: slice bounds out of range"
  else Ok (mkSlice (firstn (Z.to_nat (hi - lo)) (skipn (Z.to_nat lo) backing))
                   (skipn (Z.to_nat hi) backing)).

(** sync.RWMutex, as seen by one goroutine: what that goroutine itself
    holds.  (Holds of other goroutines are released in finite time and do
    not show in this sequential view.) *)
Inductive RWMutex : Type :=
| Unlocked
| WriteLocked
| ReadLocked (others : nat).   (* held for reading [S others] times *)

(** How a method call on a state of type [S] ends: it returns; or the
    goroutine waits for ever for a mutex that it holds itself; or the
    run-time system stops the program. *)
Inductive outcome (S A : Type) : Type :=
| Returns (a : A) (s : S)
| Blocks (s : S)
| Fatal (msg : string) (s : S).

Arguments Returns {S A} a s.
Arguments Blocks {S A} s.
Arguments Fatal {S A} msg s.

(** The state in which a call ends. *)
Definition final {S A : Type} (o : outcome S A) : S :=
  match o with
  | Returns _ s => s
  | Blocks s => s
  | Fatal _ s => s
  end.

Definition M (S A : Type) : Type := S -> outcome S A.

Definition ret {S A : Type} (a : A) : M S A := fun s => Returns a s.

Definition mbind {S A B : Type} (m : M S A) (k : A -> M S B) : M S B :=
  fun s =>
    match m s with
    | Returns a s' => k a s'
    | Blocks s' => Blocks s'
    | Fatal msg s' => Fatal msg s'
    end.

Definition gets {S A : Type} (f : S -> A) : M S A := fun s => Returns (f s) s.
Definition modify {S : Type} (f : S -> S) : M S unit := fun s => Returns tt (f s).

(** The four operations of the mutex, on a state that stores it. *)
Section Mutex.
Context {S : Type} (get : S -> RWMutex) (set : RWMutex -> S -> S).

Definition Lock : M S unit := fun s =>
  match get s with
  | Unlocked => Returns tt (set WriteLocked s)
  | _ => Blocks s
  end.

Definition Unlock : M S unit := fun s =>
  match get s with
  | WriteLocked => Returns tt (set Unlocked s)
  | _ => Fatal "fatal error: sync: Unlock of unlocked RWMutex" s
  end.

Definition RLock : M S unit := fun s =>
  match get s with
  | Unlocked => Returns tt (set (ReadLocked 0) s)
  | ReadLocked n => Returns tt (set (ReadLocked (Datatypes.S n)) s)
  | WriteLocked => Blocks s
  end.

Definition RUnlock : M S unit := fun s =>
  match get s with
  | ReadLocked O => Returns tt (set Unlocked s)
  | ReadLocked (Datatypes.S n) => Returns tt (set (ReadLocked n) s)
  | _ => Fatal "fatal error: sync: RUnlock of unlocked RWMutex" s
  end.
End Mutex.

End Go.

Export Go.

Declare Scope go_scope.
Notation "x <- e ;; k" := (Go.bind e (fun x => k))
  (at level 61, e at next level, right associativity) : go_scope.
Notation "x <~ e ;; k" := (Go.mbind e (fun x => k))
  (at level 61, e at next level, right associativity) : go_scope.
Notation "e ;;; k" := (Go.mbind e (fun _ => k))
  (at level 61, right associativity) : go_scope.
Open Scope go_scope.

(* ================================================================== *)
(** ** Codec / crypto: encryptAES, decryptAES, pkcs7Pad, pkcs7Unpad *)
(* ================================================================== *)

Module Crypto.

(** [aes.BlockSize] *)
Definition BlockSize : Z := 16.

(** A full cipher block: sixteen bytes. *)
Definition is_block (b : list Z) : Prop := bytes b /\ length b = 16%nat.

(** The key lengths [aes.NewCipher] accepts (AES-128, -192, -256). *)
Definition key_size_ok (k : list Z) : bool :=
  (len k =? 16) || (len k =? 24) || (len k =? 32).

(** Byte-wise exclusive or of two buffers, as [subtle.XORBytes] computes
    it inside the CBC mode: it stops at the shorter one. *)
Fixpoint xorBytes (a b : list Z) : list Z :=
  match a, b with
  | x :: a', y :: b' => Z.lxor x y :: xorBytes a' b'
  | _, _ => []
  end.

(** PKCS7 padding *)
Definition pkcs7Pad (data : list Z) (blockSize : Z) : result (list Z) :=
  if blockSize =? 0 then Panic "runtime error: integer divide by zero"
  else
    let padding := blockSize - Z.rem (len data) blockSize in
    if padding <? 0 then Panic "bytes: negative Repeat count"
    else
      let padtext := repeat (byte padding) (Z.to_nat padding) in
      Ok (data ++ padtext).

(** The validation loop of pkcs7Unpad,
    [for i := len(data) - padding; i < len(data); i++], run over the
    bytes [data[len(data)-padding:]] it visits; [false] is the early
    return with the invalid-padding error. *)
Fixpoint paddingMatches (tail : list Z) (padding : Z) : bool :=
  match tail with
  | [] => true
  | b :: tail' =>
      if b =? byte padding then paddingMatches tail' padding else false
  end.

(** PKCS7 unpadding *)
Definition pkcs7Unpad (data : list Z) (blockSize : Z) : result (list Z) :=
  if len data =? 0 then Err "data is empty"
  else
    let padding := nth (length data - 1) data 0 in
    if (padding >? blockSize) || (padding =? 0) then Err "invalid padding"
    else if len data - padding <? 0
    then Panic "runtime error: index out of range"
    else
      let start := Z.to_nat (len data - padding) in
      if paddingMatches (skipn start data) padding
      then Ok (firstn start data)
      else Err "invalid padding".

Section AES.

(** The block primitive of crypto/aes, which is not part of this
    repository: one 16-byte block in, one 16-byte block out, under a key
    that [aes.NewCipher] accepted; decryption undoes encryption. *)
Variable aesEncryptBlock : list Z -> list Z -> list Z.
Variable aesDecryptBlock : list Z -> list Z -> list Z.

Definition cipher_keeps_blocks (f : list Z -> list Z -> list Z) : Prop :=
  forall k b, bytes k -> key_size_ok k = true -> is_block b ->
              is_block (f k b).

Definition cipher_inverts : Prop :=
  forall k b, bytes k -> key_size_ok k = true -> is_block b ->
              aesDecryptBlock k (aesEncryptBlock k b) = b.

(** [aes.NewCipher(key)]: the key itself stands for the cipher.Block. *)
Definition NewCipher (key : list Z) : result (list Z) :=
  if key_size_ok key then Ok key
  else Err ("crypto/aes: invalid key size " ++ itoa (len key))%string.

(** [cipher.NewCBCEncrypter(block, iv).CryptBlocks(dst, src)] over [n]
    blocks: each plaintext block is mixed with the previous ciphertext
    block (the IV for the first one) and then encrypted. *)
Fixpoint cbcEncryptBlocks (k prev src : list Z) (n : nat) : list Z :=
  match n with
  | O => []
  | S n' =>
      let c := aesEncryptBlock k (xorBytes (firstn 16 src) prev) in
      c ++ cbcEncryptBlocks k c (skipn 16 src) n'
  end.

(** [cipher.NewCBCDecrypter(block, iv).CryptBlocks(dst, src)] *)
Fixpoint cbcDecryptBlocks (k prev src : list Z) (n : nat) : list Z :=
  match n with
  | O => []
  | S n' =>
      let c := firstn 16 src in
      xorBytes (aesDecryptBlock k c) prev
        ++ cbcDecryptBlocks k c (skipn 16 src) n'
  end.

(** The two panics of the CBC mode: a wrong IV length at construction
    and an input that is not a whole number of blocks. *)
Definition CryptBlocks (crypt : list Z -> list Z -> list Z -> nat -> list Z)
           (k iv src : list Z) : result (list Z) :=
  if negb (len iv =? BlockSize)
  then Panic "cipher: IV length must equal block size"
  else if negb (Z.rem (len src) BlockSize =? 0)
  then Panic "crypto/cipher: input not full blocks"
  else Ok (crypt k iv src (Z.to_nat (len src / BlockSize))).

(** Encrypt data with AES.  [rnd] is what
    [io.ReadFull(rand.Reader, iv)] did: [inr iv] when it filled the
    16-byte buffer, [inl e] when it returned the error [e], which
    encryptAES returns as it is. *)
Definition encryptAES (rnd : string + list Z) (key data : list Z)
  : result (list Z) :=
  block <- NewCipher key ;;
  match rnd with
  | inl e => Err e
  | inr iv =>
      data' <- pkcs7Pad data BlockSize ;;
      ciphertext <- CryptBlocks cbcEncryptBlocks block iv data' ;;
      Ok (iv ++ ciphertext)
  end.

(** Decrypt data with AES *)
Definition decryptAES (key data : list Z) : result (list Z) :=
  block <- NewCipher key ;;
  if len data <? BlockSize then Err "ciphertext too short"
  else
    let iv := firstn 16 data in
    let ciphertext := skipn 16 data in
    if negb (Z.rem (len ciphertext) BlockSize =? 0)
    then Err "ciphertext length not multiple of block size"
    else
      plaintext <- CryptBlocks cbcDecryptBlocks block iv ciphertext ;;
      pkcs7Unpad plaintext BlockSize.

(** The bytes that decryptAES hands to pkcs7Unpad: the CBC decryption of
    [data[16:]] under the IV [data[:16]]. *)
Definition cbcPlaintext (key data : list Z) : list Z :=
  cbcDecryptBlocks key (firstn 16 data) (skipn 16 data)
    (Z.to_nat (len (skipn 16 data) / BlockSize)).

End AES.

(** The number of bytes that pkcs7Pad adds for a 16-byte block. *)
Definition padLength (data : list Z) : Z := 16 - len data mod 16.

(** A block cipher to run the examples with: the block is mixed with the
    first sixteen key bytes. *)
Definition xorCipher (k b : list Z) : list Z := xorBytes b (firstn 16 k).

End Crypto.

(* ================================================================== *)
(** ** NAT resolver: the STUN client *)
(* ================================================================== *)

Module Stun.

(** STUN constants *)
Definition STUNBindingRequest : Z := 0x0001.
Definition STUNBindingResponse : Z := 0x0101.
Definition STUNHeaderLength : Z := 20.
Definition STUNMAGIC_COOKIE : Z := 0x2112A442.

(** Convert uint16 to bytes *)
Definition uint16ToBytes (n : Z) : list Z :=
  [byte (Z.shiftr n 8); byte n].

(** Convert bytes to uint16 *)
Definition bytesToUint16 (b : slice) : result Z :=
  b0 <- index b 0 ;;
  b1 <- index b 1 ;;
  Ok (Z.lor (Z.shiftl b0 8 mod 65536) b1).

(** Convert uint32 to bytes *)
Definition uint32ToBytes (n : Z) : list Z :=
  [byte (Z.shiftr n 24); byte (Z.shiftr n 16); byte (Z.shiftr n 8); byte n].

(** [net.IP(b).String()] for the four bytes of an IPv4 address. *)
Definition ipv4String (b : list Z) : string :=
  (itoa (nth 0 b 0) ++ "." ++ itoa (nth 1 b 0) ++ "."
     ++ itoa (nth 2 b 0) ++ "." ++ itoa (nth 3 b 0))%string.

(** The XOR-MAPPED-ADDRESS branch of the attribute loop: the new values
    of [ip] and [port]. *)
Definition xorMappedAddress (attrValue : slice) (ip : string) (port : Z)
  : result (string * Z) :=
  if len (elems attrValue) >=? 4 then
    addrFamily <- index attrValue 1 ;;
    if addrFamily =? 0x01 then
      (* XOR port *)
      portBytes <- reslice attrValue 2 4 ;;
      xorPort <- bytesToUint16 portBytes ;;
      let port' := Z.lxor xorPort (Z.shiftr STUNMAGIC_COOKIE 16) in
      (* XOR IP *)
      xorIP <- reslice attrValue 4 8 ;;
      let cookieBytes := uint32ToBytes STUNMAGIC_COOKIE in
      x0 <- index xorIP 0 ;;
      x1 <- index xorIP 1 ;;
      x2 <- index xorIP 2 ;;
      x3 <- index xorIP 3 ;;
      let ipBytes := [Z.lxor x0 (nth 0 cookieBytes 0);
                      Z.lxor x1 (nth 1 cookieBytes 0);
                      Z.lxor x2 (nth 2 cookieBytes 0);
                      Z.lxor x3 (nth 3 cookieBytes 0)] in
      Ok (ipv4String ipBytes, port')
    else Ok (ip, port)
  else Ok (ip, port).

(** How one turn of the attribute loop ends: the loop is left, or the
    next turn starts with new values of [attrsStart], [ip] and [port]. *)
Inductive turn : Type :=
| Leave
| Next (attrsStart : Z) (ip : string) (port : Z).

(** One turn of the loop [for attrsStart < attrsEnd], its condition
    included. *)
Definition attributeTurn (data : slice) (attrsStart attrsEnd : Z)
           (ip : string) (port : Z) : result turn :=
  if negb (attrsStart <? attrsEnd) then Ok Leave
  else if attrsStart + 4 >? attrsEnd then Ok Leave
  else
    typeBytes <- reslice data attrsStart (attrsStart + 2) ;;
    attrType <- bytesToUint16 typeBytes ;;
    lengthBytes <- reslice data (attrsStart + 2) (attrsStart + 4) ;;
    attrLength <- bytesToUint16 lengthBytes ;;
    let attrsStart := attrsStart + 4 in
    if attrsStart + attrLength >? attrsEnd then Ok Leave
    else
      attrValue <- reslice data attrsStart (attrsStart + attrLength) ;;
      (* Handle XOR_MAPPED_ADDRESS attribute (0x0020) *)
      found <- (if attrType =? 0x0020
                then xorMappedAddress attrValue ip port
                else Ok (ip, port)) ;;
      (* Align to 4-byte boundary *)
      let attrsStart := attrsStart + attrLength in
      let attrsStart :=
        if negb (Z.rem attrLength 4 =? 0)
        then attrsStart + (4 - Z.rem attrLength 4)
        else attrsStart in
      Ok (Next attrsStart (fst found) (snd found)).

(** The attribute loop.  Every turn moves [attrsStart] forward by four
    bytes at least, so [fuel] turns are enough as soon as
    [attrsEnd - attrsStart <= fuel] (lemma [parseAttributes_fuel]). *)
Fixpoint parseAttributes (fuel : nat) (data : slice)
         (attrsStart attrsEnd : Z) (ip : string) (port : Z)
  : result (string * Z) :=
  match fuel with
  | O => Ok (ip, port)
  | Datatypes.S fuel' =>
      t <- attributeTurn data attrsStart attrsEnd ip port ;;
      match t with
      | Leave => Ok (ip, port)
      | Next attrsStart' ip' port' =>
          parseAttributes fuel' data attrsStart' attrsEnd ip' port'
      end
  end.

(** A slice over a backing array of bytes. *)
Definition backed (s : slice) : Prop := bytes (elems s ++ spare s).

(** Parse STUN response *)
Definition parseSTUNResponse (data : slice) : result (string * Z) :=
  if len (elems data) <? STUNHeaderLength then Err "response data too short"
  else
    (* Parse STUN header *)
    typeBytes <- reslice data 0 2 ;;
    msgType <- bytesToUint16 typeBytes ;;
    if negb (msgType =? STUNBindingResponse)
    then Err "invalid STUN response type"
    else
      (* Get message length *)
      lengthBytes <- reslice data 2 4 ;;
      msgLength <- bytesToUint16 lengthBytes ;;
      (* Check data integrity *)
      if len (elems data) <? STUNHeaderLength + msgLength
      then Err "response data incomplete"
      else
        let attrsStart := STUNHeaderLength in
        let attrsEnd := STUNHeaderLength + msgLength in
        found <- parseAttributes (Z.to_nat msgLength) data
                   attrsStart attrsEnd EmptyString 0 ;;
        if String.eqb (fst found) EmptyString
        then Err "mapped address not found in STUN response"
        else Ok found.

(** What the network did during one sendSTUNRequest: the error, if any,
    of each step, and the datagram that [conn.Read] received. *)
Record Exchange : Type := mkExchange {
  resolveErr : option string;      (* net.ResolveUDPAddr *)
  dialErr : option string;         (* net.DialUDP *)
  randErr : option string;         (* rand.Read of the transaction id *)
  writeErr : option string;        (* conn.Write *)
  readResult : string + list Z     (* conn.Read: error, or the datagram *)
}.

(** The slice [response[:n]] that sendSTUNRequest hands to the parser:
    [response] is a zeroed buffer of 1024 bytes into which the datagram
    was read. *)
Definition responseSlice (datagram : list Z) : slice :=
  let received := firstn 1024 datagram in
  mkSlice received (repeat 0 (1024 - length received)).

(** Send STUN request and parse response *)
Definition sendSTUNRequest (x : Exchange) : result (string * Z) :=
  match resolveErr x with Some e => Err e | None =>
  match dialErr x with Some e => Err e | None =>
  match randErr x with Some e => Err e | None =>
  match writeErr x with Some e => Err e | None =>
  match readResult x with
  | inl e => Err e
  | inr datagram => parseSTUNResponse (responseSlice datagram)
  end end end end end.

(** Get local IP.  [dial] is the outcome of [net.Dial("udp", "8.8.8.8:80")]:
    the IP of the local address of the connection, or [None] on error. *)
Definition getLocalIP (dial : option string) : string :=
  match dial with
  | None => "127.0.0.1"
  | Some localAddr => localAddr
  end.

Definition stunServers : list string :=
  [ "stun.l.google.com:19302"; "stun1.l.google.com:19302";
    "stun2.l.google.com:19302"; "stun3.l.google.com:19302";
    "stun4.l.google.com:19302"; "stun.qq.com:19302";
    "stun.miwifi.com:19302"; "stun.msn.com:19302";
    "stun.hot-chilli.net:19302"; "stun.ekiga.net:3478";
    "stun.ideasip.com:3478"; "stun.rixtelecom.se:3478";
    "stun.schlund.de:3478"; "stun.stunprotocol.org:3478";
    "stun.voiparound.com:3478"; "stun.voipbuster.com:3478";
    "stun.voipstunt.com:3478"; "stun.voxgratia.org:3478";
    "stun.xten.com:3478" ]%string.

(** The loop [for _, server := range stunServers] of getPublicIPAndPort;
    [None] when it runs to its end. *)
Fixpoint tryServers (send : string -> result (string * Z))
         (servers : list string) : result (option (string * Z)) :=
  match servers with
  | [] => Ok None
  | server :: rest =>
      match send server with
      | Ok found => Ok (Some found)            (* err == nil: return *)
      | Err _ => tryServers send rest         (* logged, next server *)
      | Panic msg => Panic msg
      end
  end.

(** Get public IP and port using STUN.  [send] is sendSTUNRequest on each
    server name, [dial] the outcome of the dial in getLocalIP, [tcpPort]
    is [AppConfig.TCPPort]. *)
Definition getPublicIPAndPort (send : string -> result (string * Z))
           (dial : option string) (tcpPort : Z) : result (string * Z) :=
  found <- tryServers send stunServers ;;
  match found with
  | Some (ip, port) => Ok (ip, port)
  | None =>
      (* If all STUN servers fail, return local IP and default port *)
      let localIP := getLocalIP dial in
      Ok (localIP, tcpPort)
  end.

End Stun.

(* ================================================================== *)
(** ** The records exchanged between the components *)
(* ================================================================== *)

Module Wire.

(** Message structure *)
Record Message : Type := mkMessage {
  RoomID : string;
  Sender : string;
  Timestamp : string;
  Content : string
}.

(** Node info structure *)
Record NodeInfo : Type := mkNodeInfo {
  ID : string;
  Address : string;
  Nickname : string;
  NoSuperNode : bool
}.

(** What a goroutine of this program leaves behind: lines on the
    terminal and frames on the network.  A trace is a list of events.
    The send goroutines that a loop starts with [go] run unsynchronised;
    a trace lists what they do in the order in which the loop starts
    them, which is one of the schedules that Go allows.  What is stated
    of such events below holds of every schedule: it counts events or
    compares traces up to a permutation. *)
Inductive event : Type :=
| LogLine (line : string)               (* a system or failure line *)
| ShowOwn (timestamp content : string)  (* the line "[ts] Me: content" *)
| ShowMessage (m : Message)             (* "[ts] sender: content" *)
| Wrote (addr : string) (frame : list Z). (* conn.Write returned no error *)

(** The network and the random source, as the send goroutines meet them:
    for the goroutine that sends to [addr], the error of [net.DialTimeout]
    and of [conn.Write] ([None]: no error) and the outcome of reading an
    IV from [rand.Reader]: its error, or the sixteen bytes. *)
Record Net : Type := mkNet {
  netDial : string -> option string;
  netWrite : string -> option string;
  randRead : string -> string + list Z
}.

(** Durations count nanoseconds. *)
Definition Second : Z := 1000000000.

End Wire.

Export Wire.

(* ================================================================== *)
(** ** Topology manager: the SuperNodeManager *)
(* ================================================================== *)

Module SuperNode.

(** SuperNodeInfo stores information about a SuperNode *)
Record SuperNodeInfo : Type := mkSuperNodeInfo {
  Node : NodeInfo;          (* the embedded NodeInfo *)
  IsSuperNode : bool;
  LastActive : Z
}.

(** SuperNodeManager SuperNode manager *)
Record SuperNodeManager : Type := mkSuperNodeManager {
  mu : RWMutex;
  supernodes : list SuperNodeInfo;
  localNodeInfo : NodeInfo;
  messageKey : list Z;
  tcpPort : Z;
  udpPort : Z;
  isSuperNode : bool;
  noSuperNode : bool;
  superNodeMode : bool
}.

Definition set_mu (m : RWMutex) (sm : SuperNodeManager) : SuperNodeManager :=
  mkSuperNodeManager m (supernodes sm) (localNodeInfo sm) (messageKey sm)
    (tcpPort sm) (udpPort sm) (isSuperNode sm) (noSuperNode sm)
    (superNodeMode sm).

Definition set_supernodes (l : list SuperNodeInfo) (sm : SuperNodeManager)
  : SuperNodeManager :=
  mkSuperNodeManager (mu sm) l (localNodeInfo sm) (messageKey sm)
    (tcpPort sm) (udpPort sm) (isSuperNode sm) (noSuperNode sm)
    (superNodeMode sm).

Definition set_isSuperNode (b : bool) (sm : SuperNodeManager)
  : SuperNodeManager :=
  mkSuperNodeManager (mu sm) (supernodes sm) (localNodeInfo sm)
    (messageKey sm) (tcpPort sm) (udpPort sm) b (noSuperNode sm)
    (superNodeMode sm).

Definition set_superNodeMode (b : bool) (sm : SuperNodeManager)
  : SuperNodeManager :=
  mkSuperNodeManager (mu sm) (supernodes sm) (localNodeInfo sm)
    (messageKey sm) (tcpPort sm) (udpPort sm) (isSuperNode sm)
    (noSuperNode sm) b.

(** A method of the manager. *)
Definition SM (A : Type) : Type := M SuperNodeManager A.

(** [sm.mu.Lock(); defer sm.mu.Unlock()] around a method body. *)
Definition locked {A : Type} (body : SM A) : SM A :=
  Lock mu set_mu ;;; a <~ body ;; Unlock mu set_mu ;;; ret a.

(** [sm.mu.RLock(); defer sm.mu.RUnlock()] around a method body. *)
Definition rlocked {A : Type} (body : SM A) : SM A :=
  RLock mu set_mu ;;; a <~ body ;; RUnlock mu set_mu ;;; ret a.

(** [time.Since(sn.LastActive) < 30*time.Second] at clock reading [now] *)
Definition active (now : Z) (sn : SuperNodeInfo) : bool :=
  now - LastActive sn <? 30 * Second.

(** [l[i] = f(l[i])] *)
Fixpoint updateAt {A : Type} (i : nat) (f : A -> A) (l : list A) : list A :=
  match l, i with
  | [], _ => []
  | x :: l', O => f x :: l'
  | x :: l', S i' => x :: updateAt i' f l'
  end.

(** [append(l[:i], l[i+1:]...)] *)
Definition removeAt {A : Type} (i : nat) (l : list A) : list A :=
  firstn i l ++ skipn (S i) l.

(** The index at which a loop
    [for i, sn := range sm.supernodes { if sn.ID == nodeID { ...; return } }]
    runs its body, if it does. *)
Fixpoint indexOfID (nodeID : string) (l : list SuperNodeInfo) (i : nat)
  : option nat :=
  match l with
  | [] => None
  | sn :: l' =>
      if String.eqb (ID (Node sn)) nodeID then Some i
      else indexOfID nodeID l' (S i)
  end.

(** NewSuperNodeManager creates a new SuperNode manager *)
Definition NewSuperNodeManager (localNode : NodeInfo) (messageKey : list Z)
           (tcpPort udpPort : Z) (noSuperNode : bool) : SuperNodeManager :=
  mkSuperNodeManager Unlocked [] localNode messageKey tcpPort udpPort
    false noSuperNode true.

(** IsSuperNodeModeEnabled checks if SuperNode mode is enabled *)
Definition IsSuperNodeModeEnabled : SM bool := gets superNodeMode.

(** ShouldEnableSuperNodeMode determines whether SuperNode mode should be
    enabled based on node count *)
Definition ShouldEnableSuperNodeMode (nodeCount : Z) : SM bool :=
  gets (fun sm => superNodeMode sm && (nodeCount >? 5)).

(** SetSuperNodeMode sets SuperNode mode *)
Definition SetSuperNodeMode (enabled : bool) : SM unit :=
  modify (set_superNodeMode enabled).

(** IsLocalNodeSuperNode checks if the local node is a SuperNode *)
Definition IsLocalNodeSuperNode : SM bool := rlocked (gets isSuperNode).

(** SetLocalNodeAsSuperNode sets the local node as a SuperNode *)
Definition SetLocalNodeAsSuperNode (b : bool) : SM unit :=
  locked (modify (set_isSuperNode b)).

(** IsNoSuperNode checks if the node is configured not to become a
    SuperNode *)
Definition IsNoSuperNode : SM bool := gets noSuperNode.

(** The identifiers of the nodes of a table, in order. *)
Definition ids (l : list SuperNodeInfo) : list string :=
  map (fun sn => ID (Node sn)) l.

(** The table that AddNode leaves: the entry with the id of [nodeInfo]
    refreshed, or a new entry at the end. *)
Definition added (now : Z) (nodeInfo : NodeInfo) (l : list SuperNodeInfo)
  : list SuperNodeInfo :=
  match indexOfID (ID nodeInfo) l 0 with
  | Some i =>
      (* Update last active time and other info *)
      updateAt i (fun sn =>
        mkSuperNodeInfo
          (mkNodeInfo (ID (Node sn)) (Address nodeInfo) (Nickname nodeInfo)
             (NoSuperNode nodeInfo))
          (IsSuperNode sn) now) l
  | None =>
      (* Add new node *)
      l ++ [mkSuperNodeInfo nodeInfo false now]
  end.

(** AddNode adds a node to the SuperNode list *)
Definition AddNode (now : Z) (nodeInfo : NodeInfo) : SM unit :=
  locked (modify (fun sm =>
    set_supernodes (added now nodeInfo (supernodes sm)) sm)).

(** [sm.supernodes[i].IsSuperNode = true;
     sm.supernodes[i].LastActive = time.Now()] *)
Definition promote (now : Z) (sn : SuperNodeInfo) : SuperNodeInfo :=
  mkSuperNodeInfo (Node sn) true now.

(** SetAsSuperNode sets the specified node as a SuperNode *)
Definition SetAsSuperNode (now : Z) (nodeID : string) : SM unit :=
  locked (modify (fun sm =>
    match indexOfID nodeID (supernodes sm) 0 with
    | Some i => set_supernodes (updateAt i (promote now) (supernodes sm)) sm
    | None => sm
    end)).

(** GetSuperNodes gets all active SuperNodes *)
Definition GetSuperNodes (now : Z) : SM (list SuperNodeInfo) :=
  rlocked (gets (fun sm =>
    filter (fun sn => active now sn && IsSuperNode sn) (supernodes sm))).

(** GetRegularNodes gets all regular nodes *)
Definition GetRegularNodes (now : Z) : SM (list NodeInfo) :=
  rlocked (gets (fun sm =>
    map Node
      (filter (fun sn => active now sn && negb (IsSuperNode sn))
         (supernodes sm)))).

(** GetNode gets the specified node info *)
Definition GetNode (nodeID : string) : SM (option SuperNodeInfo) :=
  rlocked (gets (fun sm =>
    find (fun sn => String.eqb (ID (Node sn)) nodeID) (supernodes sm))).

(** RemoveNode removes a node *)
Definition RemoveNode (nodeID : string) : SM unit :=
  locked (modify (fun sm =>
    match indexOfID nodeID (supernodes sm) 0 with
    | Some i => set_supernodes (removeAt i (supernodes sm)) sm
    | None => sm
    end)).

(** UpdateNodeActivity updates node activity time *)
Definition UpdateNodeActivity (now : Z) (nodeID : string) : SM unit :=
  locked (modify (fun sm =>
    match indexOfID nodeID (supernodes sm) 0 with
    | Some i =>
        set_supernodes
          (updateAt i (fun sn =>
             mkSuperNodeInfo (Node sn) (IsSuperNode sn) now)
             (supernodes sm)) sm
    | None => sm
    end)).

(** checkIfNodeIsNoSuperNode checks if the node is configured as
    noSuperNode *)
Definition checkIfNodeIsNoSuperNode (nodeID : string) : SM bool :=
  nodeInfo <~ GetNode nodeID ;;
  match nodeInfo with
  | Some sn => ret (NoSuperNode (Node sn))
  | None => ret false
  end.

(** The first loop of SelectInitialSuperNode, over the nodes [l] still to
    visit: the candidates collected. *)
Fixpoint collectCandidates (l : list SuperNodeInfo)
         (candidates : list SuperNodeInfo) (count : Z)
  : SM (list SuperNodeInfo) :=
  match l with
  | [] => ret candidates
  | sn :: l' =>
      if count >=? 5 then ret candidates
      else
        localAddr <~ gets (fun sm => Address (localNodeInfo sm)) ;;
        (* Don't select nodes configured with noSuperNode *)
        if negb (String.eqb (ID (Node sn)) localAddr) then
          nodeIsNoSuperNode <~ checkIfNodeIsNoSuperNode (ID (Node sn)) ;;
          if negb nodeIsNoSuperNode
          then collectCandidates l' (candidates ++ [sn]) (count + 1)
          else collectCandidates l' candidates count
        else collectCandidates l' candidates count
  end.

(** SelectInitialSuperNode randomly selects one as the initial SuperNode
    from the first 5 nodes *)
Definition SelectInitialSuperNode (now : Z) : SM string :=
  locked (
    l <~ gets supernodes ;;
    candidates <~ collectCandidates l [] 0 ;;
    if len candidates =? 0 then ret EmptyString
    else
      (* Randomly select one (using current time as random source) *)
      let index := Z.rem (now / Second) (len candidates) in
      if index <? 0
      then (fun sm => Fatal "runtime error: index out of range" sm)
      else
        let selectedID :=
          match nth_error candidates (Z.to_nat index) with
          | Some c => ID (Node c)
          | None => EmptyString
          end in
        (* Set as SuperNode *)
        modify (fun sm =>
          match indexOfID selectedID (supernodes sm) 0 with
          | Some i =>
              let sm' :=
                set_supernodes (updateAt i (promote now) (supernodes sm)) sm in
              if String.eqb selectedID (Address (localNodeInfo sm))
              then set_isSuperNode true sm'
              else sm'
          | None => sm
          end) ;;;
        ret selectedID).

(** The test of selectNewSuperNode on a node, before it asks whether the
    node has opted out: a regular node, active, not the local one. *)
Definition shortlisted (now : Z) (localAddr : string) (sn : SuperNodeInfo)
  : bool :=
  negb (IsSuperNode sn) && active now sn
  && negb (String.eqb (ID (Node sn)) localAddr).

(** The loop of selectNewSuperNode over the nodes [l] still to visit, the
    first of which has index [i]: [true] when it promoted a node and
    returned. *)
Fixpoint promoteFirstEligible (now : Z) (l : list SuperNodeInfo) (i : nat)
  : SM bool :=
  match l with
  | [] => ret false
  | sn :: l' =>
      localAddr <~ gets (fun sm => Address (localNodeInfo sm)) ;;
      if shortlisted now localAddr sn then
        nodeIsNoSuperNode <~ checkIfNodeIsNoSuperNode (ID (Node sn)) ;;
        if negb nodeIsNoSuperNode then
          (* Set as SuperNode *)
          modify (fun sm =>
            set_supernodes (updateAt i (promote now) (supernodes sm)) sm) ;;;
          ret true
        else promoteFirstEligible now l' (S i)
      else promoteFirstEligible now l' (S i)
  end.

(** selectNewSuperNode selects a new SuperNode *)
Definition selectNewSuperNode (now : Z) : SM unit :=
  l <~ gets supernodes ;;
  promoted <~ promoteFirstEligible now l 0 ;;
  if promoted then ret tt
  else
    (* If no suitable regular node and local node is not set as
       noSuperNode, then local node becomes SuperNode *)
    modify (fun sm =>
      if negb (noSuperNode sm) && negb (isSuperNode sm)
      then set_isSuperNode true sm
      else sm).

(** handleSuperNodeLeave handles the SuperNode leave event *)
Definition handleSuperNodeLeave (now : Z) : SM unit :=
  (* Check if there are other active SuperNodes *)
  activeSuperNodes <~ gets (fun sm =>
    len (filter (fun sn => IsSuperNode sn && active now sn) (supernodes sm))) ;;
  (* The leaving SuperNode is also counted *)
  if activeSuperNodes <=? 1 then selectNewSuperNode now else ret tt.

(** The loop of HandleNodeLeave over the nodes [l] still to visit, the
    first of which has index [i]. *)
Fixpoint leaveLoop (now : Z) (nodeID : string) (l : list SuperNodeInfo)
         (i : nat) : SM unit :=
  match l with
  | [] => ret tt
  | sn :: l' =>
      if String.eqb (ID (Node sn)) nodeID then
        (* If the leaving node is a SuperNode, need to elect a new one *)
        (if IsSuperNode sn then handleSuperNodeLeave now else ret tt) ;;;
        modify (fun sm => set_supernodes (removeAt i (supernodes sm)) sm)
      else leaveLoop now nodeID l' (S i)
  end.

(** HandleNodeLeave handles the node leave event *)
Definition HandleNodeLeave (now : Z) (nodeID : string) : SM unit :=
  locked (l <~ gets supernodes ;; leaveLoop now nodeID l 0).

(** GetBestSuperNodeForConnection gets the best SuperNode for connection *)
Definition GetBestSuperNodeForConnection (now : Z) : SM (option SuperNodeInfo) :=
  superNodes <~ GetSuperNodes now ;;
  match superNodes with
  | [] => ret None
  | first :: _ => ret (Some first)
  end.

Section Forwarding.

(** [json.Marshal] on a Message (it has no error case for a struct of
    strings) and the block primitive of crypto/aes. *)
Variable jsonMarshal : Message -> list Z.
Variable aesEncryptBlock : list Z -> list Z -> list Z.

(** The failure lines of a send goroutine: no connection (address,
    error), no encryption (error), no write (address, error). *)
Record Lines : Type := mkLines {
  connectFailed : string -> string -> string;
  encryptFailed : string -> string;
  writeFailed : string -> string -> string
}.

Definition superNodeLines : Lines :=
  (mkLines
    (fun addr e => "Failed to connect to SuperNode " ++ addr ++ ": " ++ e)
    (fun e => "Failed to encrypt message: " ++ e)
    (fun addr e =>
       "Failed to send message to SuperNode " ++ addr ++ ": " ++ e))%string.

(** The goroutine that carries a message to one node: dial, serialize,
    encrypt under a fresh IV, write. *)
Definition forwardTo (lines : Lines) (net : Net) (key : list Z)
           (message : Message) (nodeAddr : string) : list event :=
  match netDial net nodeAddr with
  | Some e => [LogLine (connectFailed lines nodeAddr e)]
  | None =>
      let messageData := jsonMarshal message in
      match Crypto.encryptAES aesEncryptBlock (randRead net nodeAddr)
              key messageData with
      | Ok encryptedData =>
          match netWrite net nodeAddr with
          | Some e => [LogLine (writeFailed lines nodeAddr e)]
          | None => [Wrote nodeAddr encryptedData]
          end
      | Err e => [LogLine (encryptFailed lines e)]
      | Panic e => [LogLine ("panic: " ++ e)%string]
      end
  end.

(** The loop of ForwardMessageToSuperNodes: one goroutine for every
    SuperNode but the local one. *)
Fixpoint forwardLoop (localAddr : string) (net : Net) (key : list Z)
         (message : Message) (superNodes : list SuperNodeInfo)
  : list event :=
  match superNodes with
  | [] => []
  | superNode :: rest =>
      if String.eqb (Address (Node superNode)) localAddr
      then forwardLoop localAddr net key message rest  (* not to self *)
      else forwardTo superNodeLines net key message
             (Address (Node superNode))
           ++ forwardLoop localAddr net key message rest
  end.

(** ForwardMessageToSuperNodes forwards messages to SuperNodes.  Its
    error is always nil; the value returned here is what its goroutines
    do, in the order in which they are launched. *)
Definition ForwardMessageToSuperNodes (now : Z) (net : Net)
           (message : Message) (messageKey : list Z) : SM (list event) :=
  superNodes <~ GetSuperNodes now ;;
  localAddr <~ gets (fun sm => Address (localNodeInfo sm)) ;;
  ret (forwardLoop localAddr net messageKey message superNodes).

End Forwarding.

End SuperNode.

(* ================================================================== *)
(** ** Session, discovery and routing: the P2PChat client *)
(* ================================================================== *)

Module Chat.

Import SuperNode.

(** Config holds the application configuration: the fields the core
    reads.  [NoSuperNode] is read as [AppConfig.NoSuperNode] by the
    session code; the declaration of the struct lists the others. *)
Record Config : Type := mkConfig {
  TCPPort : Z;
  UDPPort : Z;
  MaxNodes : Z;
  CfgNoSuperNode : bool
}.

(** Room info structure *)
Record RoomInfo : Type := mkRoomInfo {
  RoomId : string;
  Nodes : list NodeInfo;
  Password : string
}.

(** P2P chat client.  The sockets are left to the network parameters of
    the operations. *)
Record P2PChat : Type := mkP2PChat {
  LocalNode : NodeInfo;
  Room : RoomInfo;
  MessageKey : list Z;
  NodeMutex : RWMutex;
  Running : bool;
  PublicIP : string;
  PublicPort : Z;
  SuperNodeMgr : SuperNodeManager
}.

(** The client together with what its goroutines have printed and sent so
    far, oldest first. *)
Record Process : Type := mkProcess {
  client : P2PChat;
  trace : list event
}.

Definition PM (A : Type) : Type := M Process A.

Definition onClient (f : P2PChat -> P2PChat) : PM unit :=
  modify (fun w => mkProcess (f (client w)) (trace w)).

Definition emit (evs : list event) : PM unit :=
  modify (fun w => mkProcess (client w) (trace w ++ evs)).

Definition set_NodeMutex (m : RWMutex) (w : Process) : Process :=
  let p := client w in
  mkProcess (mkP2PChat (LocalNode p) (Room p) (MessageKey p) m (Running p)
               (PublicIP p) (PublicPort p) (SuperNodeMgr p)) (trace w).

Definition set_SuperNodeMgr (sm : SuperNodeManager) (w : Process) : Process :=
  let p := client w in
  mkProcess (mkP2PChat (LocalNode p) (Room p) (MessageKey p) (NodeMutex p)
               (Running p) (PublicIP p) (PublicPort p) sm) (trace w).

Definition set_Nodes (l : list NodeInfo) (p : P2PChat) : P2PChat :=
  mkP2PChat (LocalNode p)
    (mkRoomInfo (RoomId (Room p)) l (Password (Room p)))
    (MessageKey p) (NodeMutex p) (Running p) (PublicIP p) (PublicPort p)
    (SuperNodeMgr p).

(** A call [p.SuperNodeMgr.method(...)]. *)
Definition mgr {A : Type} (m : SM A) : PM A := fun w =>
  match m (SuperNodeMgr (client w)) with
  | Returns a sm => Returns a (set_SuperNodeMgr sm w)
  | Blocks sm => Blocks (set_SuperNodeMgr sm w)
  | Fatal msg sm => Fatal msg (set_SuperNodeMgr sm w)
  end.

Definition nodeMutex (w : Process) : RWMutex := NodeMutex (client w).

(** [fmt.Sprintf("%s:%d", ip, port)] *)
Definition hostPort (ip : string) (port : Z) : string :=
  (ip ++ ":" ++ itoa port)%string.

(** Create new P2P chat client.  [nickname] is what
    generateRandomNickname returned and [public] what getPublicIPAndPort
    returned; [localIP] is getLocalIP(), used if the latter is an error. *)
Definition NewP2PChat (cfg : Config) (nickname : string)
           (public : result (string * Z)) (localIP : string)
  : result P2PChat :=
  match
    match public with
    | Ok found => Ok found
    | Err _ => Ok (localIP, TCPPort cfg)
    | Panic msg => Panic msg
    end
  with
  | Ok (publicIP, publicPort) =>
      let localNode :=
        mkNodeInfo EmptyString (hostPort publicIP publicPort) nickname
          (CfgNoSuperNode cfg) in
      Ok (mkP2PChat localNode (mkRoomInfo EmptyString [] EmptyString) []
            Unlocked false publicIP publicPort
            (NewSuperNodeManager localNode [] (TCPPort cfg) (UDPPort cfg)
               (CfgNoSuperNode cfg)))
  | Err e => Err e
  | Panic msg => Panic msg
  end.

(** How many times a trace displays the sender's own message. *)
Fixpoint ownDisplays (tr : list event) : nat :=
  match tr with
  | [] => O
  | ShowOwn _ _ :: tr' => S (ownDisplays tr')
  | _ :: tr' => ownDisplays tr'
  end.

(** What [GetNode(addr)] followed by the test [IsSuperNode] gives in the
    first forwarding loop of handleTCPConnection. *)
Definition knownAsSuperNode (sm : SuperNodeManager) (addr : string) : bool :=
  match find (fun sn => String.eqb (ID (Node sn)) addr) (supernodes sm) with
  | Some sn => IsSuperNode sn
  | None => false
  end.

(** A part of the client that does not depend on the SuperNode manager:
    the member list, the node mutex, the local node. *)
Definition besideManager {X : Type} (part : P2PChat -> X) : Prop :=
  forall w sm, part (client (set_SuperNodeMgr sm w)) = part (client w).

(** A method that leaves a part of the client alone, however it ends. *)
Definition keeps {X A : Type} (part : P2PChat -> X) (m : PM A) : Prop :=
  forall w, part (client (final (m w))) = part (client w).

(** The member list of the state in which a method ends. *)
Definition membersAfter {A : Type} (o : outcome Process A) : list NodeInfo :=
  Nodes (Room (client (final o))).

(** What the listener relies on between two announcements: both mutexes
    free, the manager built for this client, no SuperNode in its table. *)
Definition settled (w : Process) : Prop :=
  NodeMutex (client w) = Unlocked
  /\ mu (SuperNodeMgr (client w)) = Unlocked
  /\ Address (localNodeInfo (SuperNodeMgr (client w)))
     = Address (LocalNode (client w))
  /\ forallb (fun sn => negb (IsSuperNode sn))
       (supernodes (SuperNodeMgr (client w))) = true.

(** The members of the room that carry the local address. *)
Definition localEntries (localAddr : string) (nodes : list NodeInfo)
  : list NodeInfo :=
  filter (fun node => String.eqb (Address node) localAddr) nodes.

Section Session.

Variable cfg : Config.                       (* AppConfig *)

(** encoding/base64, encoding/json and crypto/aes are libraries outside
    the repository. *)
Variable base64Encode : list Z -> string.
Variable base64Decode : string -> string + list Z.
Variable jsonMarshal : Message -> list Z.
Variable jsonUnmarshal : list Z -> string + Message.
Variable aesEncryptBlock : list Z -> list Z -> list Z.
Variable aesDecryptBlock : list Z -> list Z -> list Z.

(** Create room.  [rnd] is the outcome of reading the 16 key bytes from
    [rand.Reader]: the error of [io.ReadFull], which CreateRoom returns
    as it is, or the key.  The value returned is the error ([None] for
    nil). *)
Definition CreateRoom (rnd : string + list Z) (roomID : string)
  : PM (option string) :=
  match rnd with
  | inl e => ret (Some e)
  | inr key =>
      onClient (fun p =>
        let password := base64Encode key in
        (* Add local node to room *)
        let localNode :=
          mkNodeInfo (Address (LocalNode p)) (Address (LocalNode p))
            (Nickname (LocalNode p)) (CfgNoSuperNode cfg) in
        mkP2PChat (LocalNode p)
          (mkRoomInfo roomID (Nodes (Room p) ++ [localNode]) password)
          key (NodeMutex p) (Running p) (PublicIP p) (PublicPort p)
          (NewSuperNodeManager (LocalNode p) key (TCPPort cfg)
             (UDPPort cfg) (CfgNoSuperNode cfg))) ;;;
      p <~ gets client ;;
      emit [LogLine ("Room created successfully! Room ID: " ++ roomID);
            LogLine ("Room key: " ++ Password (Room p));
            LogLine ("Your nickname: " ++ Nickname (LocalNode p))]%string ;;;
      ret None
  end.

(** Join room *)
Definition JoinRoom (roomID password : string) : PM (option string) :=
  (* Decode key *)
  match base64Decode password with
  | inl e => ret (Some ("invalid room key: " ++ e)%string)
  | inr key =>
      if negb (len key =? 16)
      then ret (Some "room key length incorrect, should be 16 bytes"%string)
      else
        onClient (fun p =>
          let localNode :=
            mkNodeInfo (ID (LocalNode p)) (Address (LocalNode p))
              (Nickname (LocalNode p)) (CfgNoSuperNode cfg) in
          mkP2PChat localNode
            (mkRoomInfo roomID (Nodes (Room p)) password)
            key (NodeMutex p) (Running p) (PublicIP p) (PublicPort p)
            (NewSuperNodeManager localNode key (TCPPort cfg)
               (UDPPort cfg) (CfgNoSuperNode cfg))) ;;;
        p <~ gets client ;;
        emit [LogLine ("Successfully joined room " ++ roomID ++ "!");
              LogLine ("Your nickname: " ++ Nickname (LocalNode p))]%string ;;;
        ret None
  end.

(** UDP broadcast for node discovery: the part that touches the client.
    [listenErr] is the error, if any, of resolving the address or of
    opening the socket. *)
Definition StartUDPBroadcast (listenErr : option string)
  : PM (option string) :=
  match listenErr with
  | Some e => ret (Some e)
  | None =>
      onClient (fun p =>
        mkP2PChat (LocalNode p) (Room p) (MessageKey p) (NodeMutex p) true
          (PublicIP p) (PublicPort p) (SuperNodeMgr p)) ;;;
      ret None
  end.

(** *** Discovery *)

(** The loop [for _, node := range p.Room.Nodes] that looks for the
    announced id. *)
Definition isRoomNode (nodes : list NodeInfo) (id : string) : bool :=
  existsb (fun node => String.eqb (ID node) id) nodes.

(** The defaults that listenForBroadcasts fills in after decoding. *)
Definition normalize (received : NodeInfo) (addr : string) : NodeInfo :=
  let nodeInfo :=
    if String.eqb (ID received) EmptyString
    then mkNodeInfo (ID received) (Address received) (Nickname received) false
    else received in
  if String.eqb (Address nodeInfo) EmptyString
  then mkNodeInfo (ID nodeInfo) addr (Nickname nodeInfo) (NoSuperNode nodeInfo)
  else nodeInfo.

(** Whether [announce] appends the announced node to the member list. *)
Definition accepts (p : P2PChat) (nodeInfo : NodeInfo) : bool :=
  negb (isRoomNode (Nodes (Room p)) (ID nodeInfo))
  && negb (String.eqb (ID nodeInfo) (Address (LocalNode p)))
  && (len (Nodes (Room p)) <? MaxNodes cfg).

(** The election that follows an admission. *)
Definition electAfterAdmission (now : Z) : PM unit :=
  p <~ gets client ;;
  if len (Nodes (Room p)) =? 2 then
    superNodes <~ mgr (GetSuperNodes now) ;;
    match superNodes with
    | [] =>
        if len (Nodes (Room p)) <=? 5 then
          (* Select initial SuperNode from first 5 nodes *)
          selectedSuperNodeID <~ mgr (SelectInitialSuperNode now) ;;
          if negb (String.eqb selectedSuperNodeID EmptyString)
          then emit [LogLine ("[System] Selected " ++ selectedSuperNodeID
                                ++ " as initial SuperNode")%string]
          else ret tt
        else ret tt
    | _ :: _ => ret tt
    end
  else ret tt.

(** One turn of the loop of listenForBroadcasts, for a datagram that
    decoded into [received], sent from [addr], at clock reading [now]. *)
Definition announce (now : Z) (received : NodeInfo) (addr : string)
  : PM unit :=
  let nodeInfo := normalize received addr in
  p <~ gets client ;;
  (* Add to room if not already present and not self *)
  if negb (isRoomNode (Nodes (Room p)) (ID nodeInfo))
     && negb (String.eqb (ID nodeInfo) (Address (LocalNode p)))
  then
    Lock nodeMutex set_NodeMutex ;;;
    p <~ gets client ;;
    (* Check if node limit is reached *)
    if len (Nodes (Room p)) >=? MaxNodes cfg then
      emit [LogLine ("[System] Node limit (" ++ itoa (MaxNodes cfg)
                       ++ ") reached, ignoring new node "
                       ++ Nickname nodeInfo ++ " (" ++ Address nodeInfo
                       ++ ")")%string] ;;;
      Unlock nodeMutex set_NodeMutex
    else
      onClient (set_Nodes (Nodes (Room p) ++ [nodeInfo])) ;;;
      Unlock nodeMutex set_NodeMutex ;;;
      (* Add node to SuperNode manager *)
      mgr (AddNode now nodeInfo) ;;;
      electAfterAdmission now ;;;
      emit [LogLine ("[System] Node " ++ Nickname nodeInfo ++ " ("
                       ++ Address nodeInfo ++ ") joined the room")%string]
  else ret tt.

(** What one [ReadFromUDP] of the listener brings. *)
Inductive datagram : Type :=
| ReadFailed (e : string)
| Undecodable                       (* json.Unmarshal returned an error *)
| Announcement (now : Z) (received : NodeInfo) (addr : string).

(** Listen for UDP broadcasts: the loop [for p.Running], over the
    datagrams that arrive. *)
Fixpoint listenForBroadcasts (arrivals : list datagram) : PM unit :=
  match arrivals with
  | [] => ret tt
  | d :: rest =>
      running <~ gets (fun w => Running (client w)) ;;
      if running then
        match d with
        | ReadFailed e =>
            emit [LogLine ("Error reading UDP broadcast: " ++ e)%string]
        | Undecodable => ret tt
        | Announcement now received addr => announce now received addr
        end ;;;
        listenForBroadcasts rest
      else ret tt
  end.

(** *** Inbound path *)

Definition regularLines : Lines :=
  (mkLines
    (fun addr e => "Failed to connect to node " ++ addr
                     ++ " for message forwarding: " ++ e)
    (fun e => "Failed to re-encrypt message: " ++ e)
    (fun addr e =>
       "Failed to forward message to node " ++ addr ++ ": " ++ e))%string.

Definition relayLines : Lines :=
  (mkLines
    (fun addr e => "Failed to connect to SuperNode " ++ addr
                     ++ " for message forwarding: " ++ e)
    (fun e => "Failed to re-encrypt message: " ++ e)
    (fun addr e =>
       "Failed to forward message to SuperNode " ++ addr ++ ": " ++ e))%string.

(** The loop "forward to all regular nodes" of handleTCPConnection: the
    addresses for which it launches a goroutine, in order. *)
Fixpoint regularPass (localAddr remoteAddr : string)
         (nodes : list NodeInfo) : PM (list string) :=
  match nodes with
  | [] => ret []
  | node :: rest =>
      if String.eqb (Address node) localAddr
         || String.eqb (Address node) remoteAddr
      then regularPass localAddr remoteAddr rest
      else
        (* Check if it's a regular node (not another SuperNode) *)
        superNodeInfo <~ mgr (GetNode (Address node)) ;;
        if match superNodeInfo with
           | Some sn => IsSuperNode sn
           | None => false
           end
        then regularPass localAddr remoteAddr rest
        else
          targets <~ regularPass localAddr remoteAddr rest ;;
          ret (Address node :: targets)
  end.

(** The loop "forward to other SuperNodes too": the addresses for which
    it launches a goroutine, in order. *)
Fixpoint superNodePass (localAddr remoteAddr : string)
         (otherSuperNodes : list SuperNodeInfo) : list string :=
  match otherSuperNodes with
  | [] => []
  | superNode :: rest =>
      if String.eqb (Address (Node superNode)) localAddr
         || String.eqb (Address (Node superNode)) remoteAddr
      then superNodePass localAddr remoteAddr rest
      else Address (Node superNode)
             :: superNodePass localAddr remoteAddr rest
  end.

(** The forwarding branch of handleTCPConnection, taken by a SuperNode
    in SuperNode mode: the addresses served by the two loops. *)
Definition forwardInbound (now : Z) (net : Net) (remoteAddr : string)
           (message : Message) : PM (list string * list string) :=
  RLock nodeMutex set_NodeMutex ;;;
  p <~ gets client ;;
  let localAddr := Address (LocalNode p) in
  regular <~ regularPass localAddr remoteAddr (Nodes (Room p)) ;;
  emit (flat_map
          (forwardTo jsonMarshal aesEncryptBlock regularLines net
             (MessageKey p) message) regular) ;;;
  otherSuperNodes <~ mgr (GetSuperNodes now) ;;
  let relays := superNodePass localAddr remoteAddr otherSuperNodes in
  emit (flat_map
          (forwardTo jsonMarshal aesEncryptBlock relayLines net
             (MessageKey p) message) relays) ;;;
  RUnlock nodeMutex set_NodeMutex ;;;
  ret (regular, relays).

(** One turn of the loop of handleTCPConnection, for the bytes [frame]
    read from a connection whose remote address is [remoteAddr].  The
    value returned is the pair of address lists of [forwardInbound], or
    two empty lists where nothing is forwarded. *)
Definition handleFrame (now : Z) (net : Net) (remoteAddr : string)
           (frame : list Z) : PM (list string * list string) :=
  p <~ gets client ;;
  match Crypto.decryptAES aesDecryptBlock (MessageKey p) frame with
  | Panic msg => fun w => Fatal msg w
  | Err e =>
      emit [LogLine ("Failed to decrypt message from " ++ remoteAddr
                       ++ ": " ++ e)%string] ;;;
      ret ([], [])
  | Ok decryptedData =>
      match jsonUnmarshal decryptedData with
      | inl e =>
          emit [LogLine ("Invalid message format from " ++ remoteAddr
                           ++ ": " ++ e)%string] ;;;
          ret ([], [])
      | inr message =>
          (* Check if message is for current room *)
          if negb (String.eqb (RoomID message) (RoomId (Room p)))
          then ret ([], [])
          else
            enabled <~ mgr (ShouldEnableSuperNodeMode
                              (len (Nodes (Room p)))) ;;
            served <~
              (if enabled then
                 isSuperNode <~ mgr IsLocalNodeSuperNode ;;
                 if isSuperNode
                 then forwardInbound now net remoteAddr message
                 else ret ([], [])
               else ret ([], [])) ;;
            (* Display message locally *)
            emit [ShowMessage message] ;;;
            ret served
      end
  end.

(** What one [conn.Read] of a connection handler brings: the end of the
    stream, another error, or the bytes of a frame at a clock reading. *)
Inductive reading : Type :=
| EndOfStream
| ReadError (e : string)
| Frame (now : Z) (frame : list Z).

(** Handle TCP connection: the loop [for p.Running], over what the reads
    of the connection bring. *)
Fixpoint handleTCPConnection (net : Net) (remoteAddr : string)
         (reads : list reading) : PM unit :=
  match reads with
  | [] => ret tt
  | r :: rest =>
      running <~ gets (fun w => Running (client w)) ;;
      if running then
        match r with
        | EndOfStream => ret tt
        | ReadError e =>
            emit [LogLine ("Error reading TCP connection from "
                             ++ remoteAddr ++ ": " ++ e)%string]
        | Frame now frame =>
            handleFrame now net remoteAddr frame ;;;
            handleTCPConnection net remoteAddr rest
        end
      else ret tt
  end.

(** *** Outbound path *)

(** The goroutine of the direct fan-out: dial, write the frame. *)
Definition sendFrame (net : Net) (encryptedData : list Z)
           (nodeAddr : string) : list event :=
  match netDial net nodeAddr with
  | Some e =>
      [LogLine ("Failed to connect to node " ++ nodeAddr ++ ": " ++ e)%string]
  | None =>
      match netWrite net nodeAddr with
      | Some e =>
          [LogLine ("Failed to send message to node " ++ nodeAddr
                      ++ ": " ++ e)%string]
      | None => [Wrote nodeAddr encryptedData]
      end
  end.

(** The goroutine that sends to the designated SuperNode: it displays
    the local message after a successful send. *)
Definition sendViaSuperNode (net : Net) (encryptedData : list Z)
           (message : Message) (nodeAddr : string) : list event :=
  match netDial net nodeAddr with
  | Some e =>
      [LogLine ("Failed to connect to SuperNode " ++ nodeAddr
                  ++ ": " ++ e)%string]
  | None =>
      match netWrite net nodeAddr with
      | Some e =>
          [LogLine ("Failed to send message to SuperNode " ++ nodeAddr
                      ++ ": " ++ e)%string]
      | None =>
          [Wrote nodeAddr encryptedData;
           ShowOwn (Timestamp message) (Content message)]
      end
  end.

(** The loop [for _, node := range p.Room.Nodes] of the direct fan-out:
    what it prints and launches, and the final [localDisplayed].  The
    events of the goroutines stand where the loop starts them; in Go
    they fall at any later point. *)
Fixpoint fanOutLoop (localAddr : string) (net : Net)
         (encryptedData : list Z) (message : Message)
         (nodes : list NodeInfo) (localDisplayed : bool)
  : list event * bool :=
  match nodes with
  | [] => ([], localDisplayed)
  | node :: rest =>
      if String.eqb (Address node) localAddr then
        (* Display local message *)
        let r := fanOutLoop localAddr net encryptedData message rest true in
        (ShowOwn (Timestamp message) (Content message) :: fst r, snd r)
      else
        let r := fanOutLoop localAddr net encryptedData message rest
                   localDisplayed in
        (sendFrame net encryptedData (Address node) ++ fst r, snd r)
  end.

(** Send to all nodes directly (the standard mode and the fallback). *)
Definition directFanOut (net : Net) (encryptedData : list Z)
           (message : Message) : PM unit :=
  RLock nodeMutex set_NodeMutex ;;;
  p <~ gets client ;;
  let r := fanOutLoop (Address (LocalNode p)) net encryptedData message
             (Nodes (Room p)) false in
  emit (fst r) ;;;
  (if negb (snd r)
   then emit [ShowOwn (Timestamp message) (Content message)]
   else ret tt) ;;;
  RUnlock nodeMutex set_NodeMutex.

(** Send message to all nodes in room.  [timestamp] is the formatted
    [time.Now()], [rnd] the outcome of reading the IV for the encryption
    of the frame.  The value returned is the error ([None] for nil). *)
Definition SendMessage (now : Z) (timestamp : string) (net : Net)
           (rnd : string + list Z) (content : string)
  : PM (option string) :=
  p <~ gets client ;;
  (* Create message *)
  let message :=
    mkMessage (RoomId (Room p)) (Nickname (LocalNode p)) timestamp content in
  (* Serialize message *)
  let messageData := jsonMarshal message in
  (* Encrypt message *)
  match Crypto.encryptAES aesEncryptBlock rnd (MessageKey p) messageData with
  | Panic msg => fun w => Fatal msg w
  | Err e => ret (Some e)
  | Ok encryptedData =>
      (* Use SuperNode mode if enabled and there are enough nodes *)
      enabled <~ mgr (ShouldEnableSuperNodeMode (len (Nodes (Room p)))) ;;
      (if enabled then
         isSuperNode <~ mgr IsLocalNodeSuperNode ;;
         if isSuperNode then
           (* Forward to other SuperNodes *)
           launched <~ mgr (ForwardMessageToSuperNodes jsonMarshal
                              aesEncryptBlock now net message
                              (MessageKey p)) ;;
           emit launched ;;;
           (* Display local message *)
           emit [ShowOwn (Timestamp message) (Content message)]
         else
           (* If not a SuperNode, send to my designated SuperNode *)
           superNode <~ mgr (GetBestSuperNodeForConnection now) ;;
           match superNode with
           | Some sn =>
               emit (sendViaSuperNode net encryptedData message
                       (Address (Node sn)))
           | None =>
               (* Fallback: send directly to all nodes *)
               directFanOut net encryptedData message
           end
       else
         (* Standard mode: send to all nodes directly *)
         directFanOut net encryptedData message) ;;;
      ret None
  end.

End Session.

End Chat.

(* ================================================================== *)
(** ** Sample data: keys, datagrams, rooms *)
(* ================================================================== *)

Module Samples.

Import Crypto Stun SuperNode Chat.

Definition sampleKey : list Z := [1;2;3;4;5;6;7;8;9;10;11;12;13;14;15;16].
Definition sampleIV : list Z := [0;255;7;9;100;101;102;103;9;8;7;6;5;4;3;2].

(** A binding response of 28 bytes whose XOR-MAPPED-ADDRESS attribute
    announces four bytes of value: family and port, and no address. *)
Definition truncatedResponse : list Z :=
  [0x01; 0x01; 0x00; 0x08; 0x21; 0x12; 0xA4; 0x42;
   1; 2; 3; 4; 5; 6; 7; 8; 9; 10; 11; 12;
   0x00; 0x20; 0x00; 0x04; 0x00; 0x01; 0xA1; 0x47].

(** A binding response of 1024 bytes: an attribute of type 1 with 992
    bytes of value, then the same truncated XOR-MAPPED-ADDRESS attribute
    in the last eight bytes. *)
Definition fullBufferResponse : list Z :=
  [0x01; 0x01; 0x03; 0xEC; 0x21; 0x12; 0xA4; 0x42;
   1; 2; 3; 4; 5; 6; 7; 8; 9; 10; 11; 12]
  ++ [0x00; 0x01; 0x03; 0xE0] ++ repeat 0 992
  ++ [0x00; 0x20; 0x00; 0x04; 0x00; 0x01; 0xA1; 0x47].

(** A network in which the first two STUN servers do not answer and the
    third one does, and one in which none answers. *)
Definition thirdAnswers (server : string) : result (string * Z) :=
  if String.eqb server "stun2.l.google.com:19302"
  then Ok ("203.0.113.7"%string, 40000)
  else Err "i/o timeout".

Definition nobodyAnswers (server : string) : result (string * Z) :=
  Err "i/o timeout".

Definition selfAddr : string := "10.0.0.1:8080".
Definition addrA : string := "10.0.0.2:8080".
Definition addrB : string := "10.0.0.3:8080".
Definition addrC : string := "10.0.0.4:8080".
Definition addrD : string := "10.0.0.5:8080".
Definition addrE : string := "10.0.0.6:8080".

(** A peer as its announcements describe it: the id is the address. *)
Definition peer (addr : string) (optOut : bool) : NodeInfo :=
  mkNodeInfo addr addr addr optOut.

Definition selfNode : NodeInfo := mkNodeInfo EmptyString selfAddr "me" false.

(** A table entry last heard of at time 0. *)
Definition entry (addr : string) (relay : bool) : SuperNodeInfo :=
  mkSuperNodeInfo (peer addr false) relay 0.

Definition manager (table : list SuperNodeInfo) (localIsRelay : bool)
  : SuperNodeManager :=
  mkSuperNodeManager Unlocked table selfNode sampleKey 8080 8081
    localIsRelay false true.

Definition session (members : list NodeInfo) (sm : SuperNodeManager)
  : Process :=
  mkProcess
    (mkP2PChat selfNode (mkRoomInfo "r1" members "key") sampleKey Unlocked
       true "10.0.0.1" 8080 sm) [].

(** One second after the table entries were last heard of. *)
Definition clock : Z := Second.

Definition hi : Message := mkMessage "r1" "A" "2026-01-10 12:00:00" "hi".

(** Stand-ins for encoding/json, enough to run a scenario: every message
    is written as the same three bytes, which read back as [hi]. *)
Definition demoMarshal (m : Message) : list Z := [104; 105; 33].
Definition demoUnmarshal (data : list Z) : string + Message := inr hi.

(** The frame that carries [hi]. *)
Definition hiFrame : list Z :=
  match encryptAES xorCipher (inr sampleIV) sampleKey (demoMarshal hi) with
  | Ok frame => frame
  | _ => []
  end.

(** A network on which every dial and every write succeeds, and one on
    which no dial succeeds. *)
Definition quietNet : Net :=
  mkNet (fun _ => None) (fun _ => None) (fun _ => inr sampleIV).

Definition deadNet : Net :=
  mkNet (fun _ => Some "i/o timeout"%string) (fun _ => None)
        (fun _ => inr sampleIV).

(** The scenario of the specification: self (Relay), A, B (Regular) and
    C (Relay). *)
Definition relayOfFour : Process :=
  session [peer selfAddr false; peer addrA false; peer addrB false;
           peer addrC false]
    (manager [entry addrA false; entry addrB false; entry addrC true] true).

(** The same with two more Regular members, D and E. *)
Definition relayOfSix : Process :=
  session [peer selfAddr false; peer addrA false; peer addrB false;
           peer addrC false; peer addrD false; peer addrE false]
    (manager [entry addrA false; entry addrB false; entry addrC true;
              entry addrD false; entry addrE false] true).

(** A Regular member of a room of six that knows the Relay C. *)
Definition regularOfSix : Process :=
  session [peer selfAddr false; peer addrA false; peer addrB false;
           peer addrC false; peer addrD false; peer addrE false]
    (manager [entry addrA false; entry addrB false; entry addrC true;
              entry addrD false; entry addrE false] false).

(** The room of a creator in which a peer announced itself under its own
    id and the creator's address. *)
Definition roomWithDouble : Process :=
  session [peer selfAddr false; mkNodeInfo addrA selfAddr "A" false]
    (manager [mkSuperNodeInfo (mkNodeInfo addrA selfAddr "A" false) false 0]
       false).

(** One Relay and three Regular peers, all heard of one second ago. *)
Definition oneRelayThreeRegular : SuperNodeManager :=
  manager [entry addrC true; entry addrA false; entry addrB false;
           entry addrD false] false.

(** A table with one peer that has opted out, on a local node that has
    opted out too. *)
Definition optedOut : SuperNodeManager :=
  mkSuperNodeManager Unlocked [mkSuperNodeInfo (peer addrA true) false 0]
    (mkNodeInfo EmptyString selfAddr "me" true) sampleKey 8080 8081
    false true true.

Definition capOfThree : Config := mkConfig 8080 8081 3 false.

(** Stand-ins for encoding/base64: the one key of the examples. *)
Definition demoDecode (password : string) : string + list Z := inr sampleKey.
Definition demoEncode (key : list Z) : string := "AQIDBAUGBwgJCgsMDQ4PEA==".

(** A client that has just been started. *)
Definition fresh (cfg : Config) : Process :=
  match NewP2PChat cfg "me" (Ok ("10.0.0.1"%string, 8080)) "10.0.0.1" with
  | Ok p => mkProcess p []
  | _ => session [] (manager [] false)
  end.

(** The client after the command that joins room r1: joined, listening. *)
Definition joined (cfg : Config) : Process :=
  final ((JoinRoom cfg demoDecode "r1" "AQIDBAUGBwgJCgsMDQ4PEA==" ;;;
          StartUDPBroadcast None) (fresh cfg)).

(** Announcements of four distinct peers. *)
Definition fourArrivals : list datagram :=
  [Announcement 1 (peer addrA false) "10.0.0.2:8081";
   Announcement 2 (peer addrB false) "10.0.0.3:8081";
   Announcement 3 (peer addrC false) "10.0.0.4:8081";
   Announcement 4 (peer addrD false) "10.0.0.5:8081"].

End Samples.

(* ================================================================== *)
(** ** More of the code: codecs, table calls, traces, commands *)
(* ================================================================== *)

Module StunCodec.
Import Stun.

(** Convert bytes to uint32 *)
Definition bytesToUint32 (b : slice) : result Z :=
  b0 <- index b 0 ;;
  b1 <- index b 1 ;;
  b2 <- index b 2 ;;
  b3 <- index b 3 ;;
  Ok (Z.lor (Z.lor (Z.lor (Z.shiftl b0 24 mod 2 ^ 32)
                          (Z.shiftl b1 16 mod 2 ^ 32))
                   (Z.shiftl b2 8 mod 2 ^ 32))
            b3).

(** The message that sendSTUNRequest serializes and writes: the header
    with the type STUNBindingRequest, the length 0, the magic cookie and
    the random transaction id. *)
Definition bindingRequest (transactionID : list Z) : list Z :=
  let msg := [] in
  let msg := msg ++ uint16ToBytes STUNBindingRequest in
  let msg := msg ++ uint16ToBytes 0 in
  let msg := msg ++ uint32ToBytes STUNMAGIC_COOKIE in
  msg ++ transactionID.

(** A binding response as a STUN server sends it, to run the parser on:
    the header (type, attribute length 12, then the sixteen bytes of
    cookie and transaction id) and one XOR-MAPPED-ADDRESS attribute for
    the IPv4 address [addr] and the port [port]. *)
Definition bindingResponse (cookieAndID addr : list Z) (port : Z) : list Z :=
  uint16ToBytes STUNBindingResponse ++ uint16ToBytes 12 ++ cookieAndID
    ++ uint16ToBytes 0x0020 ++ uint16ToBytes 8
    ++ [0; 0x01]
    ++ uint16ToBytes (Z.lxor port (Z.shiftr STUNMAGIC_COOKIE 16))
    ++ Crypto.xorBytes addr (uint32ToBytes STUNMAGIC_COOKIE).

End StunCodec.

Module Table.
Import SuperNode.

(** The test [sn.ID == nodeID] of the loops over the table. *)
Definition hasID (nodeID : string) (sn : SuperNodeInfo) : bool :=
  String.eqb (ID (Node sn)) nodeID.

(** The entry that AddNode leaves for the node it was called with: the
    announced fields, the time of the call, and the role the node had
    (none for a new node). *)
Definition entryAfterAdd (now : Z) (nodeInfo : NodeInfo) (l : list SuperNodeInfo)
  : SuperNodeInfo :=
  mkSuperNodeInfo nodeInfo
    match find (hasID (ID nodeInfo)) l with
    | Some old => IsSuperNode old
    | None => false
    end now.

(** A call of one of the four methods that write the table of nodes
    without electing anybody. *)
Inductive tableCall : Type :=
| CallAddNode (now : Z) (nodeInfo : NodeInfo)
| CallSetAsSuperNode (now : Z) (nodeID : string)
| CallRemoveNode (nodeID : string)
| CallUpdateNodeActivity (now : Z) (nodeID : string).

Definition call (c : tableCall) : SM unit :=
  match c with
  | CallAddNode now nodeInfo => AddNode now nodeInfo
  | CallSetAsSuperNode now nodeID => SetAsSuperNode now nodeID
  | CallRemoveNode nodeID => RemoveNode nodeID
  | CallUpdateNodeActivity now nodeID => UpdateNodeActivity now nodeID
  end.

(** The calls of a list, one after the other. *)
Fixpoint calls (cs : list tableCall) : SM unit :=
  match cs with
  | [] => ret tt
  | c :: cs' => call c ;;; calls cs'
  end.

End Table.

Module Traces.

(** The chat lines "[timestamp] sender: content" of a trace, in order. *)
Fixpoint shown (tr : list event) : list Message :=
  match tr with
  | [] => []
  | ShowMessage m :: tr' => m :: shown tr'
  | _ :: tr' => shown tr'
  end.

(** The frames of a trace, each with the address it was written to. *)
Fixpoint written (tr : list event) : list (string * list Z) :=
  match tr with
  | [] => []
  | Wrote addr frame :: tr' => (addr, frame) :: written tr'
  | _ :: tr' => written tr'
  end.

End Traces.

Module Discovery.
Import SuperNode Chat.

(** The test of StartUDPBroadcast that decides whether the goroutine
    broadcastNodeInfo is started: "If room creator". *)
Definition isRoomCreator (p : P2PChat) : bool :=
  (len (Nodes (Room p)) >? 0)
  && match hd_error (Nodes (Room p)) with
     | Some first => String.eqb (Address first) (Address (LocalNode p))
     | None => false
     end.

(** The NodeInfo that broadcastNodeInfo marshals at every tick. *)
Definition broadcastNodeInfo (p : P2PChat) : NodeInfo :=
  mkNodeInfo (Address (LocalNode p)) (Address (LocalNode p))
    (Nickname (LocalNode p)) false.

End Discovery.

Module Cli.
Import SuperNode Chat.

(** Generate random nickname.  The arguments are the three fields of
    AppConfig that the function reads, the two readings of
    [time.Now().UnixNano()] and what [rand.Int(rand.Reader, 100)]
    returned ([None] for the nil that comes with its error, which the
    function ignores and [%d] prints as "<nil>"). *)
Definition generateRandomNickname (defaultNickname : string)
           (defaultAdjectives defaultNouns : list string)
           (nano1 nano2 : Z) (num : option Z) : result string :=
  (* Use default nickname from config if specified *)
  if negb (String.eqb defaultNickname EmptyString) then Ok defaultNickname
  else
    if len defaultAdjectives =? 0
    then Panic "runtime error: integer divide by zero"
    else
      let i := Z.rem nano1 (len defaultAdjectives) in
      if i <? 0 then Panic "runtime error: index out of range"
      else
        let adj := nth (Z.to_nat i) defaultAdjectives EmptyString in
        if len defaultNouns =? 0
        then Panic "runtime error: integer divide by zero"
        else
          let j := Z.rem nano2 (len defaultNouns) in
          if j <? 0 then Panic "runtime error: index out of range"
          else
            let noun := nth (Z.to_nat j) defaultNouns EmptyString in
            (* Generate random number suffix *)
            let suffix := match num with
                          | Some n => itoa n
                          | None => "<nil>"%string
                          end in
            Ok (adj ++ noun ++ suffix)%string.

(** The text that the case "file" of RunCLI hands to SendMessage, for
    the name of the file and the base64 encoding of its content. *)
Definition fileMessage (name encodedData : string) : string :=
  let chunkSize := 100 in
  let chunkSize :=
    if Z.of_nat (String.length encodedData) <? chunkSize
    then Z.of_nat (String.length encodedData)
    else chunkSize in
  let fileMessage :=
    ("[File] " ++ name ++ ": "
       ++ substring 0 (Z.to_nat chunkSize) encodedData)%string in
  if Z.of_nat (String.length encodedData) >? chunkSize
  then (fileMessage ++ "...")%string
  else fileMessage.

Section Commands.

Variable cfg : Config.
Variable base64Encode : list Z -> string.
Variable base64Decode : string -> string + list Z.

(** Start TCP listener: what the caller sees.  [listenErr] is the error,
    if any, of resolving the address or of opening the listener. *)
Definition StartTCPListener (listenErr : option string) : PM (option string) :=
  match listenErr with
  | Some e => ret (Some e)
  | None =>
      emit [LogLine ("TCP listener started on port "
                       ++ itoa (TCPPort cfg))%string] ;;;
      ret None
  end.

(** The case "create" of RunCLI, for the fields [parts] of the input
    line. *)
Definition createCommand (rnd : string + list Z)
           (udpErr tcpErr : option string) (parts : list string) : PM unit :=
  if len parts <? 2 then emit [LogLine "Usage: /create [room ID]"]
  else
    p <~ gets client ;;
    if negb (String.eqb (RoomId (Room p)) EmptyString)
    then emit [LogLine "You are already in a room!"]
    else
      let roomID := nth 1 parts EmptyString in
      err <~ CreateRoom cfg base64Encode rnd roomID ;;
      match err with
      | Some e => emit [LogLine ("Failed to create room: " ++ e)%string]
      | None =>
          (* Start UDP and TCP services *)
          err <~ StartUDPBroadcast udpErr ;;
          match err with
          | Some e =>
              emit [LogLine ("Failed to start UDP broadcast: " ++ e)%string]
          | None =>
              err <~ StartTCPListener tcpErr ;;
              match err with
              | Some e =>
                  emit [LogLine ("Failed to start TCP listener: " ++ e)%string]
              | None =>
                  emit [LogLine ("Room " ++ roomID
                                   ++ " created, listening for connections...")%string]
              end
          end
      end.

(** The case "join" of RunCLI. *)
Definition joinCommand (udpErr tcpErr : option string) (parts : list string)
  : PM unit :=
  if len parts <? 3 then emit [LogLine "Usage: /join [room ID] [room key]"]
  else
    p <~ gets client ;;
    if negb (String.eqb (RoomId (Room p)) EmptyString)
    then emit [LogLine "You are already in a room!"]
    else
      let roomID := nth 1 parts EmptyString in
      let password := nth 2 parts EmptyString in
      err <~ JoinRoom cfg base64Decode roomID password ;;
      match err with
      | Some e => emit [LogLine ("Failed to join room: " ++ e)%string]
      | None =>
          (* Start UDP and TCP services *)
          err <~ StartUDPBroadcast udpErr ;;
          match err with
          | Some e =>
              emit [LogLine ("Failed to start UDP broadcast: " ++ e)%string]
          | None =>
              err <~ StartTCPListener tcpErr ;;
              match err with
              | Some e =>
                  emit [LogLine ("Failed to start TCP listener: " ++ e)%string]
              | None =>
                  emit [LogLine ("Successfully joined room " ++ roomID
                                   ++ ", listening for connections...")%string]
              end
          end
      end.

End Commands.

End Cli.

Module MoreSamples.
Import Crypto Stun StunCodec SuperNode Chat Table Samples.

(** An exchange with a STUN server in which every step succeeds and the
    server answers with [datagram]. *)
Definition answered (datagram : list Z) : Exchange :=
  mkExchange None None None None (inr datagram).

(** A well-formed answer: the address 203.0.113.7, the port 40000. *)
Definition goodResponse : list Z :=
  bindingResponse (uint32ToBytes STUNMAGIC_COOKIE ++ repeat 7 12)
    [203; 0; 113; 7] 40000.

(** Servers that all answer with the response cut after its port. *)
Definition truncatedAnswers (server : string) : Exchange :=
  answered truncatedResponse.

(** A network in which the first STUN server does not answer and every
    other one answers with the datagram that fills the buffer and ends
    with a truncated attribute. *)
Definition fullBufferAnswers (server : string) : Exchange :=
  if String.eqb server "stun.l.google.com:19302"
  then mkExchange None None None None (inl "i/o timeout"%string)
  else answered fullBufferResponse.

(** A peer announces itself, is promoted, is heard of again, leaves. *)
Definition sampleCalls : list tableCall :=
  [CallAddNode 1 (peer addrA false); CallAddNode 2 (peer addrB true);
   CallSetAsSuperNode 3 addrA; CallAddNode 4 (peer addrA true);
   CallUpdateNodeActivity 5 addrB; CallRemoveNode addrB].

(** Announcements heard by a client: two peers, one of them twice, and
    the client's own address. *)
Definition mixedArrivals : list datagram :=
  [Announcement 1 (peer addrA false) "10.0.0.2:8081";
   ReadFailed "i/o timeout";
   Announcement 2 (peer addrA false) "10.0.0.2:8081";
   Undecodable;
   Announcement 3 (peer selfAddr false) "10.0.0.1:8081";
   Announcement 4 (peer addrB false) "10.0.0.3:8081"].

(** Word lists as the configuration file gives them. *)
Definition sampleAdjectives : list string := ["Cool"; "Smart"]%string.
Definition sampleNouns : list string := ["Tiger"; "Eagle"; "Wolf"]%string.

(** The first hundred characters of the base64 encoding of a file. *)
Definition hundredCharacters : string :=
  "QUJDREVGR0hJSktMTU5PUFFSU1RVVldYWVphYmNkZWZnaGlqa2xtbm9wcXJzdHV2d3h5ejAxMjM0NTY3ODlBQkNERUZHSElKS0xN".

End MoreSamples.

(* ================================================================== *)
(** ** Properties of the codec *)
(* ================================================================== *)

Module CryptoFacts.
Import Crypto Samples.

Lemma lxor_is_byte a b : is_byte a -> is_byte b -> is_byte (Z.lxor a b).
Proof.
  unfold is_byte. intros [Ha Ha'] [Hb Hb']. split.
  - apply Z.lxor_nonneg. tauto.
  - destruct (Z.eq_dec (Z.lxor a b) 0) as [->|Hn]; [lia|].
    assert (0 < Z.lxor a b) by (assert (0 <= Z.lxor a b) by (apply Z.lxor_nonneg; tauto); lia).
    change 256 with (2 ^ 8). apply Z.log2_lt_pow2; [lia|].
    pose proof (Z.log2_lxor a b Ha Hb).
    assert (Z.log2 a < 8).
    { destruct (Z.eq_dec a 0) as [->|]; [reflexivity|]. apply Z.log2_lt_pow2; lia. }
    assert (Z.log2 b < 8).
    { destruct (Z.eq_dec b 0) as [->|]; [reflexivity|]. apply Z.log2_lt_pow2; lia. }
    lia.
Qed.

Lemma xorBytes_length a : forall b, length (xorBytes a b) = Nat.min (length a) (length b).
Proof. induction a as [|x a IH]; intros [|y b]; simpl; auto. Qed.

Lemma xorBytes_bytes a : forall b, bytes a -> bytes b -> bytes (xorBytes a b).
Proof.
  induction a as [|x a IH]; intros [|y b] Ha Hb; simpl; try constructor.
  - inversion Ha; inversion Hb; subst. now apply lxor_is_byte.
  - inversion Ha; inversion Hb; subst. now apply IH.
Qed.

Lemma xorBytes_involutive a : forall b, (length a <= length b)%nat -> xorBytes (xorBytes a b) b = a.
Proof.
  induction a as [|x a IH]; intros [|y b] H; simpl in *; try reflexivity; try lia.
  rewrite Z.lxor_assoc, Z.lxor_nilpotent, Z.lxor_0_r. f_equal. apply IH. lia.
Qed.


Lemma bytes_app a b : bytes (a ++ b) <-> bytes a /\ bytes b.
Proof. apply Forall_app. Qed.

Lemma bytes_firstn n l : bytes l -> bytes (firstn n l).
Proof. intros H. rewrite <- (firstn_skipn n l) in H. now apply bytes_app in H. Qed.

Lemma bytes_skipn n l : bytes l -> bytes (skipn n l).
Proof. intros H. rewrite <- (firstn_skipn n l) in H. now apply bytes_app in H. Qed.

Lemma bytes_repeat b n : is_byte b -> bytes (repeat b n).
Proof. intros H. induction n; simpl; constructor; auto. Qed.

Lemma len_app {A} (a b : list A) : len (a ++ b) = len a + len b.
Proof. unfold len. rewrite length_app. lia. Qed.

Lemma len_nonneg {A} (a : list A) : 0 <= len a.
Proof. unfold len. lia. Qed.

Lemma padLength_range data : 1 <= padLength data <= 16.
Proof. unfold padLength. pose proof (Z.mod_pos_bound (len data) 16). lia. Qed.

Lemma pkcs7Pad_16 data :
  pkcs7Pad data BlockSize
  = Ok (data ++ repeat (padLength data) (Z.to_nat (padLength data))).
Proof.
  unfold pkcs7Pad, BlockSize. simpl (16 =? 0).
  rewrite Z.rem_mod_nonneg by (pose proof (len_nonneg data); lia).
  fold (padLength data). pose proof (padLength_range data) as H.
  destruct (padLength data <? 0) eqn:E; [lia|].
  unfold byte. rewrite Z.mod_small by lia. reflexivity.
Qed.

Lemma padded_length data :
  len (data ++ repeat (padLength data) (Z.to_nat (padLength data)))
  = 16 * (len data / 16 + 1).
Proof.
  rewrite len_app. unfold len at 2. rewrite repeat_length.
  pose proof (padLength_range data). rewrite Z2Nat.id by lia.
  unfold padLength. pose proof (Z.div_mod (len data) 16). lia.
Qed.

Lemma paddingMatches_repeat p n : 0 <= p < 256 -> paddingMatches (repeat p n) p = true.
Proof.
  intros H. induction n; simpl; auto. unfold byte. rewrite Z.mod_small by lia.
  now rewrite Z.eqb_refl.
Qed.

Lemma pkcs7Unpad_padded data p :
  1 <= p <= 16 ->
  pkcs7Unpad (data ++ repeat p (Z.to_nat p)) BlockSize = Ok data.
Proof.
  intros Hp. unfold pkcs7Unpad, BlockSize.
  assert (Hl : len (data ++ repeat p (Z.to_nat p)) = len data + p).
  { rewrite len_app. unfold len at 2. rewrite repeat_length. lia. }
  rewrite Hl. pose proof (len_nonneg data).
  destruct (len data + p =? 0) eqn:E; [lia|].
  assert (Hn : nth (length (data ++ repeat p (Z.to_nat p)) - 1)
                 (data ++ repeat p (Z.to_nat p)) 0 = p).
  { rewrite length_app, repeat_length.
    rewrite app_nth2 by lia.
    replace (length data + Z.to_nat p - 1 - length data)%nat with (Z.to_nat p - 1)%nat by lia.
    apply nth_repeat_lt. lia. }
  rewrite Hn.
  replace (p >? 16) with false by lia. replace (p =? 0) with false by lia. simpl.
  replace (len data + p - p) with (len data) by lia.
  replace (len data <? 0) with false by lia.
  unfold len. rewrite Nat2Z.id.
  rewrite skipn_app, skipn_all, Nat.sub_diag. simpl.
  rewrite paddingMatches_repeat by lia.
  rewrite firstn_app, firstn_all, Nat.sub_diag. simpl. now rewrite app_nil_r.
Qed.

Lemma firstn_app_exact {A} n (a b : list A) : length a = n -> firstn n (a ++ b) = a.
Proof.
  intros <-. rewrite firstn_app, Nat.sub_diag, firstn_all. cbn [firstn].
  apply app_nil_r.
Qed.

Lemma skipn_app_exact {A} n (a b : list A) : length a = n -> skipn n (a ++ b) = b.
Proof.
  intros <-. rewrite skipn_app, Nat.sub_diag, skipn_all. reflexivity.
Qed.

Section AES.

Variable aesEncryptBlock aesDecryptBlock : list Z -> list Z -> list Z.
Hypothesis enc_block : cipher_keeps_blocks aesEncryptBlock.
Hypothesis dec_block : cipher_keeps_blocks aesDecryptBlock.
Hypothesis dec_enc : cipher_inverts aesEncryptBlock aesDecryptBlock.

Lemma cbcEncryptBlocks_blocks k : bytes k -> key_size_ok k = true ->
  forall n prev src, is_block prev -> bytes src -> length src = (16 * n)%nat ->
    bytes (cbcEncryptBlocks aesEncryptBlock k prev src n)
    /\ length (cbcEncryptBlocks aesEncryptBlock k prev src n) = (16 * n)%nat.
Proof.
  intros Hk Hs. induction n as [|n IH]; intros prev src Hp Hb Hl;
    cbn [cbcEncryptBlocks cbcDecryptBlocks].
  - split; [constructor|reflexivity].
  - assert (Hx : is_block (xorBytes (firstn 16 src) prev)).
    { destruct Hp as [Hp1 Hp2]. split.
      - apply xorBytes_bytes; auto using bytes_firstn.
      - rewrite xorBytes_length, length_firstn. lia. }
    pose proof (enc_block k _ Hk Hs Hx) as Hc.
    destruct (IH (aesEncryptBlock k (xorBytes (firstn 16 src) prev)) (skipn 16 src)) as [I1 I2]; auto using bytes_skipn.
    { rewrite length_skipn. lia. }
    split.
    + apply bytes_app. split; [apply Hc | exact I1].
    + rewrite length_app, I2. destruct Hc as [_ ->]. lia.
Qed.

Lemma cbc_roundtrip k : bytes k -> key_size_ok k = true ->
  forall n prev src, is_block prev -> bytes src -> length src = (16 * n)%nat ->
    cbcDecryptBlocks aesDecryptBlock k prev
      (cbcEncryptBlocks aesEncryptBlock k prev src n) n = src.
Proof.
  intros Hk Hs. induction n as [|n IH]; intros prev src Hp Hb Hl;
    cbn [cbcEncryptBlocks cbcDecryptBlocks].
  - destruct src; [reflexivity|discriminate].
  - assert (Hx : is_block (xorBytes (firstn 16 src) prev)).
    { destruct Hp as [Hp1 Hp2]. split.
      - apply xorBytes_bytes; auto using bytes_firstn.
      - rewrite xorBytes_length, length_firstn. lia. }
    pose proof (enc_block k _ Hk Hs Hx) as Hc.
    set (c := aesEncryptBlock k (xorBytes (firstn 16 src) prev)) in *.
    assert (Hf : firstn 16 (c ++ cbcEncryptBlocks aesEncryptBlock k c (skipn 16 src) n) = c).
    { apply firstn_app_exact, Hc. }
    assert (Hsk : skipn 16 (c ++ cbcEncryptBlocks aesEncryptBlock k c (skipn 16 src) n)
                  = cbcEncryptBlocks aesEncryptBlock k c (skipn 16 src) n).
    { apply skipn_app_exact, Hc. }
    rewrite Hf, Hsk. unfold c at 1. rewrite dec_enc by assumption.
    rewrite xorBytes_involutive.
    2:{ rewrite length_firstn. destruct Hp as [_ ->]. lia. }
    rewrite IH; auto using bytes_skipn.
    + apply firstn_skipn.
    + rewrite length_skipn. lia.
Qed.

Lemma key16_ok k : length k = 16%nat -> key_size_ok k = true.
Proof. intros H. unfold key_size_ok, len. rewrite H. reflexivity. Qed.

Lemma cbcDecryptBlocks_blocks k : bytes k -> key_size_ok k = true ->
  forall n prev src, is_block prev -> bytes src -> length src = (16 * n)%nat ->
    length (cbcDecryptBlocks aesDecryptBlock k prev src n) = (16 * n)%nat.
Proof.
  intros Hk Hs. induction n as [|n IH]; intros prev src Hp Hb Hl;
    cbn [cbcDecryptBlocks]; [reflexivity|].
  assert (Hc : is_block (firstn 16 src)).
  { split; [now apply bytes_firstn | rewrite length_firstn; lia]. }
  pose proof (dec_block k _ Hk Hs Hc) as [_ Hd].
  rewrite length_app, xorBytes_length, Hd, IH; auto using bytes_skipn.
  - destruct Hp as [_ ->]. lia.
  - rewrite length_skipn. lia.
Qed.

(** Claim C1.  For every 16-byte key [k], every byte sequence [p] (of
    any length, so in particular of length 0 to 1000) and every value
    [iv] of the random 16-byte IV, encryptAES succeeds and decryptAES
    gives back exactly [p]. *)
Theorem decryptAES_encryptAES_roundtrip (k iv p : list Z) :
  bytes k -> length k = 16%nat ->
  bytes iv -> length iv = 16%nat ->
  bytes p ->
  exists c, encryptAES aesEncryptBlock (inr iv) k p = Ok c
            /\ decryptAES aesDecryptBlock k c = Ok p.
Proof.
  intros Hk Hk16 Hiv Hiv16 Hp.
  pose proof (key16_ok k Hk16) as Hs.
  pose proof (padLength_range p) as Hpad.
  set (padded := p ++ repeat (padLength p) (Z.to_nat (padLength p))).
  set (n := Z.to_nat (len p / 16 + 1)).
  assert (Hdiv : 0 <= len p / 16) by (apply Z.div_pos; [apply len_nonneg | lia]).
  assert (Hlen : length padded = (16 * n)%nat).
  { pose proof (padded_length p) as H. fold padded in H. unfold n. unfold len in *. lia. }
  assert (Hbytes : bytes padded).
  { apply bytes_app. split; [assumption|]. apply bytes_repeat. unfold is_byte. lia. }
  assert (Hblock : is_block iv) by (split; assumption).
  destruct (cbcEncryptBlocks_blocks k Hk Hs n iv padded Hblock Hbytes Hlen) as [Hcb Hcl].
  exists (iv ++ cbcEncryptBlocks aesEncryptBlock k iv padded n). split.
  - unfold encryptAES, NewCipher. rewrite Hs. cbn [bind].
    rewrite pkcs7Pad_16. cbn [bind]. fold padded.
    unfold CryptBlocks, BlockSize, len. rewrite Hiv16, Hlen. cbn [Z.of_nat Pos.of_succ_nat Pos.succ Z.eqb Pos.eqb negb].
    replace (Z.rem (Z.of_nat (16 * n)) 16) with 0.
    2:{ rewrite Nat2Z.inj_mul. symmetry. rewrite Z.mul_comm. apply Z.rem_mul. discriminate. }
    cbn [Z.eqb negb bind].
    replace (Z.to_nat (Z.of_nat (16 * n) / 16)) with n.
    2:{ rewrite Nat2Z.inj_mul, Z.mul_comm, Z.div_mul by discriminate. now rewrite Nat2Z.id. }
    reflexivity.
  - unfold decryptAES, NewCipher. rewrite Hs. cbn [bind].
    rewrite len_app. unfold BlockSize, len at 1 2. rewrite Hiv16, Hcl.
    destruct (Z.ltb_spec (Z.of_nat 16 + Z.of_nat (16 * n)) 16) as [E|E]; [clear - E; lia|].
    rewrite (firstn_app_exact 16 iv) by assumption.
    rewrite (skipn_app_exact 16 iv) by assumption.
    unfold CryptBlocks, BlockSize, len. rewrite Hiv16, Hcl.
    replace (Z.rem (Z.of_nat (16 * n)) 16) with 0.
    2:{ rewrite Nat2Z.inj_mul. symmetry. rewrite Z.mul_comm. apply Z.rem_mul. discriminate. }
    cbn [Z.of_nat Pos.of_succ_nat Pos.succ Z.eqb Pos.eqb negb bind].
    replace (Z.to_nat (Z.of_nat (16 * n) / 16)) with n.
    2:{ rewrite Nat2Z.inj_mul, Z.mul_comm, Z.div_mul by discriminate. now rewrite Nat2Z.id. }
    rewrite (cbc_roundtrip k Hk Hs n iv padded Hblock Hbytes Hlen).
    unfold padded. apply pkcs7Unpad_padded. exact Hpad.
Qed.

Lemma paddingMatches_false l p :
  (exists j, (j < length l)%nat /\ nth j l 0 <> byte p) ->
  paddingMatches l p = false.
Proof.
  induction l as [|x l IH]; intros [j [Hj Hn]]; simpl in *; [lia|].
  destruct (Z.eqb_spec x (byte p)) as [->|]; [|reflexivity].
  destruct j; [congruence|]. apply IH. exists j. split; [lia|assumption].
Qed.

Lemma decryptAES_unpads (k b : list Z) :
  bytes k -> length k = 16%nat -> 16 <= len b -> (len b - 16) mod 16 = 0 ->
  decryptAES aesDecryptBlock k b = pkcs7Unpad (cbcPlaintext aesDecryptBlock k b) BlockSize.
Proof.
  intros Hk Hk16 Hlen Hmod. pose proof (key16_ok k Hk16) as Hs.
  unfold decryptAES, NewCipher. rewrite Hs. cbn [bind].
  unfold BlockSize. destruct (Z.ltb_spec (len b) 16) as [E|_]; [lia|].
  assert (Hct : len (skipn 16 b) = len b - 16).
  { unfold len in *. rewrite length_skipn. lia. }
  assert (Hrem : Z.rem (len (skipn 16 b)) 16 = 0).
  { rewrite Hct, Z.rem_mod_nonneg by lia. exact Hmod. }
  rewrite Hrem. cbn [Z.eqb negb].
  unfold CryptBlocks, BlockSize. rewrite Hrem.
  assert (Hiv : len (firstn 16 b) = 16).
  { unfold len in *. rewrite length_firstn. lia. }
  rewrite Hiv. cbn [Z.eqb Pos.eqb negb bind]. reflexivity.
Qed.

(** Claim C5.  Under a 16-byte key, decryptAES fails with the error
    "ciphertext too short" on a blob of fewer than 16 bytes and with
    "ciphertext length not multiple of block size" when the bytes after
    the IV are not a whole number of blocks (the two InvalidInput cases);
    and it fails with "invalid padding" (BadPadding) when the last byte of
    the CBC plaintext is 0, or exceeds 16, or differs from one of the
    bytes in the padding positions that it announces. *)
Theorem decryptAES_rejects (k b : list Z) :
  bytes k -> length k = 16%nat -> bytes b ->
  (len b < 16 -> decryptAES aesDecryptBlock k b = Err "ciphertext too short")
  /\ (16 <= len b -> (len b - 16) mod 16 <> 0 ->
      decryptAES aesDecryptBlock k b
      = Err "ciphertext length not multiple of block size")
  /\ (16 < len b -> (len b - 16) mod 16 = 0 ->
      let plaintext := cbcPlaintext aesDecryptBlock k b in
      let final := nth (length plaintext - 1) plaintext 0 in
      final = 0 \/ 16 < final
      \/ (exists i, len plaintext - final <= Z.of_nat i < len plaintext
                    /\ nth i plaintext 0 <> final) ->
      decryptAES aesDecryptBlock k b = Err "invalid padding").
Proof.
  intros Hk Hk16 Hb. pose proof (key16_ok k Hk16) as Hs.
  split; [|split].
  - intros Hlen. unfold decryptAES, NewCipher. rewrite Hs. cbn [bind].
    unfold BlockSize. destruct (Z.ltb_spec (len b) 16); [reflexivity|lia].
  - intros Hlen Hmod. unfold decryptAES, NewCipher. rewrite Hs. cbn [bind].
    unfold BlockSize. destruct (Z.ltb_spec (len b) 16) as [E|_]; [lia|].
    assert (Hct : len (skipn 16 b) = len b - 16).
    { unfold len in *. rewrite length_skipn. lia. }
    rewrite Hct, Z.rem_mod_nonneg by lia.
    destruct (Z.eqb_spec ((len b - 16) mod 16) 0); [contradiction|reflexivity].
  - intros Hlen Hmod plaintext final Hbad.
    rewrite decryptAES_unpads by (assumption || lia). fold plaintext.
    (* the plaintext is as long as the ciphertext *)
    assert (Hct : len (skipn 16 b) = len b - 16).
    { unfold len in *. rewrite length_skipn. lia. }
    set (n := Z.to_nat (len (skipn 16 b) / BlockSize)).
    assert (Hn : len (skipn 16 b) = 16 * Z.of_nat n).
    { unfold n, BlockSize. rewrite Hct.
      pose proof (Z.div_mod (len b - 16) 16).
      assert (0 <= (len b - 16) / 16) by (apply Z.div_pos; lia).
      rewrite Z2Nat.id; lia. }
    assert (Hpl : length plaintext = (16 * n)%nat).
    { apply cbcDecryptBlocks_blocks; auto using bytes_skipn.
      - split; [now apply bytes_firstn|]. rewrite length_firstn.
        unfold len in Hlen. lia.
      - unfold len in Hn. lia. }
    assert (Hpos : 16 <= len plaintext).
    { unfold len in *. lia. }
    unfold pkcs7Unpad, BlockSize. fold final.
    destruct (Z.eqb_spec (len plaintext) 0) as [E|_]; [lia|].
    destruct (Z.gtb_spec final 16) as [|Hle]; [reflexivity|].
    destruct (Z.eqb_spec final 0) as [|Hnz]; [reflexivity|]. cbn [orb].
    destruct Hbad as [?|[?|[i [Hi Hne]]]]; [contradiction|lia|].
    destruct (Z.ltb_spec (len plaintext - final) 0) as [|_]; [lia|].
    assert (1 <= final) by lia.
    rewrite paddingMatches_false; [reflexivity|].
    exists (i - Z.to_nat (len plaintext - final))%nat. split.
    + rewrite length_skipn. unfold len in *. lia.
    + rewrite nth_skipn.
      replace (Z.to_nat (len plaintext - final)
               + (i - Z.to_nat (len plaintext - final)))%nat with i by lia.
      unfold byte. rewrite Z.mod_small by lia. exact Hne.
Qed.

End AES.

Lemma key_ok_length k : key_size_ok k = true -> (16 <= length k)%nat.
Proof.
  unfold key_size_ok, len. intros H.
  apply orb_true_iff in H as [H|H]; [apply orb_true_iff in H as [H|H]|];
    apply Z.eqb_eq in H; lia.
Qed.

Lemma xorCipher_blocks : cipher_keeps_blocks xorCipher.
Proof.
  intros k b Hk Hs [Hb Hl]. apply key_ok_length in Hs. split.
  - apply xorBytes_bytes; auto using bytes_firstn.
  - unfold xorCipher. rewrite xorBytes_length, length_firstn. lia.
Qed.

Lemma xorCipher_inverts : cipher_inverts xorCipher xorCipher.
Proof.
  intros k b Hk Hs [Hb Hl]. apply key_ok_length in Hs.
  apply xorBytes_involutive. rewrite length_firstn. lia.
Qed.

Lemma bytes_dec_true l :
  forallb (fun b => (0 <=? b) && (b <? 256)) l = true -> bytes l.
Proof.
  intros H. apply Forall_forall. intros x Hx.
  rewrite forallb_forall in H. specialize (H x Hx).
  apply andb_true_iff in H as [H1 H2]. unfold is_byte. lia.
Qed.

(** A blob of exactly one block, the IV alone, carries no padding byte
    at all: pkcs7Unpad reports empty data. *)
Lemma decryptAES_of_bare_IV aesDecryptBlock (k b : list Z) :
  length k = 16%nat -> length b = 16%nat ->
  decryptAES aesDecryptBlock k b = Err "data is empty".
Proof.
  intros Hk Hb. unfold decryptAES, NewCipher. rewrite (key16_ok k Hk).
  cbn [bind]. unfold BlockSize, CryptBlocks, len.
  rewrite length_skipn, length_firstn, Hb. reflexivity.
Qed.

Lemma decryptAES_encryptAES_roundtrip_witness :
  exists c, encryptAES xorCipher (inr sampleIV) sampleKey [104; 105] = Ok c
            /\ decryptAES xorCipher sampleKey c = Ok [104; 105].
Proof.
  apply (decryptAES_encryptAES_roundtrip xorCipher xorCipher xorCipher_blocks
           xorCipher_inverts sampleKey sampleIV [104; 105]);
    try reflexivity; apply bytes_dec_true; reflexivity.
Defined.

Lemma decryptAES_rejects_witness :
  decryptAES xorCipher sampleKey [1; 2; 3] = Err "ciphertext too short"
  /\ decryptAES xorCipher sampleKey (sampleIV ++ [1; 2; 3])
     = Err "ciphertext length not multiple of block size"
  /\ decryptAES xorCipher sampleKey (sampleIV ++ sampleKey)
     = Err "invalid padding".
Proof.
  assert (Hk : bytes sampleKey) by (apply bytes_dec_true; reflexivity).
  split; [|split].
  - destruct (decryptAES_rejects xorCipher xorCipher_blocks sampleKey
                [1; 2; 3] Hk eq_refl) as (H & _ & _).
    + apply bytes_dec_true. reflexivity.
    + apply H. vm_compute. reflexivity.
  - destruct (decryptAES_rejects xorCipher xorCipher_blocks sampleKey
                (sampleIV ++ [1; 2; 3]) Hk eq_refl) as (_ & H & _).
    + apply bytes_dec_true. reflexivity.
    + apply H; vm_compute; discriminate.
  - destruct (decryptAES_rejects xorCipher xorCipher_blocks sampleKey
                (sampleIV ++ sampleKey) Hk eq_refl) as (_ & _ & H).
    + apply bytes_dec_true. reflexivity.
    + apply H; [vm_compute; reflexivity | vm_compute; reflexivity |].
      right. right. exists 14%nat. vm_compute.
      split; [split; [discriminate|reflexivity]|discriminate].
Defined.

End CryptoFacts.

(* ================================================================== *)
(** ** Properties of the NAT resolver *)
(* ================================================================== *)

Module StunFacts.
Import Stun Samples.
Import CryptoFacts.

Lemma reslice_bytes s lo hi t :
  backed s -> reslice s lo hi = Ok t -> bytes (elems t).
Proof.
  unfold reslice, backed. intros Hb.
  destruct ((lo <? 0) || (hi <? lo) || (cap s <? hi)); [discriminate|].
  intros [= <-]. cbn. auto using bytes_firstn, bytes_skipn.
Qed.

Lemma index_byte s i v : bytes (elems s) -> index s i = Ok v -> is_byte v.
Proof.
  unfold index. intros Hb.
  destruct (Z.ltb_spec i 0); [discriminate|].
  destruct (Z.leb_spec (len (elems s)) i); [discriminate|]. cbn.
  intros [= <-]. unfold bytes in Hb. rewrite Forall_forall in Hb.
  apply Hb, nth_In. unfold len in *. lia.
Qed.

Lemma bytesToUint16_nonneg b v :
  bytes (elems b) -> bytesToUint16 b = Ok v -> 0 <= v.
Proof.
  unfold bytesToUint16. intros Hb.
  destruct (index b 0) as [b0| |] eqn:E0; try discriminate.
  destruct (index b 1) as [b1| |] eqn:E1; try discriminate. cbn.
  intros [= <-]. apply (index_byte _ _ _ Hb) in E1.
  apply Z.lor_nonneg. split; [apply Z.mod_pos_bound; lia | apply E1].
Qed.

Lemma attributeTurn_advances data s e ip port s' ip' port' :
  backed data ->
  attributeTurn data s e ip port = Ok (Next s' ip' port') -> s + 4 <= s'.
Proof.
  intros Hb. unfold attributeTurn.
  destruct (negb (s <? e)); [discriminate|].
  destruct (s + 4 >? e); [discriminate|].
  destruct (reslice data s (s + 2)) as [tb| |]; try discriminate. cbn [bind].
  destruct (bytesToUint16 tb) as [ty| |]; try discriminate. cbn [bind].
  destruct (reslice data (s + 2) (s + 4)) as [lb| |] eqn:El; try discriminate.
  cbn [bind].
  destruct (bytesToUint16 lb) as [al| |] eqn:Ea; try discriminate. cbn [bind].
  pose proof (bytesToUint16_nonneg _ _ (reslice_bytes _ _ _ _ Hb El) Ea) as Hal.
  destruct (s + 4 + al >? e); [discriminate|].
  destruct (reslice data (s + 4) (s + 4 + al)) as [av| |]; try discriminate.
  cbn [bind].
  destruct (if ty =? 32 then xorMappedAddress av ip port else Ok (ip, port))
    as [found| |]; try discriminate. cbn [bind].
  pose proof (Z.rem_bound_pos al 4 Hal ltac:(lia)) as Hr.
  remember (4 - Z.rem al 4) as d eqn:Hd.
  destruct (negb (Z.rem al 4 =? 0)); intros [= <- _ _]; lia.
Qed.

(** The attribute loop does not depend on its fuel once the fuel covers
    the distance to [attrsEnd]. *)
Lemma parseAttributes_fuel data e : backed data ->
  forall fuel s ip port,
    e - s <= Z.of_nat fuel ->
    parseAttributes (S fuel) data s e ip port
    = parseAttributes fuel data s e ip port.
Proof.
  intros Hb. induction fuel as [|fuel IH]; intros s ip port Hd.
  - cbn [parseAttributes]. unfold attributeTurn.
    destruct (Z.ltb_spec s e); [lia|]. reflexivity.
  - change (parseAttributes (S (S fuel)) data s e ip port)
      with (t <- attributeTurn data s e ip port ;;
            match t with
            | Leave => Ok (ip, port)
            | Next s' ip' port' => parseAttributes (S fuel) data s' e ip' port'
            end).
    cbn [parseAttributes].
    destruct (attributeTurn data s e ip port) as [[|s' ip' port']| |] eqn:E;
      cbn [bind]; try reflexivity.
    apply attributeTurn_advances in E; [|assumption].
    apply IH. lia.
Qed.

(** A datagram shorter than the header, and one whose type is not the
    binding response, are refused with an error. *)
Lemma parseSTUNResponse_short data :
  len (elems data) < STUNHeaderLength ->
  parseSTUNResponse data = Err "response data too short".
Proof.
  intros H. unfold parseSTUNResponse.
  destruct (Z.ltb_spec (len (elems data)) STUNHeaderLength); [reflexivity|lia].
Qed.

Lemma parseSTUNResponse_wrong_type b0 b1 rest spare :
  STUNHeaderLength <= len (b0 :: b1 :: rest) ->
  Z.lor (Z.shiftl b0 8 mod 65536) b1 <> STUNBindingResponse ->
  parseSTUNResponse (mkSlice (b0 :: b1 :: rest) spare)
  = Err "invalid STUN response type".
Proof.
  intros Hl Ht. unfold parseSTUNResponse. cbn [elems].
  destruct (Z.ltb_spec (len (b0 :: b1 :: rest)) STUNHeaderLength); [lia|].
  assert (Hr : reslice (mkSlice (b0 :: b1 :: rest) spare) 0 2
               = Ok (mkSlice [b0; b1] (rest ++ spare))).
  { unfold reslice, cap. cbn [elems Go.spare].
    replace ((0 <? 0) || (2 <? 0)
             || (len (b0 :: b1 :: rest) + len spare <? 2)) with false.
    - reflexivity.
    - symmetry. unfold len in *. cbn [length] in *.
      destruct (Z.ltb_spec
                  (Z.of_nat (S (S (length rest))) + Z.of_nat (length spare)) 2);
        [lia|reflexivity]. }
  rewrite Hr. cbn [bind].
  change (bytesToUint16 (mkSlice [b0; b1] (rest ++ spare)))
    with (Ok (Z.lor (Z.shiftl b0 8 mod 65536) b1)).
  cbn [bind].
  destruct (Z.eqb_spec (Z.lor (Z.shiftl b0 8 mod 65536) b1) STUNBindingResponse);
    [contradiction|reflexivity].
Qed.

(** Claim C2 (the code does otherwise).  On a binding response whose
    XOR-MAPPED-ADDRESS attribute holds only the four bytes of family and
    port, parseSTUNResponse reads the four address bytes behind the
    attribute: it panics when the slice ends there; inside
    sendSTUNRequest, whose buffer has 1024 bytes, it takes them from the
    zero bytes behind the datagram and returns an address instead of
    "mapped address not found"; and it panics there too when the
    truncated attribute ends a datagram that fills the buffer. *)
Theorem parseSTUNResponse_truncated_attribute :
  parseSTUNResponse (exact truncatedResponse)
  = Panic "runtime error: slice bounds out of range"
  /\ sendSTUNRequest (mkExchange None None None None (inr truncatedResponse))
     = Ok ("33.18.164.66"%string, 32853)
  /\ sendSTUNRequest (mkExchange None None None None (inr fullBufferResponse))
     = Panic "runtime error: slice bounds out of range".
Proof. repeat split; vm_compute; reflexivity. Qed.

Lemma tryServers_never_errors send servers e :
  tryServers send servers <> Err e.
Proof.
  induction servers as [|s l IH]; cbn; [discriminate|].
  destruct (send s); [discriminate|exact IH|discriminate].
Qed.

Lemma tryServers_first send before server after found :
  (forall s, In s before -> exists e, send s = Err e) ->
  send server = Ok found ->
  tryServers send (before ++ server :: after) = Ok (Some found).
Proof.
  intros Hfail Hok. induction before as [|s l IH]; cbn.
  - now rewrite Hok.
  - destruct (Hfail s (or_introl eq_refl)) as [e ->].
    apply IH. intros s' Hs'. apply Hfail. now right.
Qed.

Lemma tryServers_all_fail send servers :
  (forall s, In s servers -> exists e, send s = Err e) ->
  tryServers send servers = Ok None.
Proof.
  induction servers as [|s l IH]; intros Hfail; cbn; [reflexivity|].
  destruct (Hfail s (or_introl eq_refl)) as [e ->].
  apply IH. intros s' Hs'. apply Hfail. now right.
Qed.

Lemma tryServers_panics send before server after msg :
  (forall s, In s before -> exists e, send s = Err e) ->
  send server = Panic msg ->
  tryServers send (before ++ server :: after) = Panic msg.
Proof.
  intros Hfail Hp. induction before as [|s l IH]; cbn.
  - now rewrite Hp.
  - destruct (Hfail s (or_introl eq_refl)) as [e ->].
    apply IH. intros s' Hs'. apply Hfail. now right.
Qed.

(** Claim C9.  getPublicIPAndPort does not always return: when the
    attempts on the servers before [server] fail and [server] answers
    with the datagram that fills the 1024-byte buffer and ends with a
    truncated XOR-MAPPED-ADDRESS attribute, the parser panics inside
    sendSTUNRequest and getPublicIPAndPort ends with that panic: it
    returns neither the address of a later server nor the local address
    with the configured TCP port. *)
Theorem getPublicIPAndPort_panics_with_the_parser
        (answers : string -> Exchange) dial tcpPort before server after :
  stunServers = before ++ server :: after ->
  (forall s, In s before -> exists e, sendSTUNRequest (answers s) = Err e) ->
  answers server = MoreSamples.answered fullBufferResponse ->
  getPublicIPAndPort (fun s => sendSTUNRequest (answers s)) dial tcpPort
  = Panic "runtime error: slice bounds out of range".
Proof.
  intros Hsplit Hfail Hfull. unfold getPublicIPAndPort. rewrite Hsplit.
  rewrite (tryServers_panics (fun s => sendSTUNRequest (answers s)) before
             server after "runtime error: slice bounds out of range");
    [reflexivity|exact Hfail|].
  rewrite Hfull. vm_compute. reflexivity.
Qed.

Lemma getPublicIPAndPort_panics_with_the_parser_witness :
  getPublicIPAndPort
    (fun s => sendSTUNRequest (MoreSamples.fullBufferAnswers s))
    (Some "192.168.1.5"%string) 8080
  = Panic "runtime error: slice bounds out of range".
Proof.
  apply (getPublicIPAndPort_panics_with_the_parser
           MoreSamples.fullBufferAnswers (Some "192.168.1.5"%string) 8080
           ["stun.l.google.com:19302"%string]
           "stun1.l.google.com:19302"%string (skipn 2 stunServers)).
  - reflexivity.
  - intros s [<-|[]]. exists "i/o timeout"%string. reflexivity.
  - reflexivity.
Defined.

(** What getPublicIPAndPort returns, when it returns: never an error; the
    address and port of the first server, in the order of the list,
    whose attempt succeeds after attempts that failed; and, when every
    attempt fails, the local address of getLocalIP with the configured
    TCP port. *)
Theorem getPublicIPAndPort_never_errors send dial tcpPort :
  (forall e, getPublicIPAndPort send dial tcpPort <> Err e)
  /\ (forall before server after ip port,
        stunServers = before ++ server :: after ->
        (forall s, In s before -> exists e, send s = Err e) ->
        send server = Ok (ip, port) ->
        getPublicIPAndPort send dial tcpPort = Ok (ip, port))
  /\ ((forall s, In s stunServers -> exists e, send s = Err e) ->
      getPublicIPAndPort send dial tcpPort = Ok (getLocalIP dial, tcpPort)).
Proof.
  unfold getPublicIPAndPort. split; [|split].
  - intros e. pose proof (tryServers_never_errors send stunServers) as H.
    destruct (tryServers send stunServers) as [[[ip port]|]| |]; cbn;
      try discriminate. exfalso. apply (H msg). reflexivity.
  - intros before server after ip port Hsplit Hfail Hok.
    rewrite Hsplit, (tryServers_first _ _ _ _ _ Hfail Hok). reflexivity.
  - intros Hfail. rewrite (tryServers_all_fail _ _ Hfail). reflexivity.
Qed.

Lemma getPublicIPAndPort_never_errors_witness :
  getPublicIPAndPort thirdAnswers None 8080 = Ok ("203.0.113.7"%string, 40000)
  /\ getPublicIPAndPort nobodyAnswers (Some "192.168.1.5"%string) 8080
     = Ok ("192.168.1.5"%string, 8080).
Proof.
  split.
  - apply (proj1 (proj2 (getPublicIPAndPort_never_errors thirdAnswers None 8080))
             ["stun.l.google.com:19302"; "stun1.l.google.com:19302"]%string
             "stun2.l.google.com:19302"%string
             (skipn 3 stunServers)).
    + reflexivity.
    + intros s [<-|[<-|[]]]; exists "i/o timeout"%string; reflexivity.
    + reflexivity.
  - apply (proj2 (proj2 (getPublicIPAndPort_never_errors nobodyAnswers
                           (Some "192.168.1.5"%string) 8080))).
    intros s _. exists "i/o timeout"%string. reflexivity.
Defined.

End StunFacts.

(* ================================================================== *)
(** ** Properties of the topology manager *)
(* ================================================================== *)

Module SuperNodeFacts.
Import SuperNode Samples.

Lemma set_mu_same sm : set_mu (mu sm) sm = sm.
Proof. now destruct sm. Qed.

Lemma set_mu_twice m m' sm : set_mu m (set_mu m' sm) = set_mu m sm.
Proof. reflexivity. Qed.

(** A read-locked getter on a manager whose mutex is free returns the
    value and leaves the manager as it was. *)
Lemma rlocked_gets {A} (f : SuperNodeManager -> A) sm :
  mu sm = Unlocked ->
  (forall m, f (set_mu m sm) = f sm) ->
  rlocked (gets f) sm = Returns (f sm) sm.
Proof.
  intros Hmu Hf. unfold rlocked, mbind, RLock, RUnlock, gets, ret.
  rewrite Hmu. cbn [mu set_mu]. rewrite Hf.
  replace (set_mu Unlocked (set_mu (ReadLocked 0) sm)) with sm; [reflexivity|].
  destruct sm; cbn in *. now subst.
Qed.

(** The same getter blocks for ever when the goroutine already holds the
    mutex for writing. *)
Lemma rlocked_blocks {A} (body : SM A) sm :
  mu sm = WriteLocked -> rlocked body sm = Blocks sm.
Proof. intros Hmu. unfold rlocked, mbind, RLock. now rewrite Hmu. Qed.

Lemma GetNode_blocks nodeID sm :
  mu sm = WriteLocked -> GetNode nodeID sm = Blocks sm.
Proof. apply rlocked_blocks. Qed.

Lemma checkIfNodeIsNoSuperNode_blocks nodeID sm :
  mu sm = WriteLocked -> checkIfNodeIsNoSuperNode nodeID sm = Blocks sm.
Proof.
  intros H. unfold checkIfNodeIsNoSuperNode, mbind. now rewrite GetNode_blocks.
Qed.

Lemma promoteFirstEligible_none now sm l : forall i,
  forallb (fun sn => negb (shortlisted now (Address (localNodeInfo sm)) sn)) l = true ->
  promoteFirstEligible now l i sm = Returns false sm.
Proof.
  induction l as [|sn l IH]; intros i H; cbn [promoteFirstEligible]; [reflexivity|].
  cbn [forallb] in H. apply andb_true_iff in H as [H1 H2].
  unfold mbind at 1, gets.
  apply negb_true_iff in H1. rewrite H1. now apply IH.
Qed.

Lemma promoteFirstEligible_blocks now sm l : forall i,
  mu sm = WriteLocked ->
  existsb (shortlisted now (Address (localNodeInfo sm))) l = true ->
  promoteFirstEligible now l i sm = Blocks sm.
Proof.
  induction l as [|sn l IH]; intros i Hmu H; cbn [promoteFirstEligible existsb] in *;
    [discriminate|].
  unfold mbind at 1, gets.
  destruct (shortlisted now (Address (localNodeInfo sm)) sn) eqn:E.
  - unfold mbind. now rewrite checkIfNodeIsNoSuperNode_blocks.
  - cbn in H. now apply IH.
Qed.

Lemma leaveLoop_blocks now nodeID sm l : forall i,
  mu sm = WriteLocked ->
  (exists sn, find (fun sn => String.eqb (ID (Node sn)) nodeID) l = Some sn
              /\ IsSuperNode sn = true) ->
  len (filter (fun sn => IsSuperNode sn && active now sn) (supernodes sm)) <= 1 ->
  existsb (shortlisted now (Address (localNodeInfo sm))) (supernodes sm) = true ->
  leaveLoop now nodeID l i sm = Blocks sm.
Proof.
  induction l as [|sn l IH]; intros i Hmu [x [Hf Hx]] Hc He; cbn [leaveLoop find] in *;
    [discriminate|].
  destruct (String.eqb (ID (Node sn)) nodeID).
  - injection Hf as ->. rewrite Hx.
    unfold mbind at 1. unfold handleSuperNodeLeave, mbind at 1, gets.
    destruct (Z.leb_spec (len (filter (fun sn0 => IsSuperNode sn0 && active now sn0) (supernodes sm))) 1); [|lia].
    unfold selectNewSuperNode, mbind at 1, gets. unfold mbind.
    now rewrite promoteFirstEligible_blocks.
  - apply IH; eauto.
Qed.

(** HandleNodeLeave never returns when the leaving node is the only active
    SuperNode and some other peer is shortlisted for promotion. *)
Lemma HandleNodeLeave_blocks now nodeID sm :
  mu sm = Unlocked ->
  (exists sn, find (fun sn => String.eqb (ID (Node sn)) nodeID) (supernodes sm) = Some sn
              /\ IsSuperNode sn = true) ->
  len (filter (fun sn => IsSuperNode sn && active now sn) (supernodes sm)) <= 1 ->
  existsb (shortlisted now (Address (localNodeInfo sm))) (supernodes sm) = true ->
  HandleNodeLeave now nodeID sm = Blocks (set_mu WriteLocked sm).
Proof.
  intros Hmu Hf Hc He. unfold HandleNodeLeave, locked, mbind at 1, Lock.
  rewrite Hmu. unfold mbind at 1. unfold mbind at 1, gets.
  cbn [supernodes set_mu].
  rewrite (leaveLoop_blocks now nodeID (set_mu WriteLocked sm)); auto.
Qed.

Lemma collectCandidates_blocks sm l : forall candidates count,
  mu sm = WriteLocked -> count < 5 ->
  existsb (fun sn => negb (String.eqb (ID (Node sn)) (Address (localNodeInfo sm)))) l = true ->
  collectCandidates l candidates count sm = Blocks sm.
Proof.
  induction l as [|sn l IH]; intros candidates count Hmu Hc H;
    cbn [collectCandidates existsb] in *; [discriminate|].
  destruct (Z.geb_spec count 5); [lia|].
  unfold mbind at 1, gets.
  destruct (negb (String.eqb (ID (Node sn)) (Address (localNodeInfo sm)))).
  - unfold mbind. now rewrite checkIfNodeIsNoSuperNode_blocks.
  - cbn in H. now apply IH.
Qed.

Lemma collectCandidates_none sm l : forall candidates count,
  forallb (fun sn => String.eqb (ID (Node sn)) (Address (localNodeInfo sm))) l = true ->
  collectCandidates l candidates count sm = Returns candidates sm.
Proof.
  induction l as [|sn l IH]; intros candidates count H;
    cbn [collectCandidates forallb] in *; [reflexivity|].
  apply andb_true_iff in H as [H1 H2].
  destruct (count >=? 5); [reflexivity|].
  unfold mbind at 1, gets. rewrite H1. cbn [negb]. now apply IH.
Qed.

(** SelectInitialSuperNode never returns once the manager knows a node
    other than the local one ... *)
Lemma SelectInitialSuperNode_blocks now sm :
  mu sm = Unlocked ->
  existsb (fun sn => negb (String.eqb (ID (Node sn)) (Address (localNodeInfo sm))))
    (supernodes sm) = true ->
  SelectInitialSuperNode now sm = Blocks (set_mu WriteLocked sm).
Proof.
  intros Hmu H. unfold SelectInitialSuperNode, locked, mbind at 1, Lock.
  rewrite Hmu. unfold mbind at 1. unfold mbind at 1, gets. unfold mbind at 1.
  cbn [supernodes set_mu].
  now rewrite (collectCandidates_blocks (set_mu WriteLocked sm)).
Qed.

(** ... and selects nobody otherwise. *)
Lemma SelectInitialSuperNode_nobody now sm :
  mu sm = Unlocked ->
  forallb (fun sn => String.eqb (ID (Node sn)) (Address (localNodeInfo sm)))
    (supernodes sm) = true ->
  SelectInitialSuperNode now sm = Returns EmptyString sm.
Proof.
  intros Hmu H. unfold SelectInitialSuperNode, locked, mbind at 1, Lock.
  rewrite Hmu. unfold mbind at 1. unfold mbind at 1, gets. unfold mbind at 1.
  cbn [supernodes set_mu].
  rewrite (collectCandidates_none (set_mu WriteLocked sm)) by exact H.
  cbn. destruct sm; cbn in *. now subst.
Qed.

Lemma ids_updateAt f l : forall i,
  (forall sn, ID (Node (f sn)) = ID (Node sn)) ->
  ids (updateAt i f l) = ids l.
Proof.
  induction l as [|sn l IH]; intros i Hf; [now destruct i|].
  destruct i; cbn; [now rewrite Hf|].
  f_equal. now apply IH.
Qed.

Lemma indexOfID_In nodeID l : forall k i,
  indexOfID nodeID l k = Some i -> In nodeID (ids l).
Proof.
  induction l as [|sn l IH]; intros k i H; cbn in *; [discriminate|].
  destruct (String.eqb_spec (ID (Node sn)) nodeID); [now left|].
  right. eapply IH, H.
Qed.

Lemma flags_updateAt f l : forall i,
  (forall sn, IsSuperNode (f sn) = IsSuperNode sn) ->
  map IsSuperNode (updateAt i f l) = map IsSuperNode l.
Proof.
  induction l as [|sn l IH]; intros i Hf; [now destruct i|].
  destruct i; cbn; [now rewrite Hf|].
  f_equal. now apply IH.
Qed.

Lemma AddNode_unlocked now nodeInfo sm :
  mu sm = Unlocked ->
  AddNode now nodeInfo sm
  = Returns tt (set_supernodes (added now nodeInfo (supernodes sm)) sm).
Proof.
  intros Hmu. unfold AddNode, locked, mbind, Lock, Unlock, modify, ret.
  rewrite Hmu. cbn [mu set_mu set_supernodes supernodes].
  destruct sm; cbn in *; subst. reflexivity.
Qed.

Lemma added_has_id now nodeInfo l : In (ID nodeInfo) (ids (added now nodeInfo l)).
Proof.
  unfold added. destruct (indexOfID (ID nodeInfo) l 0) eqn:E.
  - rewrite ids_updateAt by reflexivity. eapply indexOfID_In, E.
  - unfold ids. rewrite map_app. apply in_or_app. right. now left.
Qed.

Lemma added_flags now nodeInfo l :
  forallb (fun sn => negb (IsSuperNode sn)) l = true ->
  forallb (fun sn => negb (IsSuperNode sn)) (added now nodeInfo l) = true.
Proof.
  intros H.
  assert (G : forall l', forallb (fun sn => negb (IsSuperNode sn)) l'
                         = forallb negb (map IsSuperNode l')).
  { induction l' as [|x l' IH]; cbn; [reflexivity|now rewrite IH]. }
  rewrite G in *. unfold added. destruct (indexOfID (ID nodeInfo) l 0).
  - now rewrite flags_updateAt.
  - rewrite map_app, forallb_app, H. reflexivity.
Qed.

Lemma leaveLoop_at now nodeID sm l : forall k,
  leaveLoop now nodeID l k sm
  = match indexOfID nodeID l k,
          find (fun sn => String.eqb (ID (Node sn)) nodeID) l with
    | Some i, Some sn =>
        ((if IsSuperNode sn then handleSuperNodeLeave now else ret tt) ;;;
         modify (fun sm => set_supernodes (removeAt i (supernodes sm)) sm)) sm
    | _, _ => Returns tt sm
    end.
Proof.
  induction l as [|sn l IH]; intros k; cbn [leaveLoop indexOfID find];
    [reflexivity|].
  destruct (String.eqb (ID (Node sn)) nodeID); [reflexivity|apply IH].
Qed.

(** When no peer is shortlisted, the failover falls back on the local
    node: HandleNodeLeave returns, the leaving SuperNode is removed, and
    the local node takes the role unless it has opted out. *)
Lemma HandleNodeLeave_falls_back now nodeID sm i sn :
  mu sm = Unlocked ->
  indexOfID nodeID (supernodes sm) 0 = Some i ->
  find (fun sn => String.eqb (ID (Node sn)) nodeID) (supernodes sm) = Some sn ->
  IsSuperNode sn = true ->
  len (filter (fun sn => IsSuperNode sn && active now sn) (supernodes sm)) <= 1 ->
  forallb (fun sn => negb (shortlisted now (Address (localNodeInfo sm)) sn))
    (supernodes sm) = true ->
  HandleNodeLeave now nodeID sm
  = Returns tt
      (set_supernodes (removeAt i (supernodes sm))
         (if negb (noSuperNode sm) && negb (isSuperNode sm)
          then set_isSuperNode true sm else sm)).
Proof.
  intros Hmu Hi Hf Hr Hc Hs.
  unfold HandleNodeLeave, locked, mbind at 1, Lock. rewrite Hmu.
  unfold mbind at 1. unfold mbind at 1, gets. cbn [supernodes set_mu].
  rewrite leaveLoop_at, Hi, Hf, Hr.
  unfold mbind at 1. unfold handleSuperNodeLeave, mbind at 1, gets.
  cbn [supernodes set_mu].
  destruct (Z.leb_spec (len (filter (fun sn0 => IsSuperNode sn0 && active now sn0)
                               (supernodes sm))) 1); [|lia].
  unfold selectNewSuperNode, mbind at 1, gets. unfold mbind at 1.
  cbn [supernodes set_mu].
  rewrite (promoteFirstEligible_none now (set_mu WriteLocked sm)) by exact Hs.
  unfold modify, Unlock, mbind, ret.
  destruct sm; cbn in *; subst.
  destruct (negb noSuperNode0 && negb isSuperNode0); reflexivity.
Qed.

(** The opt-out of the local node is respected by the failover: with
    [noSuperNode] set, selectNewSuperNode leaves [isSuperNode] as it was,
    however it ends. *)
Lemma promoteFirstEligible_keeps_local (f : SuperNodeManager -> bool) now l :
  (forall m s, f (set_mu m s) = f s) ->
  (forall t s, f (set_supernodes t s) = f s) ->
  forall i sm, f (final (promoteFirstEligible now l i sm)) = f sm.
Proof.
  intros Hm Ht.
  induction l as [|sn l IH]; intros i sm; cbn [promoteFirstEligible];
    [reflexivity|].
  unfold mbind at 1, gets.
  destruct (shortlisted now (Address (localNodeInfo sm)) sn); [|apply IH].
  unfold mbind at 1, checkIfNodeIsNoSuperNode, mbind at 1, GetNode, rlocked.
  unfold mbind, RLock, RUnlock, gets, ret, modify.
  destruct (mu sm) eqn:Hmu; cbn [mu set_mu final]; try reflexivity.
  - destruct (find _ _) as [x|]; [destruct (NoSuperNode (Node x))|];
      cbn [negb final]; rewrite ?IH, ?Ht, ?Hm; reflexivity.
  - destruct (find _ _) as [x|]; [destruct (NoSuperNode (Node x))|];
      cbn [negb final]; rewrite ?IH, ?Ht, ?Hm; reflexivity.
Qed.

Lemma selectNewSuperNode_respects_local_opt_out now sm :
  noSuperNode sm = true ->
  isSuperNode (final (selectNewSuperNode now sm)) = isSuperNode sm.
Proof.
  intros Hno. unfold selectNewSuperNode, mbind at 1, gets. unfold mbind.
  pose proof (promoteFirstEligible_keeps_local isSuperNode now (supernodes sm)
                ltac:(reflexivity) ltac:(reflexivity) 0%nat sm) as H1.
  pose proof (promoteFirstEligible_keeps_local noSuperNode now (supernodes sm)
                ltac:(reflexivity) ltac:(reflexivity) 0%nat sm) as H2.
  destruct (promoteFirstEligible now (supernodes sm) 0 sm) as [[|] s|s|msg s];
    cbn [final] in *; try exact H1.
  unfold modify. cbn [final]. rewrite H2, Hno. exact H1.
Qed.

(** Claim C7 (the code does otherwise).  SetAsSuperNode gives the role to
    a peer that has opted out, and SetLocalNodeAsSuperNode sets the flag
    of a local node that has opted out: neither of the two setters looks
    at the opt-out that the two elections test. *)
Theorem setters_ignore_opt_out :
  (exists sm',
      NoSuperNode (peer addrA true) = true
      /\ SetAsSuperNode clock addrA optedOut = Returns tt sm'
      /\ supernodes sm' = [mkSuperNodeInfo (peer addrA true) true clock])
  /\ (exists sm',
         SetLocalNodeAsSuperNode true optedOut = Returns tt sm'
         /\ noSuperNode sm' = true /\ isSuperNode sm' = true).
Proof.
  split; eexists; repeat split; vm_compute; reflexivity.
Qed.

(** Claim C8 (the code does otherwise).  With one active SuperNode and
    three active Regular peers that have not opted out, HandleNodeLeave
    on the SuperNode does not return: it holds the write lock of the
    manager when selectNewSuperNode, through GetNode, waits for the read
    lock.  No peer is promoted and the leaving node stays in the table. *)
Theorem HandleNodeLeave_of_only_relay_blocks :
  HandleNodeLeave clock addrC oneRelayThreeRegular
  = Blocks (set_mu WriteLocked oneRelayThreeRegular).
Proof. vm_compute. reflexivity. Qed.

End SuperNodeFacts.

(* ================================================================== *)
(** ** Properties of the session, of discovery and of routing *)
(* ================================================================== *)

Module ChatFacts.

Import Crypto SuperNode Chat Samples Traces SuperNodeFacts.

(** Runs the administrative steps of a method of the client. *)
Ltac run_pm :=
  cbv beta iota zeta delta
      [mbind gets emit modify ret onClient RLock RUnlock Lock Unlock
       nodeMutex set_NodeMutex client trace LocalNode Room MessageKey
       NodeMutex Running PublicIP PublicPort SuperNodeMgr].

Lemma set_SuperNodeMgr_same w : set_SuperNodeMgr (SuperNodeMgr (client w)) w = w.
Proof. destruct w as [[] ?]. reflexivity. Qed.

Lemma mgr_returns_same {A} (m : SM A) a w :
  m (SuperNodeMgr (client w)) = Returns a (SuperNodeMgr (client w)) ->
  mgr m w = Returns a w.
Proof. intros H. unfold mgr. rewrite H. now rewrite set_SuperNodeMgr_same. Qed.

Lemma GetNode_unlocked nodeID sm :
  mu sm = Unlocked ->
  GetNode nodeID sm
  = Returns (find (fun sn => String.eqb (ID (Node sn)) nodeID) (supernodes sm)) sm.
Proof. intros H. unfold GetNode. now rewrite rlocked_gets. Qed.

Lemma GetSuperNodes_unlocked now sm :
  mu sm = Unlocked ->
  GetSuperNodes now sm
  = Returns (filter (fun sn => active now sn && IsSuperNode sn) (supernodes sm)) sm.
Proof. intros H. unfold GetSuperNodes. now rewrite rlocked_gets. Qed.

Lemma IsLocalNodeSuperNode_unlocked sm :
  mu sm = Unlocked -> IsLocalNodeSuperNode sm = Returns (isSuperNode sm) sm.
Proof. intros H. unfold IsLocalNodeSuperNode. now rewrite rlocked_gets. Qed.

Lemma regularPass_returns localAddr remoteAddr w :
  mu (SuperNodeMgr (client w)) = Unlocked ->
  forall nodes, exists targets,
    regularPass localAddr remoteAddr nodes w = Returns targets w
    /\ forall a, In a targets <->
         exists node, In node nodes /\ Address node = a
                      /\ a <> localAddr /\ a <> remoteAddr
                      /\ knownAsSuperNode (SuperNodeMgr (client w)) a = false.
Proof.
  intros Hmu. induction nodes as [|node rest [targets [IH1 IH2]]].
  - exists []. split; [reflexivity|]. intros a. split; [intros []|].
    intros [node [[] _]].
  - cbn [regularPass].
    destruct (String.eqb_spec (Address node) localAddr) as [El|El].
    { exists targets. split; [exact IH1|]. intros a. rewrite IH2. split.
      - intros [n [Hn H]]. exists n. split; [now right|exact H].
      - intros [n [[<-|Hn] H]]; [|now exists n]. exfalso. intuition congruence. }
    destruct (String.eqb_spec (Address node) remoteAddr) as [Er|Er].
    { exists targets. split; [exact IH1|]. intros a. rewrite IH2. split.
      - intros [n [Hn H]]. exists n. split; [now right|exact H].
      - intros [n [[<-|Hn] H]]; [|now exists n]. exfalso. intuition congruence. }
    cbn [orb]. unfold mbind at 1.
    rewrite (mgr_returns_same _ _ _ (GetNode_unlocked (Address node) _ Hmu)).
    fold (knownAsSuperNode (SuperNodeMgr (client w)) (Address node)).
    destruct (knownAsSuperNode (SuperNodeMgr (client w)) (Address node)) eqn:Ek.
    { exists targets. split; [exact IH1|]. intros a. rewrite IH2. split.
      - intros [n [Hn H]]. exists n. split; [now right|exact H].
      - intros [n [[<-|Hn] H]]; [|now exists n]. exfalso.
        destruct H as (<- & _ & _ & H). congruence. }
    exists (Address node :: targets). split.
    { unfold mbind. rewrite IH1. reflexivity. }
    intros a. cbn [In]. rewrite IH2. split.
    + intros [<-|[n [Hn H]]].
      * exists node. split; [now left|]. repeat split; auto.
      * exists n. split; [now right|exact H].
    + intros [n [[<-|Hn] H]]; [left; apply H|right; now exists n].
Qed.

Lemma superNodePass_spec localAddr remoteAddr l a :
  In a (superNodePass localAddr remoteAddr l) <->
  exists sn, In sn l /\ Address (Node sn) = a /\ a <> localAddr /\ a <> remoteAddr.
Proof.
  induction l as [|sn l IH]; cbn [superNodePass].
  - split; [intros []|intros [sn [[] _]]].
  - destruct (String.eqb_spec (Address (Node sn)) localAddr) as [El|El];
      [|destruct (String.eqb_spec (Address (Node sn)) remoteAddr) as [Er|Er]];
      cbn [orb In]; rewrite ?IH.
    + split.
      * intros [n [Hn H]]. exists n. split; [now right|exact H].
      * intros [n [[<-|Hn] H]]; [|now exists n]. exfalso. intuition congruence.
    + split.
      * intros [n [Hn H]]. exists n. split; [now right|exact H].
      * intros [n [[<-|Hn] H]]; [|now exists n]. exfalso. intuition congruence.
    + split.
      * intros [<-|[n [Hn H]]].
        -- exists sn. split; [now left|]. repeat split; auto.
        -- exists n. split; [now right|exact H].
      * intros [n [[<-|Hn] H]]; [left; apply H|right; now exists n].
Qed.

Lemma filter_In_iff {A} (f : A -> bool) l x : In x (filter f l) <-> In x l /\ f x = true.
Proof. apply filter_In. Qed.

Lemma shown_app a b : shown (a ++ b) = shown a ++ shown b.
Proof.
  induction a as [|e a IH]; [reflexivity|]. destruct e; cbn; now rewrite ?IH.
Qed.

Lemma written_app a b : written (a ++ b) = written a ++ written b.
Proof.
  induction a as [|e a IH]; [reflexivity|]. destruct e; cbn; now rewrite ?IH.
Qed.

Lemma written_Permutation a b : Permutation a b -> Permutation (written a) (written b).
Proof.
  induction 1 as [|e a b _ IH|e e' a|a b c _ IH1 _ IH2].
  - constructor.
  - destruct e; cbn [written]; auto.
  - destruct e, e'; cbn [written]; try apply Permutation_refl.
    apply perm_swap.
  - now transitivity (written b).
Qed.

Lemma shown_Permutation a b : Permutation a b -> Permutation (shown a) (shown b).
Proof.
  induction 1 as [|e a b _ IH|e e' a|a b c _ IH1 _ IH2].
  - constructor.
  - destruct e; cbn [shown]; auto.
  - destruct e, e'; cbn [shown]; try apply Permutation_refl.
    apply perm_swap.
  - now transitivity (shown b).
Qed.

Section Routing.
Variable jsonMarshal : Message -> list Z.
Variable jsonUnmarshal : list Z -> string + Message.
Variable aesEncryptBlock aesDecryptBlock : list Z -> list Z -> list Z.

Lemma forwardInbound_returns now net remoteAddr message w :
  NodeMutex (client w) = Unlocked ->
  mu (SuperNodeMgr (client w)) = Unlocked ->
  exists regular relays evs,
    forwardInbound jsonMarshal aesEncryptBlock now net remoteAddr message w
    = Returns (regular, relays) (mkProcess (client w) (trace w ++ evs))
    /\ (forall a, In a regular <->
          exists node, In node (Nodes (Room (client w))) /\ Address node = a
            /\ a <> Address (LocalNode (client w)) /\ a <> remoteAddr
            /\ knownAsSuperNode (SuperNodeMgr (client w)) a = false)
    /\ (forall a, In a relays <->
          exists sn, In sn (supernodes (SuperNodeMgr (client w)))
            /\ active now sn = true /\ IsSuperNode sn = true
            /\ Address (Node sn) = a
            /\ a <> Address (LocalNode (client w)) /\ a <> remoteAddr).
Proof.
  intros Hn Hmu. destruct w as [p tr].
  destruct p as [ln room key nm run pip pport sm]. cbn in Hn, Hmu. subst nm.
  cbn [client trace LocalNode Room SuperNodeMgr].
  set (w1 := mkProcess (mkP2PChat ln room key (ReadLocked 0) run pip pport sm) tr).
  destruct (regularPass_returns (Address ln) remoteAddr w1 Hmu (Nodes room))
    as [regular [Hr Hrs]].
  assert (Hg : mgr (GetSuperNodes now) (mkProcess (client w1)
                 (tr ++ flat_map (forwardTo jsonMarshal aesEncryptBlock
                                    regularLines net key message) regular))
               = Returns (filter (fun sn => active now sn && IsSuperNode sn)
                            (supernodes sm))
                   (mkProcess (client w1)
                      (tr ++ flat_map (forwardTo jsonMarshal aesEncryptBlock
                                         regularLines net key message) regular))).
  { apply mgr_returns_same. now apply GetSuperNodes_unlocked. }
  unfold forwardInbound. run_pm. subst w1. cbn [client] in *.
  rewrite Hr. run_pm. rewrite Hg. run_pm.
  eexists regular, _, _. split.
  - rewrite <- app_assoc. reflexivity.
  - split; [exact Hrs|]. intros a. rewrite superNodePass_spec. split.
    + intros [sn [Hin H]]. apply filter_In in Hin as [Hin Hf].
      apply andb_true_iff in Hf as [? ?]. exists sn. tauto.
    + intros [sn (Hin & Ha & Hi & H)]. exists sn. split; [|exact H].
      apply filter_In. split; [exact Hin|]. now rewrite Ha, Hi.
Qed.

Lemma regularPass_targets localAddr remoteAddr w :
  mu (SuperNodeMgr (client w)) = Unlocked ->
  forall nodes,
    regularPass localAddr remoteAddr nodes w
    = Returns
        (filter (fun a =>
                   negb (String.eqb a localAddr || String.eqb a remoteAddr)
                   && negb (knownAsSuperNode (SuperNodeMgr (client w)) a))
           (map Address nodes)) w.
Proof.
  intros Hmu. induction nodes as [|node rest IH]; [reflexivity|].
  cbn [regularPass map filter].
  destruct (String.eqb (Address node) localAddr
            || String.eqb (Address node) remoteAddr); cbn [negb andb];
    [exact IH|].
  unfold mbind at 1.
  rewrite (mgr_returns_same _ _ _ (GetNode_unlocked (Address node) _ Hmu)).
  fold (knownAsSuperNode (SuperNodeMgr (client w)) (Address node)).
  destruct (knownAsSuperNode (SuperNodeMgr (client w)) (Address node));
    cbn [negb]; [exact IH|].
  unfold mbind. now rewrite IH.
Qed.

Lemma superNodePass_targets localAddr remoteAddr l :
  superNodePass localAddr remoteAddr l
  = filter (fun a => negb (String.eqb a localAddr || String.eqb a remoteAddr))
      (map (fun sn => Address (Node sn)) l).
Proof.
  induction l as [|sn l IH]; [reflexivity|]. cbn [superNodePass map filter].
  destruct (String.eqb (Address (Node sn)) localAddr
            || String.eqb (Address (Node sn)) remoteAddr); cbn [negb];
    now rewrite IH.
Qed.

Lemma forwardInbound_trace now net remoteAddr message w :
  NodeMutex (client w) = Unlocked ->
  mu (SuperNodeMgr (client w)) = Unlocked ->
  let p := client w in
  let elsewhere := fun a =>
    negb (String.eqb a (Address (LocalNode p)) || String.eqb a remoteAddr) in
  let regular :=
    filter (fun a => elsewhere a && negb (knownAsSuperNode (SuperNodeMgr p) a))
      (map Address (Nodes (Room p))) in
  let relays :=
    filter elsewhere
      (map (fun sn => Address (Node sn))
         (filter (fun sn => active now sn && IsSuperNode sn)
            (supernodes (SuperNodeMgr p)))) in
  forwardInbound jsonMarshal aesEncryptBlock now net remoteAddr message w
  = Returns (regular, relays)
      (mkProcess p
         (trace w
          ++ flat_map (forwardTo jsonMarshal aesEncryptBlock regularLines net
                         (MessageKey p) message) regular
          ++ flat_map (forwardTo jsonMarshal aesEncryptBlock relayLines net
                         (MessageKey p) message) relays)).
Proof.
  intros Hn Hmu. destruct w as [p tr].
  destruct p as [ln room key nm run pip pport sm]. cbn in Hn, Hmu. subst nm.
  cbn [client trace LocalNode Room SuperNodeMgr MessageKey]. cbv zeta.
  set (w1 := mkProcess (mkP2PChat ln room key (ReadLocked 0) run pip pport sm) tr).
  pose proof (regularPass_targets (Address ln) remoteAddr w1 Hmu (Nodes room))
    as Hr.
  set (regular := filter _ (map Address (Nodes room))) in Hr.
  assert (Hg : mgr (GetSuperNodes now) (mkProcess (client w1)
                 (tr ++ flat_map (forwardTo jsonMarshal aesEncryptBlock
                                    regularLines net key message) regular))
               = Returns (filter (fun sn => active now sn && IsSuperNode sn)
                            (supernodes sm))
                   (mkProcess (client w1)
                      (tr ++ flat_map (forwardTo jsonMarshal aesEncryptBlock
                                         regularLines net key message) regular))).
  { apply mgr_returns_same. now apply GetSuperNodes_unlocked. }
  unfold forwardInbound. run_pm. subst w1. cbn [client] in *.
  rewrite Hr. run_pm. rewrite Hg. run_pm.
  rewrite superNodePass_targets, <- app_assoc. reflexivity.
Qed.

Lemma written_forwardTo lines net key message addr a f :
  In (a, f) (written (forwardTo jsonMarshal aesEncryptBlock lines net key
                        message addr))
  <-> a = addr /\ netDial net a = None /\ netWrite net a = None
      /\ Crypto.encryptAES aesEncryptBlock (randRead net a) key
           (jsonMarshal message) = Ok f.
Proof.
  unfold forwardTo. split.
  - destruct (netDial net addr) eqn:Ed; [intros []|].
    destruct (Crypto.encryptAES _ _ _ _) eqn:Ee; try (intros []).
    destruct (netWrite net addr) eqn:Ew; [intros []|].
    cbn [written In]. intros [H|[]]. inversion H; subst. auto.
  - intros (-> & Ed & Ew & Ee). rewrite Ed, Ee, Ew. now left.
Qed.

Lemma written_forwards lines net key message targets a f :
  In (a, f) (written (flat_map (forwardTo jsonMarshal aesEncryptBlock lines
                                  net key message) targets))
  <-> In a targets /\ netDial net a = None /\ netWrite net a = None
      /\ Crypto.encryptAES aesEncryptBlock (randRead net a) key
           (jsonMarshal message) = Ok f.
Proof.
  induction targets as [|t targets IH]; cbn [flat_map].
  - cbn. tauto.
  - rewrite written_app, in_app_iff, IH, written_forwardTo. cbn [In].
    split.
    + intros [(-> & H)|(Hin & H)]; auto.
    + intros ([->|Hin] & H); auto.
Qed.

(** Claim C3, as amended.  A node that is a SuperNode, with SuperNode mode
    switched on, handles a frame of its room from a connection with
    remote address [remoteAddr].  In a room of five members or fewer the
    mode is not active: it dials and writes to nobody, and only displays
    the message.  In a room of more than five members it launches one
    send goroutine for every entry of [regular], the addresses of the
    members that are neither the local address, nor [remoteAddr], nor
    recorded as SuperNode in the manager, and one for every entry of
    [relays], the addresses of the active SuperNodes other than the local
    address and [remoteAddr]; what happens is what these goroutines do
    and the display of the message, in some order; a frame is written to
    an address exactly when the address is in one of the two lists, its
    dial and its write succeed, and the frame is the fresh encryption of
    the message. *)
Theorem handleFrame_forwarding now net remoteAddr frame w data message :
  let p := client w in
  let elsewhere := fun a =>
    negb (String.eqb a (Address (LocalNode p)) || String.eqb a remoteAddr) in
  let regular :=
    filter (fun a => elsewhere a && negb (knownAsSuperNode (SuperNodeMgr p) a))
      (map Address (Nodes (Room p))) in
  let relays :=
    filter elsewhere
      (map (fun sn => Address (Node sn))
         (filter (fun sn => active now sn && IsSuperNode sn)
            (supernodes (SuperNodeMgr p)))) in
  let goroutines :=
    flat_map (forwardTo jsonMarshal aesEncryptBlock regularLines net
                (MessageKey p) message) regular
    ++ flat_map (forwardTo jsonMarshal aesEncryptBlock relayLines net
                   (MessageKey p) message) relays in
  NodeMutex (client w) = Unlocked ->
  mu (SuperNodeMgr (client w)) = Unlocked ->
  Crypto.decryptAES aesDecryptBlock (MessageKey (client w)) frame = Ok data ->
  jsonUnmarshal data = inr message ->
  RoomID message = RoomId (Room (client w)) ->
  superNodeMode (SuperNodeMgr (client w)) = true ->
  isSuperNode (SuperNodeMgr (client w)) = true ->
  (len (Nodes (Room (client w))) <= 5 ->
   handleFrame jsonMarshal jsonUnmarshal aesEncryptBlock aesDecryptBlock
     now net remoteAddr frame w
   = Returns ([], []) (mkProcess (client w) (trace w ++ [ShowMessage message])))
  /\ (5 < len (Nodes (Room (client w))) ->
      exists evs,
        handleFrame jsonMarshal jsonUnmarshal aesEncryptBlock aesDecryptBlock
          now net remoteAddr frame w
        = Returns (regular, relays) (mkProcess (client w) (trace w ++ evs))
        /\ Permutation evs (goroutines ++ [ShowMessage message])
        /\ (forall a f, In (a, f) (written evs) <->
              (In a regular \/ In a relays)
              /\ netDial net a = None /\ netWrite net a = None
              /\ Crypto.encryptAES aesEncryptBlock (randRead net a)
                   (MessageKey p) (jsonMarshal message) = Ok f)
        /\ (forall a, In a regular <->
              exists node, In node (Nodes (Room (client w)))
                /\ Address node = a
                /\ a <> Address (LocalNode (client w)) /\ a <> remoteAddr
                /\ knownAsSuperNode (SuperNodeMgr (client w)) a = false)
        /\ (forall a, In a relays <->
              exists sn, In sn (supernodes (SuperNodeMgr (client w)))
                /\ active now sn = true /\ IsSuperNode sn = true
                /\ Address (Node sn) = a
                /\ a <> Address (LocalNode (client w)) /\ a <> remoteAddr)).
Proof.
  intros p elsewhere regular relays goroutines Hn Hmu Hd Hj Hroom Hmode Hsn.
  pose proof (mgr_returns_same _ _ _ (IsLocalNodeSuperNode_unlocked _ Hmu)) as Hi.
  rewrite Hsn in Hi.
  assert (Hs : forall n, mgr (ShouldEnableSuperNodeMode n) w
               = Returns (n >? 5) w).
  { intros n. apply mgr_returns_same. unfold ShouldEnableSuperNodeMode, gets.
    now rewrite Hmode. }
  assert (Hels : forall a, elsewhere a = true
                   <-> a <> Address (LocalNode p) /\ a <> remoteAddr).
  { intros a. unfold elsewhere.
    destruct (String.eqb_spec a (Address (LocalNode p)));
      destruct (String.eqb_spec a remoteAddr); cbn; intuition congruence. }
  split.
  - intros Hle. unfold handleFrame. cbv beta iota delta [mbind gets].
    rewrite Hd, Hj, Hroom, String.eqb_refl. cbn [negb].
    rewrite Hs. destruct (Z.gtb_spec (len (Nodes (Room (client w)))) 5); [lia|].
    reflexivity.
  - intros Hgt.
    pose proof (forwardInbound_trace now net remoteAddr message w Hn Hmu) as Hf.
    cbv zeta in Hf. fold p elsewhere regular relays in Hf.
    exists (goroutines ++ [ShowMessage message]). split; [|split; [|split; [|split]]].
    + unfold handleFrame. cbv beta iota delta [mbind gets].
      rewrite Hd, Hj, Hroom, String.eqb_refl. cbn [negb].
      rewrite Hs.
      destruct (Z.gtb_spec (len (Nodes (Room (client w)))) 5); [|lia].
      rewrite Hi, Hf. cbv beta iota delta [emit modify ret client trace].
      unfold goroutines. now rewrite <- !app_assoc.
    + apply Permutation_refl.
    + intros a f. unfold goroutines.
      rewrite !written_app, !in_app_iff, !written_forwards. cbn [written In].
      tauto.
    + intros a. unfold regular. rewrite filter_In, in_map_iff, andb_true_iff,
        negb_true_iff, Hels. split.
      * intros [[node [Ha Hin]] [[H1 H2] H3]]. exists node. auto.
      * intros [node (Hin & Ha & H1 & H2 & H3)]. split; [now exists node|auto].
    + intros a. unfold relays. rewrite filter_In, in_map_iff, Hels. split.
      * intros [[sn [Ha Hin]] [H1 H2]]. apply filter_In in Hin as [Hin Hact].
        apply andb_true_iff in Hact as [? ?]. exists sn. auto 10.
      * intros [sn (Hin & Hact & Hsup & Ha & H1 & H2)].
        split; [|auto]. exists sn. split; [exact Ha|]. apply filter_In.
        split; [exact Hin|]. now rewrite Hact, Hsup.
Qed.

End Routing.

Lemma ownDisplays_app a b : ownDisplays (a ++ b) = (ownDisplays a + ownDisplays b)%nat.
Proof.
  induction a as [|e a IH]; [reflexivity|]. destruct e; cbn; now rewrite ?IH.
Qed.

Section Outbound.
Variable jsonMarshal : Message -> list Z.
Variable aesEncryptBlock : list Z -> list Z -> list Z.

Lemma forwardTo_no_display lines net key message addr :
  ownDisplays (forwardTo jsonMarshal aesEncryptBlock lines net key message addr) = O.
Proof.
  unfold forwardTo. destruct (netDial net addr); [reflexivity|].
  destruct (Crypto.encryptAES _ _ _ _); try reflexivity.
  destruct (netWrite net addr); reflexivity.
Qed.

Lemma forwardLoop_no_display localAddr net key message l :
  ownDisplays (forwardLoop jsonMarshal aesEncryptBlock localAddr net key message l) = O.
Proof.
  induction l as [|sn l IH]; cbn [forwardLoop]; [reflexivity|].
  destruct (String.eqb _ _); [exact IH|].
  now rewrite ownDisplays_app, forwardTo_no_display, IH.
Qed.

Lemma sendFrame_no_display net frame addr : ownDisplays (sendFrame net frame addr) = O.
Proof.
  unfold sendFrame. destruct (netDial net addr); [reflexivity|].
  destruct (netWrite net addr); reflexivity.
Qed.

Lemma fanOutLoop_displays localAddr net frame message nodes : forall d,
  let r := fanOutLoop localAddr net frame message nodes d in
  ownDisplays (fst r) = length (localEntries localAddr nodes)
  /\ snd r = d || negb (Nat.eqb (length (localEntries localAddr nodes)) 0).
Proof.
  induction nodes as [|node rest IH]; intros d; cbn [fanOutLoop localEntries filter].
  - cbn. now rewrite orb_false_r.
  - fold (localEntries localAddr rest).
    destruct (String.eqb (Address node) localAddr).
    + destruct (IH true) as [I1 I2]. cbn [fst snd ownDisplays length Nat.eqb negb].
      rewrite I1, I2. split; [reflexivity|]. now rewrite orb_true_r.
    + destruct (IH d) as [I1 I2]. cbn [fst snd].
      now rewrite ownDisplays_app, sendFrame_no_display, I1, I2.
Qed.

Lemma directFanOut_displays net frame message w :
  NodeMutex (client w) = Unlocked ->
  exists evs,
    directFanOut net frame message w
    = Returns tt (mkProcess (client w) (trace w ++ evs))
    /\ ownDisplays evs
       = Nat.max 1 (length (localEntries (Address (LocalNode (client w)))
                              (Nodes (Room (client w))))).
Proof.
  intros Hn. destruct w as [p tr].
  destruct p as [ln room key nm run pip pport sm]. cbn in Hn. subst nm.
  unfold directFanOut. run_pm.
  destruct (fanOutLoop_displays (Address ln) net frame message (Nodes room) false)
    as [H1 H2]. cbn [orb] in H2.
  destruct (snd (fanOutLoop (Address ln) net frame message (Nodes room) false)) eqn:E;
    cbn [negb]; run_pm.
  - eexists. split; [reflexivity|]. rewrite H1.
    destruct (length (localEntries (Address ln) (Nodes room))) as [|n];
      [discriminate|lia].
  - eexists. split; [rewrite <- app_assoc; reflexivity|].
    rewrite ownDisplays_app, H1.
    destruct (length (localEntries (Address ln) (Nodes room))) as [|n];
      [reflexivity|discriminate].
Qed.

Lemma GetBest_unlocked now sm :
  mu sm = Unlocked ->
  GetBestSuperNodeForConnection now sm
  = Returns (hd_error (filter (fun sn => active now sn && IsSuperNode sn)
                         (supernodes sm))) sm.
Proof.
  intros H. unfold GetBestSuperNodeForConnection, mbind.
  rewrite GetSuperNodes_unlocked by assumption.
  destruct (filter _ _); reflexivity.
Qed.

Lemma Forward_unlocked now net message key sm :
  mu sm = Unlocked ->
  ForwardMessageToSuperNodes jsonMarshal aesEncryptBlock now net message key sm
  = Returns (forwardLoop jsonMarshal aesEncryptBlock (Address (localNodeInfo sm))
               net key message
               (filter (fun sn => active now sn && IsSuperNode sn) (supernodes sm)))
      sm.
Proof.
  intros H. unfold ForwardMessageToSuperNodes, mbind.
  rewrite GetSuperNodes_unlocked by assumption. reflexivity.
Qed.

(** Claim C4, as amended.  When the encryption of the frame succeeds,
    SendMessage returns nil and displays the sender's own message exactly
    once, whatever the network does, in the direct fan-out, in the
    fallback without a known SuperNode (both for a member list with at
    most one entry at the local address) and when the local node is a
    SuperNode; when it sends through a known SuperNode it displays it once
    if the dial and the write succeed and not at all otherwise. *)
Theorem SendMessage_local_echo now timestamp net rnd content w frame :
  let p := client w in
  let sm := SuperNodeMgr p in
  let message := mkMessage (RoomId (Room p)) (Nickname (LocalNode p))
                   timestamp content in
  let relays := filter (fun sn => active now sn && IsSuperNode sn) (supernodes sm) in
  let enabled := superNodeMode sm && (len (Nodes (Room p)) >? 5) in
  let once := (length (localEntries (Address (LocalNode p)) (Nodes (Room p))) <= 1)%nat in
  NodeMutex p = Unlocked ->
  mu sm = Unlocked ->
  Crypto.encryptAES aesEncryptBlock rnd (MessageKey p) (jsonMarshal message)
  = Ok frame ->
  exists evs,
    SendMessage jsonMarshal aesEncryptBlock now timestamp net rnd content w
    = Returns None (mkProcess p (trace w ++ evs))
    /\ (enabled = false -> once -> ownDisplays evs = 1%nat)
    /\ (enabled = true -> isSuperNode sm = true -> ownDisplays evs = 1%nat)
    /\ (enabled = true -> isSuperNode sm = false -> relays = [] -> once ->
        ownDisplays evs = 1%nat)
    /\ (forall sn rest,
          enabled = true -> isSuperNode sm = false -> relays = sn :: rest ->
          ownDisplays evs
          = match netDial net (Address (Node sn)),
                  netWrite net (Address (Node sn)) with
            | None, None => 1%nat
            | _, _ => O
            end).
Proof.
  intros p sm message relays enabled once Hn Hmu Henc.
  pose proof (mgr_returns_same _ _ _ (IsLocalNodeSuperNode_unlocked _ Hmu)) as Hi.
  assert (Hs : mgr (ShouldEnableSuperNodeMode (len (Nodes (Room p)))) w
               = Returns enabled w).
  { apply mgr_returns_same. reflexivity. }
  pose proof (mgr_returns_same _ _ _ (GetBest_unlocked now _ Hmu)) as Hb.
  pose proof (mgr_returns_same _ _ _
                (Forward_unlocked now net message (MessageKey p) _ Hmu)) as Hf.
  fold p sm relays in Hi, Hb, Hf.
  destruct (directFanOut_displays net frame message w Hn) as [devs [Hd Hc]].
  fold p in Hd, Hc.
  unfold SendMessage. cbv beta iota delta [mbind gets].
  fold p message. rewrite Henc, Hs.
  destruct enabled eqn:Een.
  - rewrite Hi. destruct (isSuperNode sm) eqn:Esn.
    + rewrite Hf. cbv beta iota delta [emit modify ret client trace].
      eexists. split; [rewrite <- app_assoc; reflexivity|].
      repeat split; try discriminate.
      intros _ _. rewrite ownDisplays_app, forwardLoop_no_display. reflexivity.
    + rewrite Hb. destruct relays as [|sn rest] eqn:Er; cbn [hd_error].
      * rewrite Hd. exists devs. split; [reflexivity|].
        repeat split; try discriminate.
        intros _ _ _ Ho. unfold once in Ho. rewrite Hc. lia.
      * cbv beta iota delta [emit modify ret client trace].
        eexists. split; [reflexivity|]. repeat split; try discriminate.
        intros sn' rest' _ _ [= <- <-]. unfold sendViaSuperNode.
        destruct (netDial net (Address (Node sn))); [reflexivity|].
        destruct (netWrite net (Address (Node sn))); reflexivity.
  - rewrite Hd. exists devs. split; [reflexivity|].
    repeat split; try discriminate.
    intros _ Ho. unfold once in Ho. rewrite Hc. lia.
Qed.

End Outbound.


(** *** Discovery and the admission cap *)

Section Keeps.
Context {X : Type} (part : P2PChat -> X) (Hpart : besideManager part).


Lemma keeps_bind {A B} (m : PM A) (k : A -> PM B) :
  keeps part m -> (forall a, keeps part (k a)) -> keeps part (mbind m k).
Proof.
  intros Hm Hk w. specialize (Hm w). unfold mbind in *.
  destruct (m w) as [a s|s|msg s]; cbn [final] in *; try exact Hm.
  rewrite <- Hm. apply Hk.
Qed.

Lemma keeps_ret {A} (a : A) : keeps part (ret a).
Proof. intros w. reflexivity. Qed.

Lemma keeps_gets {A} (f : Process -> A) : keeps part (gets f).
Proof. intros w. reflexivity. Qed.

Lemma keeps_emit evs : keeps part (emit evs).
Proof. intros w. reflexivity. Qed.

Lemma keeps_mgr {A} (m : SM A) : keeps part (mgr m).
Proof.
  intros w. unfold mgr.
  destruct (m (SuperNodeMgr (client w))); cbn [final]; apply Hpart.
Qed.

Lemma keeps_elect now : keeps part (electAfterAdmission now).
Proof.
  unfold electAfterAdmission.
  apply keeps_bind; [apply keeps_gets|]. intros p.
  destruct (len (Nodes (Room p)) =? 2); [|apply keeps_ret].
  apply keeps_bind; [apply keeps_mgr|]. intros [|sn l]; [|apply keeps_ret].
  destruct (len (Nodes (Room p)) <=? 5); [|apply keeps_ret].
  apply keeps_bind; [apply keeps_mgr|]. intros sel.
  destruct (negb (String.eqb sel EmptyString));
    [apply keeps_emit|apply keeps_ret].
Qed.

(** What [announce] does after it has released the node mutex. *)
Lemma keeps_after_admission now nodeInfo line :
  keeps part (mgr (AddNode now nodeInfo) ;;;
              electAfterAdmission now ;;; emit [LogLine line]).
Proof.
  apply keeps_bind; [apply keeps_mgr|]. intros _.
  apply keeps_bind; [apply keeps_elect|]. intros _. apply keeps_emit.
Qed.

End Keeps.

Lemma members_beside : besideManager (fun p => Nodes (Room p)).
Proof. intros [[] ?] sm. reflexivity. Qed.

Lemma mutex_beside : besideManager NodeMutex.
Proof. intros [[] ?] sm. reflexivity. Qed.

Lemma local_beside : besideManager LocalNode.
Proof. intros [[] ?] sm. reflexivity. Qed.

Section Cap.
Variable cfg : Config.

(** [announce], step by step, on a client whose node mutex is free. *)
Lemma announce_runs now received addr w :
  NodeMutex (client w) = Unlocked ->
  let nodeInfo := normalize received addr in
  announce cfg now received addr w
  = if negb (isRoomNode (Nodes (Room (client w))) (ID nodeInfo))
       && negb (String.eqb (ID nodeInfo) (Address (LocalNode (client w))))
    then
      if len (Nodes (Room (client w))) <? MaxNodes cfg
      then (mgr (AddNode now nodeInfo) ;;;
            electAfterAdmission now ;;;
            emit [LogLine ("[System] Node " ++ Nickname nodeInfo ++ " ("
                             ++ Address nodeInfo ++ ") joined the room")%string])
             (mkProcess
                (set_Nodes (Nodes (Room (client w)) ++ [nodeInfo]) (client w))
                (trace w))
      else Returns tt
             (mkProcess (client w)
                (trace w ++
                 [LogLine ("[System] Node limit (" ++ itoa (MaxNodes cfg)
                             ++ ") reached, ignoring new node "
                             ++ Nickname nodeInfo ++ " (" ++ Address nodeInfo
                             ++ ")")%string]))
    else Returns tt w.
Proof.
  intros Hn. destruct w as [p tr].
  destruct p as [ln room key nm run pip pport sm]. cbn in Hn. subst nm.
  intros nodeInfo. unfold announce. fold nodeInfo.
  set (tail := mbind (mgr (AddNode now nodeInfo)) _).
  run_pm.
  destruct (negb (isRoomNode (Nodes room) (ID nodeInfo))
            && negb (String.eqb (ID nodeInfo) (Address ln))); [|reflexivity].
  rewrite Z.geb_leb.
  destruct (Z.leb_spec (MaxNodes cfg) (len (Nodes room)));
    destruct (Z.ltb_spec (len (Nodes room)) (MaxNodes cfg)); try lia;
    reflexivity.
Qed.

Lemma announce_final now received addr w :
  NodeMutex (client w) = Unlocked ->
  let w' := final (announce cfg now received addr w) in
  Nodes (Room (client w'))
  = (if accepts cfg (client w) (normalize received addr)
     then Nodes (Room (client w)) ++ [normalize received addr]
     else Nodes (Room (client w)))
  /\ NodeMutex (client w') = Unlocked
  /\ LocalNode (client w') = LocalNode (client w).
Proof.
  intros Hn. cbv zeta. rewrite (announce_runs now received addr w Hn).
  cbv zeta. unfold accepts. set (nodeInfo := normalize received addr).
  destruct (negb (isRoomNode (Nodes (Room (client w))) (ID nodeInfo))
            && negb (String.eqb (ID nodeInfo) (Address (LocalNode (client w)))));
    cbn [andb]; [|now repeat split].
  destruct (len (Nodes (Room (client w))) <? MaxNodes cfg); [|now repeat split].
  rewrite (keeps_after_admission _ members_beside now nodeInfo _ _).
  rewrite (keeps_after_admission _ mutex_beside now nodeInfo _ _).
  rewrite (keeps_after_admission _ local_beside now nodeInfo _ _).
  destruct w as [[] ?]. cbn in *. now repeat split.
Qed.

(** The admission check keeps the room within the configured maximum. *)
Lemma announce_within_cap now received addr w :
  NodeMutex (client w) = Unlocked ->
  len (Nodes (Room (client w))) <= MaxNodes cfg ->
  len (membersAfter (announce cfg now received addr w)) <= MaxNodes cfg.
Proof.
  intros Hn Hb. unfold membersAfter.
  destruct (announce_final now received addr w Hn) as [-> _].
  unfold accepts. destruct (negb _ && negb _); cbn [andb]; [|exact Hb].
  destruct (Z.ltb_spec (len (Nodes (Room (client w)))) (MaxNodes cfg));
    [|exact Hb].
  unfold len in *. rewrite length_app. cbn [length]. lia.
Qed.

(** A room at its maximum refuses every announcement. *)
Lemma announce_refused_at_cap now received addr w :
  NodeMutex (client w) = Unlocked ->
  MaxNodes cfg <= len (Nodes (Room (client w))) ->
  membersAfter (announce cfg now received addr w) = Nodes (Room (client w)).
Proof.
  intros Hn Hb. unfold membersAfter.
  destruct (announce_final now received addr w Hn) as [-> _].
  unfold accepts.
  destruct (Z.ltb_spec (len (Nodes (Room (client w)))) (MaxNodes cfg)); [lia|].
  now rewrite andb_false_r.
Qed.

Lemma listen_within_cap arrivals : forall w,
  NodeMutex (client w) = Unlocked ->
  len (Nodes (Room (client w))) <= MaxNodes cfg ->
  len (membersAfter (listenForBroadcasts cfg arrivals w)) <= MaxNodes cfg.
Proof.
  induction arrivals as [|d rest IH]; intros w Hn Hb; [exact Hb|].
  cbn [listenForBroadcasts]. unfold mbind at 1, gets.
  destruct (Running (client w)); [|exact Hb].
  destruct d as [e| |now received addr].
  - unfold mbind, emit, modify. apply IH; assumption.
  - unfold mbind, ret. apply IH; assumption.
  - pose proof (announce_within_cap now received addr w Hn Hb) as Hc.
    destruct (announce_final now received addr w Hn) as (_ & Hm & _).
    unfold membersAfter, mbind in *.
    destruct (announce cfg now received addr w) as [a s|s|msg s];
      cbn [final] in *; try exact Hc.
    apply IH; assumption.
Qed.

Lemma no_flags_no_relays now l :
  forallb (fun sn => negb (IsSuperNode sn)) l = true ->
  filter (fun sn => active now sn && IsSuperNode sn) l = [].
Proof.
  induction l as [|sn l IH]; intros H; [reflexivity|].
  cbn in H |- *. apply andb_true_iff in H as [H1 H2].
  apply negb_true_iff in H1. rewrite H1, andb_false_r. now apply IH.
Qed.

Lemma mbind_returns {S A B} (m : M S A) (k : A -> M S B) s a s' :
  m s = Returns a s' -> mbind m k s = k a s'.
Proof. intros H. unfold mbind. now rewrite H. Qed.

Lemma mbind_blocks {S A B} (m : M S A) (k : A -> M S B) s s' :
  m s = Blocks s' -> mbind m k s = Blocks s'.
Proof. intros H. unfold mbind. now rewrite H. Qed.

Lemma elect_blocks now w sm' :
  len (Nodes (Room (client w))) = 2 ->
  GetSuperNodes now (SuperNodeMgr (client w))
  = Returns [] (SuperNodeMgr (client w)) ->
  SelectInitialSuperNode now (SuperNodeMgr (client w)) = Blocks sm' ->
  electAfterAdmission now w = Blocks (set_SuperNodeMgr sm' w).
Proof.
  intros Hlen Hget Hsel. unfold electAfterAdmission.
  cbv beta iota delta [mbind gets]. rewrite Hlen. cbn [Z.eqb Pos.eqb].
  rewrite (mgr_returns_same _ _ _ Hget).
  cbn [Z.leb Z.compare Pos.compare Pos.compare_cont].
  unfold mgr. now rewrite Hsel.
Qed.

(** Discovery never makes a member of a node that announces the local
    address as its id. *)
Lemma announce_never_admits_self now received addr w n :
  NodeMutex (client w) = Unlocked ->
  In n (membersAfter (announce cfg now received addr w)) ->
  In n (Nodes (Room (client w))) \/ ID n <> Address (LocalNode (client w)).
Proof.
  intros Hn. unfold membersAfter.
  destruct (announce_final now received addr w Hn) as [-> _].
  unfold accepts.
  destruct (negb (isRoomNode _ _)); cbn [andb]; [|now left].
  destruct (String.eqb_spec (ID (normalize received addr))
              (Address (LocalNode (client w)))) as [|Hne];
    cbn [negb andb]; [now left|].
  destruct (_ <? _); [|now left].
  intros Hin. apply in_app_or in Hin as [Hin|[<-|[]]]; [now left|now right].
Qed.

(** The election that follows the admission of the second member never
    returns: SelectInitialSuperNode takes the write lock of the manager
    and then waits for its read lock. *)
Lemma announce_stalls now received addr w :
  let nodeInfo := normalize received addr in
  let sm := SuperNodeMgr (client w) in
  NodeMutex (client w) = Unlocked ->
  mu sm = Unlocked ->
  Address (localNodeInfo sm) = Address (LocalNode (client w)) ->
  forallb (fun sn => negb (IsSuperNode sn)) (supernodes sm) = true ->
  len (Nodes (Room (client w))) = 1 ->
  accepts cfg (client w) nodeInfo = true ->
  exists w',
    announce cfg now received addr w = Blocks w'
    /\ Nodes (Room (client w')) = Nodes (Room (client w)) ++ [nodeInfo].
Proof.
  intros nodeInfo sm Hn Hmu Hlocal Hflags Hlen Hadm.
  rewrite (announce_runs now received addr w Hn). cbv zeta. fold nodeInfo.
  unfold accepts in Hadm. fold nodeInfo in Hadm.
  apply andb_true_iff in Hadm as [Hadm Hlt]. rewrite Hadm, Hlt.
  apply andb_true_iff in Hadm as [_ Hself]. apply negb_true_iff in Hself.
  destruct w as [p tr]. destruct p as [ln room key nm run pip pport m].
  cbn [client trace SuperNodeMgr NodeMutex LocalNode Room] in *. subst sm nm.
  set (m1 := set_supernodes (added now nodeInfo (supernodes m)) m).
  assert (Hmu1 : mu m1 = Unlocked) by (unfold m1; cbn; exact Hmu).
  assert (Hsel : SelectInitialSuperNode now m1 = Blocks (set_mu WriteLocked m1)).
  { apply SelectInitialSuperNode_blocks; [exact Hmu1|].
    apply existsb_exists.
    pose proof (added_has_id now nodeInfo (supernodes m)) as Hin.
    apply in_map_iff in Hin as [sn [Hid Hin]]. exists sn. split; [exact Hin|].
    cbn [localNodeInfo m1 set_supernodes]. rewrite Hlocal, Hid, Hself.
    reflexivity. }
  assert (Hget : GetSuperNodes now m1 = Returns [] m1).
  { rewrite GetSuperNodes_unlocked by exact Hmu1. f_equal.
    pose proof (added_flags now nodeInfo _ Hflags) as Hf.
    cbn [supernodes m1 set_supernodes]. now apply no_flags_no_relays. }
  set (w1 := mkProcess (mkP2PChat ln (mkRoomInfo (RoomId room)
                 (Nodes room ++ [nodeInfo]) (Password room)) key Unlocked run
                 pip pport m1) tr).
  exists (set_SuperNodeMgr (set_mu WriteLocked m1) w1). split; [|reflexivity].
  erewrite mbind_returns.
  2:{ unfold mgr. cbn [client SuperNodeMgr set_Nodes].
      rewrite (AddNode_unlocked now nodeInfo m Hmu). reflexivity. }
  apply mbind_blocks. apply (elect_blocks now w1).
  - unfold w1, len in *. cbn [client Room Nodes]. rewrite length_app.
    cbn [length]. lia.
  - exact Hget.
  - exact Hsel.
Qed.

(** An admission that does not bring the room to two members returns. *)
Lemma announce_admits now received addr w :
  let nodeInfo := normalize received addr in
  settled w ->
  accepts cfg (client w) nodeInfo = true ->
  len (Nodes (Room (client w))) <> 1 ->
  exists w',
    announce cfg now received addr w = Returns tt w'
    /\ Nodes (Room (client w')) = Nodes (Room (client w)) ++ [nodeInfo]
    /\ settled w'.
Proof.
  intros nodeInfo (Hn & Hmu & Hlocal & Hflags) Hadm Hlen.
  rewrite (announce_runs now received addr w Hn). cbv zeta. fold nodeInfo.
  unfold accepts in Hadm. apply andb_true_iff in Hadm as [Hadm Hlt].
  rewrite Hadm, Hlt.
  destruct w as [p tr]. destruct p as [ln room key nm run pip pport m].
  cbn [client trace SuperNodeMgr NodeMutex LocalNode Room] in *. subst nm.
  set (m1 := set_supernodes (added now nodeInfo (supernodes m)) m).
  eexists. split; [|split].
  - erewrite mbind_returns.
    2:{ unfold mgr. cbn [client SuperNodeMgr set_Nodes].
        rewrite (AddNode_unlocked now nodeInfo m Hmu). reflexivity. }
    erewrite mbind_returns; [reflexivity|].
    unfold electAfterAdmission. cbv beta iota delta [mbind gets].
    cbn [client set_SuperNodeMgr Room Nodes set_Nodes LocalNode MessageKey
         NodeMutex Running PublicIP PublicPort SuperNodeMgr trace RoomId
         Password].
    destruct (Z.eqb_spec (len (Nodes room ++ [nodeInfo])) 2) as [E|_];
      [|reflexivity].
    exfalso. unfold len in *. rewrite length_app in E. cbn [length] in E. lia.
  - reflexivity.
  - repeat split; cbn; try assumption. now apply added_flags.
Qed.

(** The listener never takes the room beyond two members: the election
    after the second admission does not return. *)
Lemma listen_stays_at_two arrivals : forall w,
  settled w ->
  len (Nodes (Room (client w))) <= 1 ->
  len (membersAfter (listenForBroadcasts cfg arrivals w)) <= 2.
Proof.
  induction arrivals as [|d rest IH]; intros w Hs Hlen;
    [unfold membersAfter; cbn; lia|].
  cbn [listenForBroadcasts]. unfold mbind at 1, gets.
  destruct (Running (client w)); [|unfold membersAfter; cbn; lia].
  destruct d as [e| |now received addr].
  - unfold mbind, emit, modify. apply IH; [exact Hs|exact Hlen].
  - unfold mbind, ret. apply IH; assumption.
  - destruct (accepts cfg (client w) (normalize received addr)) eqn:Ea.
    + destruct (Z.eq_dec (len (Nodes (Room (client w)))) 1) as [E1|E1].
      * destruct Hs as (Hn & Hmu & Hlocal & Hflags).
        destruct (announce_stalls now received addr w Hn Hmu Hlocal
                    Hflags E1 Ea) as (w' & Hb & Hm).
        unfold mbind. rewrite Hb. unfold membersAfter. cbn [final].
        rewrite Hm. unfold len in *. rewrite length_app. cbn [length]. lia.
      * destruct (announce_admits now received addr w Hs Ea E1)
          as (w' & Hr & Hm & Hs').
        unfold mbind. rewrite Hr. apply IH; [exact Hs'|].
        rewrite Hm. unfold len in *. rewrite length_app. cbn [length]. lia.
    + pose proof Hs as (Hn & _). unfold mbind.
      rewrite (announce_runs now received addr w Hn). cbv zeta.
      unfold accepts in Ea.
      destruct (negb _ && negb _); cbn [andb] in Ea |- *.
      * rewrite Ea. apply IH; [exact Hs|exact Hlen].
      * apply IH; assumption.
Qed.

End Cap.

(** A client that has just joined a room is settled, with no member,
    whatever the configuration: its room never grows beyond two. *)
Lemma joined_settled cfg :
  settled (joined cfg) /\ Nodes (Room (client (joined cfg))) = [].
Proof. repeat split; reflexivity. Qed.

Lemma joined_stays_at_two cfg arrivals :
  len (membersAfter (listenForBroadcasts cfg arrivals (joined cfg))) <= 2.
Proof.
  destruct (joined_settled cfg) as [Hs Hm].
  apply listen_stays_at_two; [exact Hs|]. rewrite Hm. cbn. lia.
Qed.

(** *** Rooms *)

Section Rooms.
Variable cfg : Config.
Variable base64Encode : list Z -> string.
Variable base64Decode : string -> string + list Z.

(** Claim C10.  JoinRoom on any client.  When the password does not
    decode to 16 bytes it returns its error and changes nothing.
    Otherwise it succeeds: the member list is the one it found, so it is
    empty on a client as NewP2PChat builds it, where the local node is
    unchanged too; it stores the room id, the password, the decoded key,
    the configured NoSuperNode flag of the local node and a new SuperNode
    manager, prints its two lines, and changes nothing else.  CreateRoom
    returns the error of the random source and changes nothing, or
    succeeds and appends the local peer to the member list, which makes
    it the one member on a client as NewP2PChat builds it; and discovery
    never appends a node whose id is the local address. *)
Theorem JoinRoom_leaves_members_empty w roomID password :
  let p0 := client w in
  let localPeer :=
    mkNodeInfo (Address (LocalNode p0)) (Address (LocalNode p0))
      (Nickname (LocalNode p0)) (CfgNoSuperNode cfg) in
  (forall e, base64Decode password = inl e ->
     JoinRoom cfg base64Decode roomID password w
     = Returns (Some ("invalid room key: " ++ e)%string) w)
  /\ (forall key, base64Decode password = inr key -> len key <> 16 ->
        JoinRoom cfg base64Decode roomID password w
        = Returns (Some "room key length incorrect, should be 16 bytes"%string)
            w)
  /\ (forall key, base64Decode password = inr key -> len key = 16 ->
        exists p1,
          JoinRoom cfg base64Decode roomID password w
          = Returns None
              (mkProcess p1
                 (trace w
                  ++ [LogLine ("Successfully joined room " ++ roomID ++ "!");
                      LogLine ("Your nickname: " ++ Nickname (LocalNode p0))
                     ]%string))
          /\ Nodes (Room p1) = Nodes (Room p0)
          /\ RoomId (Room p1) = roomID
          /\ Password (Room p1) = password
          /\ MessageKey p1 = key
          /\ SuperNodeMgr p1
             = NewSuperNodeManager (LocalNode p1) key (TCPPort cfg)
                 (UDPPort cfg) (CfgNoSuperNode cfg)
          /\ LocalNode p1
             = mkNodeInfo (ID (LocalNode p0)) (Address (LocalNode p0))
                 (Nickname (LocalNode p0)) (CfgNoSuperNode cfg)
          /\ (NoSuperNode (LocalNode p0) = CfgNoSuperNode cfg ->
              LocalNode p1 = LocalNode p0)
          /\ NodeMutex p1 = NodeMutex p0
          /\ Running p1 = Running p0
          /\ PublicIP p1 = PublicIP p0
          /\ PublicPort p1 = PublicPort p0
          /\ (forall nickname public localIP,
                NewP2PChat cfg nickname public localIP = Ok p0 ->
                Nodes (Room p1) = [] /\ LocalNode p1 = LocalNode p0))
  /\ (forall e,
        CreateRoom cfg base64Encode (inl e) roomID w = Returns (Some e) w)
  /\ (forall key,
        exists p2,
          CreateRoom cfg base64Encode (inr key) roomID w
          = Returns None
              (mkProcess p2
                 (trace w
                  ++ [LogLine ("Room created successfully! Room ID: " ++ roomID);
                      LogLine ("Room key: " ++ base64Encode key);
                      LogLine ("Your nickname: " ++ Nickname (LocalNode p0))
                     ]%string))
          /\ Nodes (Room p2) = Nodes (Room p0) ++ [localPeer]
          /\ RoomId (Room p2) = roomID
          /\ Password (Room p2) = base64Encode key
          /\ MessageKey p2 = key
          /\ SuperNodeMgr p2
             = NewSuperNodeManager (LocalNode p0) key (TCPPort cfg)
                 (UDPPort cfg) (CfgNoSuperNode cfg)
          /\ LocalNode p2 = LocalNode p0
          /\ NodeMutex p2 = NodeMutex p0
          /\ Running p2 = Running p0
          /\ PublicIP p2 = PublicIP p0
          /\ PublicPort p2 = PublicPort p0
          /\ (forall nickname public localIP,
                NewP2PChat cfg nickname public localIP = Ok p0 ->
                Nodes (Room p2) = [localPeer]))
  /\ (forall now received addr w0 n,
        NodeMutex (client w0) = Unlocked ->
        In n (membersAfter (announce cfg now received addr w0)) ->
        In n (Nodes (Room (client w0)))
        \/ ID n <> Address (LocalNode (client w0))).
Proof.
  destruct w as [p tr]. change (client (mkProcess p tr)) with p.
  change (trace (mkProcess p tr)) with tr. intros p0 localPeer.
  assert (Hnew : forall nickname public localIP,
             NewP2PChat cfg nickname public localIP = Ok p0 ->
             Nodes (Room p0) = []
             /\ NoSuperNode (LocalNode p0) = CfgNoSuperNode cfg).
  { intros nickname public localIP H. unfold NewP2PChat in H.
    destruct public as [[ip port]|e|msg]; try discriminate;
      injection H as <-; split; reflexivity. }
  assert (Hln : NoSuperNode (LocalNode p0) = CfgNoSuperNode cfg ->
                mkNodeInfo (ID (LocalNode p0)) (Address (LocalNode p0))
                  (Nickname (LocalNode p0)) (CfgNoSuperNode cfg)
                = LocalNode p0).
  { intros <-. now destruct (LocalNode p0). }
  unfold JoinRoom, CreateRoom.
  split; [|split; [|split; [|split; [|split]]]].
  - intros e ->. reflexivity.
  - intros key -> Hk. destruct (Z.eqb_spec (len key) 16); [contradiction|].
    reflexivity.
  - intros key -> Hk. destruct (Z.eqb_spec (len key) 16); [|contradiction].
    cbn [negb]. run_pm. fold p0. eexists. split; [reflexivity|].
    cbn [Room Nodes RoomId Password MessageKey SuperNodeMgr LocalNode
         NodeMutex Running PublicIP PublicPort].
    repeat (split; [reflexivity|]).
    split; [exact Hln|]. repeat (split; [reflexivity|]).
    intros nickname public localIP H.
    destruct (Hnew _ _ _ H) as [Hm Hf]. split; [exact Hm|now apply Hln].
  - intros e. reflexivity.
  - intros key. run_pm. fold p0. eexists. split; [reflexivity|].
    cbn [Room Nodes RoomId Password MessageKey SuperNodeMgr LocalNode
         NodeMutex Running PublicIP PublicPort].
    repeat (split; [reflexivity|]).
    intros nickname public localIP H.
    destruct (Hnew _ _ _ H) as [Hm _].
    change (Nodes (Room p0) ++ [localPeer] = [localPeer]). now rewrite Hm.
  - intros now received addr w0 n. apply announce_never_admits_self.
Qed.

End Rooms.

(** The scenario of the specification, as the code runs it: in the room
    of four the threshold keeps the SuperNode from forwarding at all, and
    no frame is written to B or to C. *)
Lemma relay_of_four_forwards_nothing :
  exists w',
    handleFrame demoMarshal demoUnmarshal xorCipher xorCipher clock quietNet
      addrA hiFrame relayOfFour
    = Returns ([], []) w'
    /\ written (trace w') = []
    /\ ([] : list string) <> [addrB] /\ ([] : list string) <> [addrC].
Proof.
  eexists. split; [vm_compute; reflexivity|].
  split; [reflexivity|split; discriminate].
Qed.

(** The sender is recognised by the remote address of its connection
    alone: a frame that A sends from another port of its host goes back
    to A's listening address. *)
Lemma sender_on_another_port_is_served :
  exists relays w',
    handleFrame demoMarshal demoUnmarshal xorCipher xorCipher clock quietNet
      "10.0.0.2:51234" hiFrame relayOfSix
    = Returns ([addrA; addrB; addrD; addrE], relays) w'.
Proof. eexists _, _. vm_compute. reflexivity. Qed.

Lemma handleFrame_forwarding_witness :
  exists evs,
    handleFrame demoMarshal demoUnmarshal xorCipher xorCipher clock quietNet
      addrA hiFrame relayOfSix
    = Returns ([addrB; addrD; addrE], [addrC])
        (mkProcess (client relayOfSix) (trace relayOfSix ++ evs))
    /\ Permutation (map fst (written evs)) [addrB; addrD; addrE; addrC]
    /\ Permutation (shown evs) [hi].
Proof.
  destruct (handleFrame_forwarding demoMarshal demoUnmarshal xorCipher
              xorCipher clock quietNet addrA hiFrame relayOfSix
              (demoMarshal hi) hi eq_refl eq_refl eq_refl eq_refl eq_refl
              eq_refl eq_refl) as [_ H].
  destruct H as (evs & Hrun & Hperm & _); [vm_compute; reflexivity|].
  exists evs. split; [exact Hrun|]. split.
  - apply written_Permutation in Hperm.
    apply (Permutation_map fst) in Hperm. exact Hperm.
  - apply shown_Permutation in Hperm. exact Hperm.
Defined.

(** A Regular member whose dial to the SuperNode fails does not see its
    own message; and a member list with two entries at the local address
    shows it twice. *)
Lemma local_echo_not_exactly_once :
  (exists w',
      SendMessage demoMarshal xorCipher clock "2026-01-10 12:00:00" deadNet
        (inr sampleIV) "hi" regularOfSix
      = Returns None w'
      /\ ownDisplays (trace w') = O)
  /\ (exists w',
         SendMessage demoMarshal xorCipher clock "2026-01-10 12:00:00"
           quietNet (inr sampleIV) "hi" roomWithDouble
         = Returns None w'
         /\ ownDisplays (trace w') = 2%nat).
Proof. split; eexists; split; vm_compute; reflexivity. Qed.

Lemma SendMessage_local_echo_witness :
  (exists evs,
      SendMessage demoMarshal xorCipher clock "2026-01-10 12:00:00" quietNet
        (inr sampleIV) "hi" regularOfSix
      = Returns None (mkProcess (client regularOfSix) evs)
      /\ ownDisplays evs = 1%nat)
  /\ (exists evs,
         SendMessage demoMarshal xorCipher clock "2026-01-10 12:00:00" deadNet
           (inr sampleIV) "hi" relayOfFour
         = Returns None (mkProcess (client relayOfFour) evs)
         /\ ownDisplays evs = 1%nat).
Proof.
  split.
  - destruct (SendMessage_local_echo demoMarshal xorCipher clock
                "2026-01-10 12:00:00" quietNet (inr sampleIV) "hi"
                regularOfSix hiFrame eq_refl eq_refl eq_refl)
      as (evs & Hrun & _ & _ & _ & H).
    exists evs. split; [exact Hrun|].
    apply (H (entry addrC true) []); reflexivity.
  - destruct (SendMessage_local_echo demoMarshal xorCipher clock
                "2026-01-10 12:00:00" deadNet (inr sampleIV) "hi"
                relayOfFour hiFrame eq_refl eq_refl eq_refl)
      as (evs & Hrun & H & _).
    exists evs. split; [exact Hrun|].
    apply H; [reflexivity|]. vm_compute. lia.
Defined.

(** Claim C6 (the code does otherwise).  With a maximum of three, a node
    that has joined a room and hears four distinct peers ends with two
    members, not three: the election that follows the admission of the
    second member never returns (SelectInitialSuperNode holds the write
    lock of the manager and waits for its read lock), and the listener
    accepts nobody after that. *)
Theorem discovery_stalls_at_two_members :
  MaxNodes capOfThree = 3
  /\ exists w',
       listenForBroadcasts capOfThree fourArrivals (joined capOfThree)
       = Blocks w'
       /\ len (Nodes (Room (client w'))) = 2
       /\ mu (SuperNodeMgr (client w')) = WriteLocked.
Proof.
  split; [reflexivity|]. eexists.
  split; [vm_compute; reflexivity|]. split; reflexivity.
Qed.

Lemma JoinRoom_leaves_members_empty_witness :
  (exists p1,
      JoinRoom capOfThree demoDecode "r1" "AQIDBAUGBwgJCgsMDQ4PEA=="
        (fresh capOfThree)
      = Returns None
          (mkProcess p1 [LogLine "Successfully joined room r1!";
                         LogLine "Your nickname: me"])
      /\ Nodes (Room p1) = []
      /\ LocalNode p1 = LocalNode (client (fresh capOfThree)))
  /\ (exists p1,
         JoinRoom capOfThree demoDecode "r1" "AQIDBAUGBwgJCgsMDQ4PEA=="
           relayOfFour
         = Returns None
             (mkProcess p1 [LogLine "Successfully joined room r1!";
                            LogLine "Your nickname: me"])
         /\ Nodes (Room p1)
            = [peer selfAddr false; peer addrA false; peer addrB false;
               peer addrC false])
  /\ (exists p2,
         CreateRoom capOfThree demoEncode (inr sampleKey) "r1"
           (fresh capOfThree)
         = Returns None
             (mkProcess p2
                [LogLine "Room created successfully! Room ID: r1";
                 LogLine "Room key: AQIDBAUGBwgJCgsMDQ4PEA==";
                 LogLine "Your nickname: me"])
         /\ Nodes (Room p2)
            = [mkNodeInfo "10.0.0.1:8080" "10.0.0.1:8080" "me" false]).
Proof.
  pose proof (JoinRoom_leaves_members_empty capOfThree demoEncode demoDecode
                (fresh capOfThree) "r1" "AQIDBAUGBwgJCgsMDQ4PEA==") as Hfresh.
  pose proof (JoinRoom_leaves_members_empty capOfThree demoEncode demoDecode
                relayOfFour "r1" "AQIDBAUGBwgJCgsMDQ4PEA==") as Hfour.
  cbv zeta in Hfresh, Hfour.
  destruct Hfresh as (_ & _ & Hjoin & _ & Hcreate & _).
  destruct Hfour as (_ & _ & Hkeeps & _).
  destruct (Hjoin sampleKey eq_refl eq_refl)
    as (p1 & Hrun & _ & _ & _ & _ & _ & _ & _ & _ & _ & _ & _ & Hnew).
  destruct (Hnew "me"%string (Ok ("10.0.0.1"%string, 8080)) "10.0.0.1"%string
              eq_refl) as [Hm Hl].
  destruct (Hkeeps sampleKey eq_refl eq_refl) as (p1' & Hrun' & Hm' & _).
  destruct (Hcreate sampleKey)
    as (p2 & Hrun2 & _ & _ & _ & _ & _ & _ & _ & _ & _ & _ & Hnew2).
  split; [|split].
  - exists p1. split; [exact Hrun|]. split; [exact Hm|exact Hl].
  - exists p1'. split; [exact Hrun'|exact Hm'].
  - exists p2. split; [exact Hrun2|].
    exact (Hnew2 "me"%string (Ok ("10.0.0.1"%string, 8080)) "10.0.0.1"%string
             eq_refl).
Defined.

End ChatFacts.

(* ================================================================== *)
(** ** More properties of the codec *)
(* ================================================================== *)

Module CryptoMore.
Import Crypto Samples CryptoFacts.

Lemma paddingMatches_repeat_byte p n :
  paddingMatches (repeat (byte p) n) p = true.
Proof. induction n; cbn; [reflexivity|]. now rewrite Z.eqb_refl. Qed.

Lemma paddingMatches_true l p :
  paddingMatches l p = true -> l = repeat (byte p) (length l).
Proof.
  induction l as [|x l IH]; cbn; [reflexivity|].
  destruct (Z.eqb_spec x (byte p)) as [->|]; [|discriminate].
  intros H. f_equal. now apply IH.
Qed.

Lemma nth_last_app_repeat (data : list Z) p n :
  (0 < n)%nat ->
  nth (length (data ++ repeat p n) - 1) (data ++ repeat p n) 0 = p.
Proof.
  intros Hn. rewrite length_app, repeat_length, app_nth2 by lia.
  replace (length data + n - 1 - length data)%nat with (n - 1)%nat by lia.
  apply nth_repeat_lt. lia.
Qed.

Lemma last_is_byte data : bytes data -> data <> [] ->
  is_byte (nth (length data - 1) data 0).
Proof.
  intros Hb Hne. unfold bytes in Hb. rewrite Forall_forall in Hb.
  apply Hb, nth_In. destruct data; [congruence|cbn; lia].
Qed.

(** Unpadding what [p] bytes of value [p] were appended to. *)
Lemma pkcs7Unpad_app data p bs :
  1 <= p <= bs -> p <= 255 ->
  pkcs7Unpad (data ++ repeat p (Z.to_nat p)) bs = Ok data.
Proof.
  intros Hp H255. unfold pkcs7Unpad.
  assert (Hl : len (data ++ repeat p (Z.to_nat p)) = len data + p).
  { rewrite len_app. unfold len at 2. rewrite repeat_length. lia. }
  rewrite Hl. pose proof (len_nonneg data).
  destruct (Z.eqb_spec (len data + p) 0); [lia|].
  rewrite nth_last_app_repeat by lia.
  destruct (Z.gtb_spec p bs); [lia|]. destruct (Z.eqb_spec p 0); [lia|].
  cbn [orb]. replace (len data + p - p) with (len data) by lia.
  destruct (Z.ltb_spec (len data) 0); [lia|].
  unfold len. rewrite Nat2Z.id.
  rewrite (skipn_app_exact (length data)) by reflexivity.
  replace p with (byte p) at 1 by (unfold byte; apply Z.mod_small; lia).
  rewrite paddingMatches_repeat_byte.
  now rewrite (firstn_app_exact (length data)).
Qed.

(** The three ways in which pkcs7Unpad ends, read backwards. *)
Lemma pkcs7Unpad_cases data bs :
  bytes data ->
  match pkcs7Unpad data bs with
  | Ok out =>
      exists p, 1 <= p <= bs /\ p <= len data
                /\ data = out ++ repeat p (Z.to_nat p)
  | Panic _ =>
      data <> [] /\ 1 <= nth (length data - 1) data 0 <= bs
      /\ len data < nth (length data - 1) data 0
  | Err _ => True
  end.
Proof.
  intros Hb. unfold pkcs7Unpad.
  destruct (Z.eqb_spec (len data) 0) as [E0|E0]; [exact I|].
  assert (Hne : data <> []) by (intros ->; now apply E0).
  pose proof (last_is_byte data Hb Hne) as Hlast.
  set (p := nth (length data - 1) data 0) in *.
  destruct (Z.gtb_spec p bs) as [G|G]; [exact I|].
  destruct (Z.eqb_spec p 0) as [Z0|Z0]; [exact I|]. cbn [orb].
  assert (1 <= p) by (unfold is_byte in Hlast; lia).
  destruct (Z.ltb_spec (len data - p) 0) as [L|L].
  - repeat split; try lia. exact Hne.
  - destruct (paddingMatches _ p) eqn:PM; [|exact I].
    exists p. repeat split; try lia.
    apply paddingMatches_true in PM.
    rewrite length_skipn in PM.
    replace (byte p) with p in PM
      by (unfold byte; rewrite Z.mod_small; [reflexivity|exact Hlast]).
    replace (length data - Z.to_nat (len data - p))%nat with (Z.to_nat p) in PM
      by (unfold len in *; lia).
    rewrite <- PM. symmetry. apply firstn_skipn.
Qed.

(** Property X1.  For every block size from 1 to 255, pkcs7Pad followed
    by pkcs7Unpad gives the data back; the padded data is a whole number
    of blocks and between one byte and one block longer than the data. *)
Theorem pkcs7_roundtrip data bs :
  1 <= bs <= 255 ->
  exists padded,
    pkcs7Pad data bs = Ok padded
    /\ pkcs7Unpad padded bs = Ok data
    /\ len padded mod bs = 0
    /\ len data < len padded <= len data + bs.
Proof.
  intros Hbs. pose proof (len_nonneg data) as Hd.
  set (p := bs - len data mod bs).
  assert (Hp : 1 <= p <= bs)
    by (unfold p; pose proof (Z.mod_pos_bound (len data) bs); lia).
  exists (data ++ repeat p (Z.to_nat p)).
  assert (Hl : len (data ++ repeat p (Z.to_nat p)) = len data + p).
  { rewrite len_app. unfold len at 2. rewrite repeat_length. lia. }
  repeat split.
  - unfold pkcs7Pad. destruct (Z.eqb_spec bs 0); [lia|].
    rewrite Z.rem_mod_nonneg by lia. fold p.
    destruct (Z.ltb_spec p 0); [lia|].
    unfold byte. rewrite Z.mod_small by lia. reflexivity.
  - apply pkcs7Unpad_app; lia.
  - rewrite Hl. unfold p.
    replace (len data + (bs - len data mod bs))
      with (len data - len data mod bs + 1 * bs) by lia.
    rewrite Z.mod_add by lia.
    rewrite Zminus_mod, Z.mod_mod, Z.sub_diag by lia. reflexivity.
  - lia.
  - lia.
Qed.

Lemma pkcs7_roundtrip_witness :
  exists padded,
    pkcs7Pad [1; 2; 3] 8 = Ok padded
    /\ pkcs7Unpad padded 8 = Ok [1; 2; 3]
    /\ len padded mod 8 = 0
    /\ len [1; 2; 3] < len padded <= len [1; 2; 3] + 8.
Proof. apply (pkcs7_roundtrip [1; 2; 3] 8). lia. Defined.

(** Property X2.  On bytes, pkcs7Unpad returns [out] exactly when the
    data is [out] followed by [p] bytes of value [p], for some [p] from 1
    to the block size. *)
Theorem pkcs7Unpad_accepts_exactly data bs out :
  bytes data ->
  (pkcs7Unpad data bs = Ok out
   <-> exists p, 1 <= p <= bs /\ data = out ++ repeat p (Z.to_nat p)).
Proof.
  intros Hb. split.
  - intros E. pose proof (pkcs7Unpad_cases data bs Hb) as C. rewrite E in C.
    destruct C as (p & Hp & _ & Hd). now exists p.
  - intros (p & Hp & ->). apply pkcs7Unpad_app; [exact Hp|].
    apply bytes_app in Hb. destruct Hb as [_ Hr].
    unfold bytes in Hr. rewrite Forall_forall in Hr.
    assert (In p (repeat p (Z.to_nat p))) as Hin.
    { replace (Z.to_nat p) with (S (Z.to_nat p - 1)) by lia. now left. }
    specialize (Hr p Hin). unfold is_byte in Hr. lia.
Qed.

Lemma pkcs7Unpad_accepts_exactly_witness :
  pkcs7Unpad [7; 2; 2] 16 = Ok [7]
  <-> exists p, 1 <= p <= 16 /\ [7; 2; 2] = [7] ++ repeat p (Z.to_nat p).
Proof.
  apply (pkcs7Unpad_accepts_exactly [7; 2; 2] 16 [7]).
  apply bytes_dec_true. reflexivity.
Defined.

(** Property X3.  On bytes, pkcs7Unpad panics exactly when the last byte
    is a padding length within the block size that exceeds the length of
    the data: its validation loop then starts at a negative index. *)
Theorem pkcs7Unpad_panics_exactly data bs :
  bytes data ->
  ((exists msg, pkcs7Unpad data bs = Panic msg)
   <-> data <> [] /\ 1 <= nth (length data - 1) data 0 <= bs
       /\ len data < nth (length data - 1) data 0).
Proof.
  intros Hb. split.
  - intros [msg E]. pose proof (pkcs7Unpad_cases data bs Hb) as C.
    now rewrite E in C.
  - intros (Hne & Hp & Hl). unfold pkcs7Unpad.
    destruct (Z.eqb_spec (len data) 0) as [E0|E0].
    { destruct data; [congruence|discriminate]. }
    destruct (Z.gtb_spec (nth (length data - 1) data 0) bs); [lia|].
    destruct (Z.eqb_spec (nth (length data - 1) data 0) 0); [lia|]. cbn [orb].
    destruct (Z.ltb_spec (len data - nth (length data - 1) data 0) 0); [|lia].
    now eexists.
Qed.

Lemma pkcs7Unpad_panics_exactly_witness :
  (exists msg, pkcs7Unpad [3] 16 = Panic msg)
  <-> [3] <> [] /\ 1 <= nth (length [3] - 1) [3] 0 <= 16
      /\ len [3] < nth (length [3] - 1) [3] 0.
Proof.
  apply (pkcs7Unpad_panics_exactly [3] 16).
  apply bytes_dec_true. reflexivity.
Defined.

Section AES.
Variable aesEncryptBlock aesDecryptBlock : list Z -> list Z -> list Z.
Hypothesis enc_block : cipher_keeps_blocks aesEncryptBlock.
Hypothesis dec_block : cipher_keeps_blocks aesDecryptBlock.
Hypothesis dec_enc : cipher_inverts aesEncryptBlock aesDecryptBlock.

Lemma len_16n (l : list Z) :
  Z.rem (len l) 16 = 0 -> length l = (16 * Z.to_nat (len l / 16))%nat.
Proof.
  intros H. pose proof (len_nonneg l). rewrite Z.rem_mod_nonneg in H by lia.
  pose proof (Z.div_mod (len l) 16 ltac:(lia)).
  pose proof (Z.div_pos (len l) 16 ltac:(lia) ltac:(lia)).
  unfold len in *. lia.
Qed.

(** The frame that encryptAES builds under an accepted key and a
    16-byte IV: the IV, then the blocks of the padded data. *)
Lemma encryptAES_frame (k iv p : list Z) :
  bytes k -> key_size_ok k = true -> is_block iv -> bytes p ->
  exists body,
    encryptAES aesEncryptBlock (inr iv) k p = Ok (iv ++ body)
    /\ bytes body
    /\ len body = 16 * (len p / 16 + 1).
Proof.
  intros Hk K Hiv Hp. unfold encryptAES, NewCipher. rewrite K. cbn [bind].
  rewrite pkcs7Pad_16. cbn [bind]. unfold CryptBlocks.
  rewrite padded_length.
  assert (I : len iv = BlockSize)
    by (destruct Hiv as [_ L]; unfold len; now rewrite L).
  rewrite I, Z.eqb_refl. cbn [negb].
  pose proof (len_nonneg p) as Hn.
  pose proof (Z.div_pos (len p) 16 ltac:(lia) ltac:(lia)) as Hq.
  replace (Z.rem (16 * (len p / 16 + 1)) BlockSize) with 0
    by (unfold BlockSize; rewrite Z.rem_mod_nonneg by lia;
        rewrite Z.mul_comm, Z.mod_mul; lia).
  cbn [Z.eqb negb bind].
  replace (16 * (len p / 16 + 1) / BlockSize) with (len p / 16 + 1)
    by (unfold BlockSize; rewrite Z.mul_comm, Z.div_mul; lia).
  set (n := Z.to_nat (len p / 16 + 1)).
  set (padded := p ++ repeat (padLength p) (Z.to_nat (padLength p))).
  assert (Hpb : bytes padded).
  { apply bytes_app. split; [exact Hp|]. apply bytes_repeat.
    pose proof (padLength_range p). unfold is_byte. lia. }
  assert (Hpl : length padded = (16 * n)%nat).
  { pose proof (padded_length p) as L. subst n padded. unfold len in *. lia. }
  destruct (cbcEncryptBlocks_blocks _ enc_block k Hk K n iv padded Hiv Hpb Hpl)
    as [B L].
  eexists. split; [reflexivity|]. split; [exact B|].
  unfold len. rewrite L. subst n. unfold len in *. lia.
Qed.

(** Property X4.  encryptAES fails only on a key that is not of 16, 24
    or 32 bytes or on a failing random source, whose error it returns as
    it is; otherwise it returns the IV followed by 16 * (len/16 + 1)
    bytes: the plaintext padded to the next block boundary, a full block
    when it is already aligned. *)
Theorem encryptAES_shape (k p : list Z) :
  bytes k -> bytes p ->
  (key_size_ok k = false ->
   forall rnd, exists msg, encryptAES aesEncryptBlock rnd k p = Err msg)
  /\ (key_size_ok k = true ->
      forall e, encryptAES aesEncryptBlock (inl e) k p = Err e)
  /\ (key_size_ok k = true ->
      forall iv, is_block iv ->
      exists body,
        encryptAES aesEncryptBlock (inr iv) k p = Ok (iv ++ body)
        /\ bytes body
        /\ len body = 16 * (len p / 16 + 1)).
Proof.
  intros Hk Hp. repeat split.
  - intros K rnd. unfold encryptAES, NewCipher. rewrite K. cbn [bind].
    now eexists.
  - intros K e. unfold encryptAES, NewCipher. now rewrite K.
  - intros K iv Hiv. now apply encryptAES_frame.
Qed.

Lemma cbcDecryptBlocks_bytes k : bytes k -> key_size_ok k = true ->
  forall n prev src, is_block prev -> bytes src -> length src = (16 * n)%nat ->
    bytes (cbcDecryptBlocks aesDecryptBlock k prev src n).
Proof.
  intros Hk K. induction n as [|n IH]; intros prev src Hprev Hsrc Hlen;
    cbn [cbcDecryptBlocks]; [constructor|].
  assert (Hc : is_block (firstn 16 src))
    by (split; [now apply bytes_firstn|rewrite length_firstn; lia]).
  apply bytes_app. split.
  - apply xorBytes_bytes; [apply (dec_block k _ Hk K Hc)|apply Hprev].
  - apply IH; [exact Hc|now apply bytes_skipn|rewrite length_skipn; lia].
Qed.

(** How decryptAES ends on bytes: never in a panic, and with a plaintext
    that is 1 to 16 bytes shorter than the blocks after the IV. *)
Lemma decryptAES_outcome (k b : list Z) :
  bytes k -> bytes b ->
  match decryptAES aesDecryptBlock k b with
  | Ok p => 32 <= len b /\ len b mod 16 = 0
            /\ len b - 32 <= len p <= len b - 17
  | Err _ => True
  | Panic _ => False
  end.
Proof.
  intros Hk Hb. unfold decryptAES, NewCipher.
  destruct (key_size_ok k) eqn:K; cbn [bind]; [|exact I].
  destruct (Z.ltb_spec (len b) BlockSize) as [S|S]; [exact I|].
  unfold BlockSize in *.
  assert (Hs : len (skipn 16 b) = len b - 16)
    by (unfold len in *; rewrite length_skipn; lia).
  destruct (Z.eqb_spec (Z.rem (len (skipn 16 b)) 16) 0) as [R|R]; cbn [negb];
    [|exact I].
  unfold CryptBlocks, BlockSize.
  assert (Hf : length (firstn 16 b) = 16%nat)
    by (rewrite length_firstn; unfold len in *; lia).
  replace (len (firstn 16 b)) with 16 by (unfold len; rewrite Hf; reflexivity).
  rewrite R. change (negb (16 =? 16)) with false.
  change (negb (0 =? 0)) with false. cbv iota. cbn [bind].
  set (n := Z.to_nat (len (skipn 16 b) / 16)).
  pose proof (len_16n _ R) as Hn. fold n in Hn.
  pose proof (cbcDecryptBlocks_blocks _ dec_block k Hk K n (firstn 16 b)
                (skipn 16 b) (conj (bytes_firstn 16 b Hb) Hf)
                (bytes_skipn 16 b Hb) Hn) as L.
  pose proof (cbcDecryptBlocks_bytes k Hk K n (firstn 16 b) (skipn 16 b)
                (conj (bytes_firstn 16 b Hb) Hf) (bytes_skipn 16 b Hb) Hn) as B.
  set (pt := cbcDecryptBlocks aesDecryptBlock k (firstn 16 b) (skipn 16 b) n) in *.
  unfold pkcs7Unpad.
  destruct (Z.eqb_spec (len pt) 0) as [E0|E0]; [exact I|].
  set (q := nth (length pt - 1) pt 0).
  destruct (Z.gtb_spec q 16) as [G|G]; [exact I|].
  destruct (Z.eqb_spec q 0) as [Q0|Q0]; [exact I|]. cbn [orb].
  assert (Hlen : len pt = len b - 16) by (unfold len in *; lia).
  assert (16 <= len pt) by (unfold len in *; lia).
  destruct (Z.ltb_spec (len pt - q) 0) as [N|N]; [lia|].
  destruct (paddingMatches _ q) eqn:PM; [|exact I].
  assert (1 <= q).
  { assert (is_byte q) as Bq; [|unfold is_byte in Bq; lia].
    apply last_is_byte; [exact B|intros E; now rewrite E in E0]. }
  rewrite Z.rem_mod_nonneg in R by lia.
  repeat split.
  - lia.
  - rewrite Hs in R. rewrite <- R.
    replace (len b) with (len b - 16 + 1 * 16) at 1 by lia.
    now rewrite Z.mod_add by lia.
  - unfold len. rewrite length_firstn. unfold len in *. lia.
  - unfold len. rewrite length_firstn. unfold len in *. lia.
Qed.

(** Property X5.  On bytes, whatever the key and the data, decryptAES
    never panics: it returns an error or a plaintext.  A plaintext comes
    only from at least two whole blocks and is 17 to 32 bytes shorter
    than the data. *)
Theorem decryptAES_never_panics (k b : list Z) :
  bytes k -> bytes b ->
  (forall msg, decryptAES aesDecryptBlock k b <> Panic msg)
  /\ (forall p, decryptAES aesDecryptBlock k b = Ok p ->
                32 <= len b /\ len b mod 16 = 0
                /\ len b - 32 <= len p <= len b - 17).
Proof.
  intros Hk Hb. pose proof (decryptAES_outcome k b Hk Hb) as O. split.
  - intros msg E. now rewrite E in O.
  - intros p E. now rewrite E in O.
Qed.

(** What encryptAES returned, decryptAES opens, under each of the three
    key sizes. *)
Lemma encrypted_frame_opens (k iv p c : list Z) :
  bytes k -> key_size_ok k = true -> is_block iv -> bytes p ->
  encryptAES aesEncryptBlock (inr iv) k p = Ok c ->
  decryptAES aesDecryptBlock k c = Ok p.
Proof.
  intros Hk Hs Hblock Hp.
  pose proof Hblock as [Hiv Hiv16].
  pose proof (padLength_range p) as Hpad.
  set (padded := p ++ repeat (padLength p) (Z.to_nat (padLength p))).
  set (n := Z.to_nat (len p / 16 + 1)).
  assert (Hdiv : 0 <= len p / 16) by (apply Z.div_pos; [apply len_nonneg | lia]).
  assert (Hlen : length padded = (16 * n)%nat).
  { pose proof (padded_length p) as H. fold padded in H. unfold n.
    unfold len in *. lia. }
  assert (Hbytes : bytes padded).
  { apply bytes_app. split; [assumption|]. apply bytes_repeat.
    unfold is_byte. lia. }
  destruct (cbcEncryptBlocks_blocks _ enc_block k Hk Hs n iv padded Hblock
              Hbytes Hlen) as [Hcb Hcl].
  assert (Hrem : Z.rem (Z.of_nat (16 * n)) 16 = 0).
  { rewrite Nat2Z.inj_mul. rewrite Z.mul_comm. apply Z.rem_mul. discriminate. }
  assert (Hquo : Z.to_nat (Z.of_nat (16 * n) / 16) = n).
  { rewrite Nat2Z.inj_mul, Z.mul_comm, Z.div_mul by discriminate.
    now rewrite Nat2Z.id. }
  unfold encryptAES, NewCipher. rewrite Hs. cbn [bind].
  rewrite pkcs7Pad_16. cbn [bind]. fold padded.
  unfold CryptBlocks, BlockSize, len. rewrite Hiv16, Hlen, Hrem.
  change (negb (Z.of_nat 16 =? 16)) with false.
  change (negb (0 =? 0)) with false.
  cbv iota. cbn [bind]. rewrite Hquo. intros [= <-].
  unfold decryptAES, NewCipher. rewrite Hs. cbn [bind].
  rewrite len_app. unfold BlockSize, len at 1 2. rewrite Hiv16, Hcl.
  destruct (Z.ltb_spec (Z.of_nat 16 + Z.of_nat (16 * n)) 16) as [E|E];
    [clear - E; lia|].
  rewrite (firstn_app_exact 16 iv) by assumption.
  rewrite (skipn_app_exact 16 iv) by assumption.
  unfold CryptBlocks, BlockSize, len. rewrite Hiv16, Hcl, Hrem.
  change (negb (Z.of_nat 16 =? 16)) with false.
  change (negb (0 =? 0)) with false.
  cbv iota. cbn [bind]. rewrite Hquo.
  rewrite (cbc_roundtrip _ _ enc_block dec_enc k Hk Hs n iv padded Hblock
             Hbytes Hlen).
  unfold padded. apply pkcs7Unpad_padded. exact Hpad.
Qed.

End AES.

Lemma encryptAES_shape_witness :
  (key_size_ok sampleKey = false ->
   forall rnd, exists msg, encryptAES xorCipher rnd sampleKey [104; 105] = Err msg)
  /\ (key_size_ok sampleKey = true ->
      forall e, encryptAES xorCipher (inl e) sampleKey [104; 105] = Err e)
  /\ (key_size_ok sampleKey = true ->
      forall iv, is_block iv ->
      exists body,
        encryptAES xorCipher (inr iv) sampleKey [104; 105] = Ok (iv ++ body)
        /\ bytes body
        /\ len body = 16 * (len [104; 105] / 16 + 1)).
Proof.
  apply (encryptAES_shape xorCipher xorCipher_blocks sampleKey [104; 105]);
    apply bytes_dec_true; reflexivity.
Defined.

Lemma decryptAES_never_panics_witness :
  (forall msg, decryptAES xorCipher sampleKey (sampleIV ++ sampleKey) <> Panic msg)
  /\ (forall p, decryptAES xorCipher sampleKey (sampleIV ++ sampleKey) = Ok p ->
                32 <= len (sampleIV ++ sampleKey)
                /\ len (sampleIV ++ sampleKey) mod 16 = 0
                /\ len (sampleIV ++ sampleKey) - 32 <= len p
                   <= len (sampleIV ++ sampleKey) - 17).
Proof.
  apply (decryptAES_never_panics xorCipher xorCipher_blocks sampleKey
           (sampleIV ++ sampleKey));
    apply bytes_dec_true; reflexivity.
Defined.

End CryptoMore.

(* ================================================================== *)
(** ** More properties of the STUN client *)
(* ================================================================== *)

Module StunMore.
Import Stun StunCodec Samples MoreSamples CryptoFacts StunFacts.

Lemma reslice_in_capacity s lo hi :
  0 <= lo <= hi -> hi <= cap s ->
  exists t, reslice s lo hi = Ok t
            /\ len (elems t) = hi - lo
            /\ cap t = cap s - lo
            /\ (backed s -> backed t).
Proof.
  intros Hlo Hhi. unfold reslice.
  destruct (Z.ltb_spec lo 0); [lia|]. destruct (Z.ltb_spec hi lo); [lia|].
  destruct (Z.ltb_spec (cap s) hi); [lia|]. cbn [orb].
  eexists. split; [reflexivity|].
  assert (Hc : length (elems s ++ spare s) = Z.to_nat (cap s)).
  { unfold cap, len. rewrite length_app. lia. }
  unfold cap at 1. cbn [elems spare]. unfold len.
  rewrite length_firstn, !length_skipn, Hc. repeat split; try lia.
  unfold backed. cbn [elems spare]. intros Hb.
  replace (Z.to_nat hi) with (Z.to_nat (hi - lo) + Z.to_nat lo)%nat by lia.
  rewrite <- skipn_skipn, firstn_skipn. now apply bytes_skipn.
Qed.

Lemma index_in_length s i :
  0 <= i < len (elems s) -> index s i = Ok (nth (Z.to_nat i) (elems s) 0).
Proof.
  intros H. unfold index.
  destruct (Z.ltb_spec i 0); [lia|].
  destruct (Z.leb_spec (len (elems s)) i); [lia|]. reflexivity.
Qed.

Lemma backed_elems s : backed s -> bytes (elems s).
Proof. unfold backed. intros H. now apply bytes_app in H. Qed.

Lemma bytesToUint16_of_two b :
  2 <= len (elems b) -> bytes (elems b) ->
  exists v, bytesToUint16 b = Ok v /\ 0 <= v.
Proof.
  intros Hl Hb. unfold bytesToUint16.
  rewrite !index_in_length by lia. cbn [bind]. eexists. split; [reflexivity|].
  apply Z.lor_nonneg. split; [apply Z.mod_pos_bound; lia|].
  assert (is_byte (nth (Z.to_nat 1) (elems b) 0)) as B; [|apply B].
  unfold bytes in Hb. rewrite Forall_forall in Hb. apply Hb, nth_In.
  unfold len in Hl. lia.
Qed.

Lemma xorMappedAddress_in_capacity av ip port :
  backed av -> (4 <= len (elems av) -> 8 <= cap av) ->
  forall msg, xorMappedAddress av ip port <> Panic msg.
Proof.
  intros Hb Hc msg. unfold xorMappedAddress.
  destruct (Z.geb_spec (len (elems av)) 4) as [G|G]; [|discriminate].
  specialize (Hc G).
  rewrite index_in_length by lia. cbn [bind].
  destruct (_ =? 1); [|discriminate].
  destruct (reslice_in_capacity av 2 4 ltac:(lia) ltac:(lia))
    as (pb & -> & Lpb & _ & Bpb). cbn [bind].
  destruct (bytesToUint16_of_two pb ltac:(lia) (backed_elems _ (Bpb Hb)))
    as (xp & -> & _). cbn [bind].
  destruct (reslice_in_capacity av 4 8 ltac:(lia) ltac:(lia))
    as (xi & -> & Lxi & _ & _). cbn [bind].
  rewrite !index_in_length by lia. cbn [bind]. discriminate.
Qed.

Lemma attributeTurn_in_capacity data s e ip port :
  backed data -> 0 <= s -> e <= len (elems data) ->
  len (elems data) + 4 <= cap data ->
  forall msg, attributeTurn data s e ip port <> Panic msg.
Proof.
  intros Hb Hs He Hc msg. unfold attributeTurn.
  destruct (Z.ltb_spec s e); cbn [negb]; [|discriminate].
  destruct (Z.gtb_spec (s + 4) e); [discriminate|].
  destruct (reslice_in_capacity data s (s + 2) ltac:(lia) ltac:(lia))
    as (tb & -> & Ltb & _ & Btb). cbn [bind].
  destruct (bytesToUint16_of_two tb ltac:(lia) (backed_elems _ (Btb Hb)))
    as (ty & -> & _). cbn [bind].
  destruct (reslice_in_capacity data (s + 2) (s + 4) ltac:(lia) ltac:(lia))
    as (lb & -> & Llb & _ & Blb). cbn [bind].
  destruct (bytesToUint16_of_two lb ltac:(lia) (backed_elems _ (Blb Hb)))
    as (al & -> & Hal). cbn [bind].
  destruct (Z.gtb_spec (s + 4 + al) e); [discriminate|].
  destruct (reslice_in_capacity data (s + 4) (s + 4 + al) ltac:(lia) ltac:(lia))
    as (av & -> & Lav & Cav & Bav). cbn [bind].
  destruct (ty =? 32).
  - destruct (xorMappedAddress av ip port) as [found| |] eqn:X; cbn [bind];
      try discriminate.
    exfalso. revert X. apply xorMappedAddress_in_capacity; [now apply Bav|lia].
  - cbn [bind]. discriminate.
Qed.

Lemma parseAttributes_in_capacity data e :
  backed data -> e <= len (elems data) ->
  len (elems data) + 4 <= cap data ->
  forall fuel s ip port msg, 0 <= s ->
    parseAttributes fuel data s e ip port <> Panic msg.
Proof.
  intros Hb He Hc. induction fuel as [|fuel IH]; intros s ip port msg Hs;
    cbn [parseAttributes]; [discriminate|].
  destruct (attributeTurn data s e ip port) as [[|s' ip' port']| |] eqn:T;
    cbn [bind]; try discriminate.
  - apply IH. apply attributeTurn_advances in T; [lia|exact Hb].
  - exfalso. revert T. now apply attributeTurn_in_capacity.
Qed.

Lemma parseSTUNResponse_in_capacity data :
  backed data -> 4 <= len (spare data) ->
  forall msg, parseSTUNResponse data <> Panic msg.
Proof.
  intros Hb Hc msg. unfold parseSTUNResponse.
  destruct (Z.ltb_spec (len (elems data)) STUNHeaderLength) as [S|S];
    [discriminate|]. unfold STUNHeaderLength in *.
  assert (Hcap : len (elems data) + 4 <= cap data) by (unfold cap; lia).
  destruct (reslice_in_capacity data 0 2 ltac:(lia) ltac:(lia))
    as (tb & -> & Ltb & _ & Btb). cbn [bind].
  destruct (bytesToUint16_of_two tb ltac:(lia) (backed_elems _ (Btb Hb)))
    as (ty & -> & _). cbn [bind].
  destruct (negb _); [discriminate|].
  destruct (reslice_in_capacity data 2 4 ltac:(lia) ltac:(lia))
    as (lb & -> & Llb & _ & Blb). cbn [bind].
  destruct (bytesToUint16_of_two lb ltac:(lia) (backed_elems _ (Blb Hb)))
    as (ml & -> & Hml). cbn [bind].
  destruct (Z.ltb_spec (len (elems data)) (20 + ml)); [discriminate|].
  destruct (parseAttributes _ data 20 (20 + ml) EmptyString 0) as [found| |] eqn:P;
    cbn [bind].
  - destruct (String.eqb _ _); discriminate.
  - discriminate.
  - exfalso. revert P. apply parseAttributes_in_capacity; try assumption; lia.
Qed.

Lemma responseSlice_in_capacity datagram :
  bytes datagram -> len datagram <= 1020 ->
  backed (responseSlice datagram) /\ 4 <= len (spare (responseSlice datagram)).
Proof.
  intros Hb Hl. split.
  - unfold backed, responseSlice. cbn [elems spare]. apply bytes_app. split.
    + now apply bytes_firstn.
    + apply bytes_repeat. unfold is_byte. lia.
  - unfold responseSlice. cbn [spare]. unfold len in *.
    rewrite repeat_length, length_firstn. lia.
Qed.

(** Property X6.  sendSTUNRequest never panics on a datagram of at most
    1020 bytes: the parser reads at most four bytes past the end of the
    response, and the buffer of 1024 bytes backs them. *)
Theorem sendSTUNRequest_safe_below_1021 (x : Exchange) :
  (forall datagram, readResult x = inr datagram ->
                    bytes datagram /\ len datagram <= 1020) ->
  forall msg, sendSTUNRequest x <> Panic msg.
Proof.
  intros H msg. unfold sendSTUNRequest.
  destruct (resolveErr x); [discriminate|].
  destruct (dialErr x); [discriminate|].
  destruct (randErr x); [discriminate|].
  destruct (writeErr x); [discriminate|].
  destruct (readResult x) as [e|d]; [discriminate|].
  destruct (H d eq_refl) as [Hb Hl].
  now apply parseSTUNResponse_in_capacity; apply responseSlice_in_capacity.
Qed.

Lemma land_shifted_small h lo k :
  0 <= k -> 0 <= lo < 2 ^ k -> Z.land (h * 2 ^ k) lo = 0.
Proof.
  intros Hk Hlo. apply Z.bits_inj'. intros i Hi.
  rewrite Z.land_spec, Z.bits_0.
  destruct (Z.lt_ge_cases i k) as [L|L].
  - now rewrite Z.mul_pow2_bits_low.
  - replace lo with (lo mod 2 ^ k) by (apply Z.mod_small; lia).
    rewrite Z.mod_pow2_bits_high by lia. apply andb_false_r.
Qed.

Lemma lor_shifted_small h lo k :
  0 <= k -> 0 <= lo < 2 ^ k -> Z.lor (h * 2 ^ k) lo = h * 2 ^ k + lo.
Proof.
  intros Hk Hlo. pose proof (Z.add_lor_land (h * 2 ^ k) lo) as E.
  rewrite land_shifted_small in E by assumption. lia.
Qed.

Lemma uint16_of_bytes a b : is_byte a -> is_byte b ->
  Z.lor (Z.shiftl a 8 mod 65536) b = a * 256 + b.
Proof.
  unfold is_byte. intros Ha Hb. rewrite Z.shiftl_mul_pow2 by lia.
  rewrite Z.mod_small by lia. now apply (lor_shifted_small a b 8).
Qed.

Lemma uint32_of_bytes a b c d : is_byte a -> is_byte b -> is_byte c -> is_byte d ->
  Z.lor (Z.lor (Z.lor (Z.shiftl a 24 mod 2 ^ 32) (Z.shiftl b 16 mod 2 ^ 32))
               (Z.shiftl c 8 mod 2 ^ 32)) d
  = ((a * 256 + b) * 256 + c) * 256 + d.
Proof.
  unfold is_byte. intros Ha Hb Hc Hd. rewrite !Z.shiftl_mul_pow2 by lia.
  rewrite !Z.mod_small by lia.
  rewrite (lor_shifted_small a (b * 2 ^ 16) 24) by lia.
  replace (a * 2 ^ 24 + b * 2 ^ 16) with ((a * 256 + b) * 2 ^ 16) by lia.
  rewrite (lor_shifted_small _ (c * 2 ^ 8) 16) by lia.
  replace ((a * 256 + b) * 2 ^ 16 + c * 2 ^ 8)
    with (((a * 256 + b) * 256 + c) * 2 ^ 8) by lia.
  rewrite (lor_shifted_small _ d 8) by lia. lia.
Qed.

Lemma uint16ToBytes_digits n :
  uint16ToBytes n = [(n / 256) mod 256; n mod 256].
Proof. unfold uint16ToBytes, byte. now rewrite Z.shiftr_div_pow2 by lia. Qed.

Lemma uint32ToBytes_digits n :
  uint32ToBytes n
  = [(n / 2 ^ 24) mod 256; (n / 2 ^ 16) mod 256; (n / 2 ^ 8) mod 256; n mod 256].
Proof. unfold uint32ToBytes, byte. now rewrite !Z.shiftr_div_pow2 by lia. Qed.

Lemma bytesToUint16_cons a b rest sp :
  bytesToUint16 (mkSlice (a :: b :: rest) sp)
  = Ok (Z.lor (Z.shiftl a 8 mod 65536) b).
Proof.
  unfold bytesToUint16. rewrite !index_in_length by (cbn [elems]; unfold len; cbn [length]; lia).
  reflexivity.
Qed.

Lemma bytesToUint32_cons a b c d rest sp :
  bytesToUint32 (mkSlice (a :: b :: c :: d :: rest) sp)
  = Ok (Z.lor (Z.lor (Z.lor (Z.shiftl a 24 mod 2 ^ 32) (Z.shiftl b 16 mod 2 ^ 32))
                     (Z.shiftl c 8 mod 2 ^ 32)) d).
Proof.
  unfold bytesToUint32. rewrite !index_in_length by (cbn [elems]; unfold len; cbn [length]; lia).
  reflexivity.
Qed.

Lemma bytesToUint16_uint16ToBytes n rest sp :
  0 <= n < 65536 ->
  bytesToUint16 (mkSlice (uint16ToBytes n ++ rest) sp) = Ok n.
Proof.
  intros Hn. rewrite uint16ToBytes_digits. cbn [app].
  rewrite bytesToUint16_cons. f_equal.
  rewrite uint16_of_bytes by (unfold is_byte; apply Z.mod_pos_bound; lia).
  rewrite (Z.mod_small (n / 256)) by (split; [apply Z.div_pos; lia|apply Z.div_lt_upper_bound; lia]).
  pose proof (Z.div_mod n 256 ltac:(lia)). lia.
Qed.

(** Property X7.  bytesToUint16 undoes uint16ToBytes on every 16-bit
    value, and uint16ToBytes undoes bytesToUint16 on every pair of
    bytes. *)
Theorem uint16_codec_roundtrip (n a b : Z) :
  0 <= n < 65536 -> is_byte a -> is_byte b ->
  bytesToUint16 (exact (uint16ToBytes n)) = Ok n
  /\ exists v, bytesToUint16 (exact [a; b]) = Ok v
               /\ 0 <= v < 65536
               /\ uint16ToBytes v = [a; b].
Proof.
  intros Hn Ha Hb. split.
  - unfold exact. rewrite <- (app_nil_r (uint16ToBytes n)).
    now apply bytesToUint16_uint16ToBytes.
  - unfold exact. rewrite bytesToUint16_cons, uint16_of_bytes by assumption.
    unfold is_byte in *. eexists. split; [reflexivity|]. split; [lia|].
    rewrite uint16ToBytes_digits.
    replace ((a * 256 + b) / 256) with a
      by (apply Z.div_unique with b; lia).
    rewrite (Z.mod_small a) by lia.
    replace ((a * 256 + b) mod 256) with b
      by (apply Z.mod_unique with a; lia).
    reflexivity.
Qed.

(** Property X8.  bytesToUint32 undoes uint32ToBytes on every 32-bit
    value, and uint32ToBytes undoes bytesToUint32 on every four bytes. *)
Theorem uint32_codec_roundtrip (n a b c d : Z) :
  0 <= n < 2 ^ 32 -> is_byte a -> is_byte b -> is_byte c -> is_byte d ->
  bytesToUint32 (exact (uint32ToBytes n)) = Ok n
  /\ exists v, bytesToUint32 (exact [a; b; c; d]) = Ok v
               /\ 0 <= v < 2 ^ 32
               /\ uint32ToBytes v = [a; b; c; d].
Proof.
  intros Hn Ha Hb Hc Hd. split.
  - unfold exact. rewrite uint32ToBytes_digits, bytesToUint32_cons. f_equal.
    rewrite uint32_of_bytes by (unfold is_byte; apply Z.mod_pos_bound; lia).
    change (2 ^ 24) with (256 * (256 * 256)). change (2 ^ 16) with (256 * 256).
    change (2 ^ 8) with 256. change (2 ^ 32) with (256 * 256 * 256 * 256) in Hn.
    rewrite <- !Z.div_div by lia.
    pose proof (Z.div_mod n 256 ltac:(lia)).
    pose proof (Z.div_mod (n / 256) 256 ltac:(lia)).
    pose proof (Z.div_mod (n / 256 / 256) 256 ltac:(lia)).
    assert (0 <= n / 256 / 256 / 256 < 256).
    { split; [repeat apply Z.div_pos; lia|].
      repeat apply Z.div_lt_upper_bound; lia. }
    rewrite (Z.mod_small (n / 256 / 256 / 256)) by lia. lia.
  - unfold exact. rewrite bytesToUint32_cons, uint32_of_bytes by assumption.
    unfold is_byte in *. eexists. split; [reflexivity|].
    change (2 ^ 32) with (256 * 256 * 256 * 256). split; [nia|].
    rewrite uint32ToBytes_digits.
    change (2 ^ 24) with (256 * (256 * 256)). change (2 ^ 16) with (256 * 256).
    change (2 ^ 8) with 256. rewrite <- !Z.div_div by lia.
    set (v2 := (a * 256 + b) * 256 + c).
    set (v1 := a * 256 + b).
    assert (E3 : (v2 * 256 + d) / 256 = v2)
      by (symmetry; apply Z.div_unique with d; lia).
    assert (E2 : v2 / 256 = v1)
      by (symmetry; apply Z.div_unique with c; subst v2 v1; lia).
    assert (E1 : v1 / 256 = a)
      by (symmetry; apply Z.div_unique with b; subst v1; lia).
    rewrite E3, E2, E1.
    rewrite (Z.mod_small a) by lia.
    replace (v1 mod 256) with b
      by (apply Z.mod_unique with a; subst v1; lia).
    replace (v2 mod 256) with c
      by (apply Z.mod_unique with v1; subst v2 v1; lia).
    replace ((v2 * 256 + d) mod 256) with d
      by (apply Z.mod_unique with v2; lia).
    reflexivity.
Qed.


Lemma reslice_explicit s lo hi :
  0 <= lo <= hi -> hi <= cap s ->
  reslice s lo hi
  = Ok (mkSlice (firstn (Z.to_nat (hi - lo))
                        (skipn (Z.to_nat lo) (elems s ++ spare s)))
                (skipn (Z.to_nat hi) (elems s ++ spare s))).
Proof.
  intros Hlo Hhi. unfold reslice.
  destruct (Z.ltb_spec lo 0); [lia|]. destruct (Z.ltb_spec hi lo); [lia|].
  destruct (Z.ltb_spec (cap s) hi); [lia|]. reflexivity.
Qed.

Lemma ipv4String_not_empty b : String.eqb (ipv4String b) EmptyString = false.
Proof. unfold ipv4String. now destruct (itoa (nth 0 b 0)). Qed.

Lemma lxor_twice a c : Z.lxor (Z.lxor a c) c = a.
Proof. now rewrite Z.lxor_assoc, Z.lxor_nilpotent, Z.lxor_0_r. Qed.

Lemma lxor_uint16 a b : 0 <= a < 65536 -> 0 <= b < 65536 -> 0 <= Z.lxor a b < 65536.
Proof.
  intros [Ha Ha'] [Hb Hb']. split.
  - apply Z.lxor_nonneg. tauto.
  - destruct (Z.eq_dec (Z.lxor a b) 0) as [->|Hn]; [lia|].
    assert (0 <= Z.lxor a b) by (apply Z.lxor_nonneg; tauto).
    change 65536 with (2 ^ 16). apply Z.log2_lt_pow2; [lia|].
    pose proof (Z.log2_lxor a b Ha Hb).
    assert (Z.log2 a < 16).
    { destruct (Z.eq_dec a 0) as [->|]; [reflexivity|]. apply Z.log2_lt_pow2; lia. }
    assert (Z.log2 b < 16).
    { destruct (Z.eq_dec b 0) as [->|]; [reflexivity|]. apply Z.log2_lt_pow2; lia. }
    lia.
Qed.

Ltac eval_slices :=
  repeat match goal with
  | |- context [firstn ?n ?l] =>
      let v := eval cbv in (firstn n l) in change (firstn n l) with v
  | |- context [skipn ?n ?l] =>
      let v := eval cbv in (skipn n l) in change (skipn n l) with v
  end.

Ltac eval_guard :=
  match goal with
  | |- context [if ?c then _ else _] =>
      let v := eval vm_compute in c in
      match v with
      | true => change c with true
      | false => change c with false
      end
  end; cbv iota.

Ltac take_slice :=
  rewrite reslice_explicit
    by (unfold cap; cbn [elems spare]; unfold len; cbn [length]; lia);
  cbn [bind elems spare app]; eval_slices.

Lemma parse_single_attribute hdr r ph pl x0 x1 x2 x3 sp :
  length hdr = 16%nat ->
  parseSTUNResponse
    (mkSlice ([1; 1; 0; 12] ++ hdr
              ++ [0; 32; 0; 8; r; 1; ph; pl; x0; x1; x2; x3]) sp)
  = Ok (ipv4String [Z.lxor x0 33; Z.lxor x1 18; Z.lxor x2 164; Z.lxor x3 66],
        Z.lxor (Z.lor (Z.shiftl ph 8 mod 65536) pl) 8466).
Proof.
  intros Hh.
  do 16 (destruct hdr as [|? hdr]; [discriminate|]).
  destruct hdr; [|discriminate]. clear Hh.
  cbn [app]. unfold parseSTUNResponse. cbn [elems].
  eval_guard.
  take_slice. rewrite bytesToUint16_cons. cbn [bind]. eval_guard.
  take_slice. rewrite bytesToUint16_cons. cbn [bind].
  change (Z.lor (Z.shiftl 0 8 mod 65536) 12) with 12.
  eval_guard.
  change (Z.to_nat 12) with 12%nat.
  change (STUNHeaderLength + 12) with 32. change STUNHeaderLength with 20.
  cbn [parseAttributes]. unfold attributeTurn at 1.
  eval_guard. eval_guard.
  change (20 + 2) with 22. change (20 + 4) with 24.
  take_slice. rewrite bytesToUint16_cons. cbn [bind].
  take_slice. rewrite bytesToUint16_cons. cbn [bind].
  change (Z.lor (Z.shiftl 0 8 mod 65536) 8) with 8.
  change (Z.lor (Z.shiftl 0 8 mod 65536) 32) with 32.
  eval_guard. change (24 + 8) with 32.
  take_slice. eval_guard.
  unfold xorMappedAddress. cbn [elems]. eval_guard.
  rewrite index_in_length by (cbn [elems]; unfold len; cbn [length]; lia).
  cbn [elems bind]. change (nth (Z.to_nat 1) _ 0) with 1. eval_guard.
  take_slice. rewrite bytesToUint16_cons. cbn [bind].
  take_slice.
  rewrite !index_in_length by (cbn [elems]; unfold len; cbn [length]; lia).
  cbn [elems bind].
  change (nth (Z.to_nat 0) [x0; x1; x2; x3] 0) with x0.
  change (nth (Z.to_nat 1) [x0; x1; x2; x3] 0) with x1.
  change (nth (Z.to_nat 2) [x0; x1; x2; x3] 0) with x2.
  change (nth (Z.to_nat 3) [x0; x1; x2; x3] 0) with x3.
  change (nth 0 (uint32ToBytes STUNMAGIC_COOKIE) 0) with 33.
  change (nth 1 (uint32ToBytes STUNMAGIC_COOKIE) 0) with 18.
  change (nth 2 (uint32ToBytes STUNMAGIC_COOKIE) 0) with 164.
  change (nth 3 (uint32ToBytes STUNMAGIC_COOKIE) 0) with 66.
  change (Z.shiftr STUNMAGIC_COOKIE 16) with 8466.
  cbn [fst snd]. eval_guard.
  unfold attributeTurn. eval_guard. cbn [bind].
  cbn [fst]. now rewrite ipv4String_not_empty.
Qed.

(** Property X9.  From a binding response with one XOR-MAPPED-ADDRESS
    attribute, parseSTUNResponse returns the IPv4 address in dotted form
    and the port that the server encoded, whatever the sixteen bytes of
    cookie and transaction id are and whatever follows in the buffer. *)
Theorem parseSTUNResponse_recovers_address
        (cookieAndID : list Z) (a0 a1 a2 a3 port : Z) (sp : list Z) :
  length cookieAndID = 16%nat ->
  is_byte a0 -> is_byte a1 -> is_byte a2 -> is_byte a3 ->
  0 <= port < 65536 ->
  parseSTUNResponse
    (mkSlice (bindingResponse cookieAndID [a0; a1; a2; a3] port) sp)
  = Ok (ipv4String [a0; a1; a2; a3], port).
Proof.
  intros Hh B0 B1 B2 B3 Hp. unfold bindingResponse.
  change (uint16ToBytes STUNBindingResponse) with [1; 1].
  change (uint16ToBytes 12) with [0; 12].
  change (uint16ToBytes 32) with [0; 32].
  change (uint16ToBytes 8) with [0; 8].
  change (Z.shiftr STUNMAGIC_COOKIE 16) with 8466.
  change (uint32ToBytes STUNMAGIC_COOKIE) with [33; 18; 164; 66].
  cbn [Crypto.xorBytes]. unfold uint16ToBytes at 1.
  match goal with
  | |- context [[0; 1] ++ [?ph; ?pl] ++ [?x0; ?x1; ?x2; ?x3]] =>
      pose proof (parse_single_attribute cookieAndID 0 ph pl x0 x1 x2 x3 sp Hh)
        as P
  end.
  cbn [app] in P |- *. rewrite P. clear P.
  rewrite !lxor_twice. f_equal. f_equal.
  pose proof (lxor_uint16 port 8466 Hp ltac:(lia)) as Hq.
  set (q := Z.lxor port 8466) in *.
  unfold byte. rewrite Z.shiftr_div_pow2 by lia.
  rewrite uint16_of_bytes by (unfold is_byte; apply Z.mod_pos_bound; lia).
  rewrite (Z.mod_small (q / 2 ^ 8))
    by (split; [apply Z.div_pos; lia|apply Z.div_lt_upper_bound; lia]).
  replace (q / 2 ^ 8 * 256 + q mod 256) with q
    by (pose proof (Z.div_mod q 256 ltac:(lia)); change (2 ^ 8) with 256; lia).
  apply lxor_twice.
Qed.


(** Property X10.  The request that sendSTUNRequest writes is a header
    of 20 bytes from which the type, the length 0, the magic cookie and
    the transaction id read back; sent back unchanged, it is refused by
    the parser as not being a binding response. *)
Theorem bindingRequest_layout (transactionID sp : list Z) :
  length transactionID = 12%nat ->
  let msg := mkSlice (bindingRequest transactionID) sp in
  len (elems msg) = STUNHeaderLength
  /\ (b <- reslice msg 0 2 ;; bytesToUint16 b) = Ok STUNBindingRequest
  /\ (b <- reslice msg 2 4 ;; bytesToUint16 b) = Ok 0
  /\ (b <- reslice msg 4 8 ;; bytesToUint32 b) = Ok STUNMAGIC_COOKIE
  /\ skipn 8 (elems msg) = transactionID
  /\ parseSTUNResponse msg = Err "invalid STUN response type".
Proof.
  intros Hl msg. subst msg. unfold bindingRequest.
  change (uint16ToBytes STUNBindingRequest) with [0; 1].
  change (uint16ToBytes 0) with [0; 0].
  change (uint32ToBytes STUNMAGIC_COOKIE) with [33; 18; 164; 66].
  cbn [app elems].
  assert (L : len (0 :: 1 :: 0 :: 0 :: 33 :: 18 :: 164 :: 66 :: transactionID) = 20)
    by (unfold len; cbn [length]; rewrite Hl; reflexivity).
  split; [exact L|].
  assert (C : forall hi, hi <= 20 ->
            hi <= cap (mkSlice (0 :: 1 :: 0 :: 0 :: 33 :: 18 :: 164 :: 66 :: transactionID) sp)).
  { intros hi Hhi. unfold cap. cbn [elems spare]. rewrite L.
    pose proof (len_nonneg sp). lia. }
  repeat split.
  - rewrite reslice_explicit by (try apply C; lia).
    cbn [bind elems spare app]. eval_slices. now rewrite bytesToUint16_cons.
  - rewrite reslice_explicit by (try apply C; lia).
    cbn [bind elems spare app]. eval_slices. now rewrite bytesToUint16_cons.
  - rewrite reslice_explicit by (try apply C; lia).
    cbn [bind elems spare app]. eval_slices. now rewrite bytesToUint32_cons.
  - apply parseSTUNResponse_wrong_type; [rewrite L; reflexivity|discriminate].
Qed.


Lemma sendSTUNRequest_safe_below_1021_witness :
  match sendSTUNRequest (answered truncatedResponse) with
  | Panic _ => False
  | _ => True
  end.
Proof.
  assert (Hsize : forall datagram,
             readResult (answered truncatedResponse) = inr datagram ->
             bytes datagram /\ len datagram <= 1020).
  { intros datagram [= <-]. split; [apply bytes_dec_true; reflexivity|].
    vm_compute. discriminate. }
  pose proof (sendSTUNRequest_safe_below_1021 (answered truncatedResponse) Hsize)
    as H.
  destruct (sendSTUNRequest (answered truncatedResponse)) as [found|e|msg];
    [exact I|exact I|exact (H msg eq_refl)].
Defined.

Lemma uint16_codec_roundtrip_witness :
  bytesToUint16 (exact (uint16ToBytes 8466)) = Ok 8466
  /\ exists v, bytesToUint16 (exact [161; 71]) = Ok v
               /\ 0 <= v < 65536
               /\ uint16ToBytes v = [161; 71].
Proof.
  apply (uint16_codec_roundtrip 8466 161 71); unfold is_byte; lia.
Defined.

Lemma uint32_codec_roundtrip_witness :
  bytesToUint32 (exact (uint32ToBytes STUNMAGIC_COOKIE)) = Ok STUNMAGIC_COOKIE
  /\ exists v, bytesToUint32 (exact [33; 18; 164; 66]) = Ok v
               /\ 0 <= v < 2 ^ 32
               /\ uint32ToBytes v = [33; 18; 164; 66].
Proof.
  apply (uint32_codec_roundtrip STUNMAGIC_COOKIE 33 18 164 66);
    unfold is_byte, STUNMAGIC_COOKIE; lia.
Defined.

Lemma parseSTUNResponse_recovers_address_witness :
  parseSTUNResponse (responseSlice goodResponse)
  = Ok ("203.0.113.7"%string, 40000).
Proof.
  apply (parseSTUNResponse_recovers_address
           (uint32ToBytes STUNMAGIC_COOKIE ++ repeat 7 12) 203 0 113 7 40000
           (repeat 0 992));
    try (unfold is_byte; lia); reflexivity.
Defined.

Lemma bindingRequest_layout_witness :
  let msg := mkSlice (bindingRequest (repeat 7 12)) [] in
  len (elems msg) = STUNHeaderLength
  /\ (b <- reslice msg 0 2 ;; bytesToUint16 b) = Ok STUNBindingRequest
  /\ (b <- reslice msg 2 4 ;; bytesToUint16 b) = Ok 0
  /\ (b <- reslice msg 4 8 ;; bytesToUint32 b) = Ok STUNMAGIC_COOKIE
  /\ skipn 8 (elems msg) = repeat 7 12
  /\ parseSTUNResponse msg = Err "invalid STUN response type".
Proof. apply (bindingRequest_layout (repeat 7 12) []). reflexivity. Defined.

End StunMore.

(* ================================================================== *)
(** ** More properties of the SuperNode manager *)
(* ================================================================== *)

Module SuperNodeMore.
Import SuperNode Table Samples MoreSamples SuperNodeFacts.

Lemma locked_modify (f : SuperNodeManager -> SuperNodeManager) sm :
  mu sm = Unlocked ->
  (forall m s, f (set_mu m s) = set_mu m (f s)) ->
  locked (modify f) sm = Returns tt (f sm).
Proof.
  intros Hmu Hf. unfold locked, mbind, Lock, Unlock, modify, ret. rewrite Hmu.
  rewrite Hf. cbn [mu set_mu]. f_equal.
  rewrite set_mu_twice. rewrite <- Hmu, <- Hf. now rewrite set_mu_same.
Qed.

Lemma SetAsSuperNode_unlocked now nodeID sm :
  mu sm = Unlocked ->
  SetAsSuperNode now nodeID sm
  = Returns tt
      match indexOfID nodeID (supernodes sm) 0 with
      | Some i => set_supernodes (updateAt i (promote now) (supernodes sm)) sm
      | None => sm
      end.
Proof.
  intros Hmu. unfold SetAsSuperNode. rewrite locked_modify; [reflexivity|exact Hmu|].
  intros m s. cbn [supernodes set_mu]. now destruct (indexOfID _ _ _).
Qed.

Lemma RemoveNode_unlocked nodeID sm :
  mu sm = Unlocked ->
  RemoveNode nodeID sm
  = Returns tt
      match indexOfID nodeID (supernodes sm) 0 with
      | Some i => set_supernodes (removeAt i (supernodes sm)) sm
      | None => sm
      end.
Proof.
  intros Hmu. unfold RemoveNode. rewrite locked_modify; [reflexivity|exact Hmu|].
  intros m s. cbn [supernodes set_mu]. now destruct (indexOfID _ _ _).
Qed.

Lemma UpdateNodeActivity_unlocked now nodeID sm :
  mu sm = Unlocked ->
  UpdateNodeActivity now nodeID sm
  = Returns tt
      match indexOfID nodeID (supernodes sm) 0 with
      | Some i =>
          set_supernodes
            (updateAt i (fun sn => mkSuperNodeInfo (Node sn) (IsSuperNode sn) now)
               (supernodes sm)) sm
      | None => sm
      end.
Proof.
  intros Hmu. unfold UpdateNodeActivity.
  rewrite locked_modify; [reflexivity|exact Hmu|].
  intros m s. cbn [supernodes set_mu]. now destruct (indexOfID _ _ _).
Qed.

Lemma indexOfID_None nodeID l : forall k,
  indexOfID nodeID l k = None -> ~ In nodeID (ids l).
Proof.
  induction l as [|sn l IH]; intros k; cbn; [tauto|].
  destruct (String.eqb_spec (ID (Node sn)) nodeID) as [E|E]; [discriminate|].
  intros H [F|F]; [contradiction|]. exact (IH _ H F).
Qed.

Lemma indexOfID_find nodeID l : forall k,
  match indexOfID nodeID l k, find (hasID nodeID) l with
  | Some i, Some sn =>
      (k <= i)%nat /\ nth_error l (i - k) = Some sn
      /\ ~ In nodeID (ids (firstn (i - k) l))
  | None, None => True
  | _, _ => False
  end.
Proof.
  induction l as [|sn l IH]; intros k; cbn; [exact I|].
  change (hasID nodeID sn) with (String.eqb (ID (Node sn)) nodeID).
  destruct (String.eqb_spec (ID (Node sn)) nodeID) as [E|E].
  - rewrite Nat.sub_diag. cbn. repeat split; try lia; try tauto.
  - specialize (IH (S k)).
    destruct (indexOfID nodeID l (S k)) as [i|], (find (hasID nodeID) l) as [s|];
      try exact IH.
    destruct IH as (Hk & Hn & Hf).
    replace (i - k)%nat with (S (i - S k)) by lia. cbn.
    repeat split; try lia; [exact Hn|]. intros [F|F]; [contradiction|tauto].
Qed.

Lemma removeAt_ids {A} (f : A -> string) i (l : list A) :
  map f (removeAt i l) = removeAt i (map f l).
Proof. unfold removeAt. now rewrite map_app, firstn_map, skipn_map. Qed.

Lemma removeAt_In {A} (x : A) l : forall i, In x (removeAt i l) -> In x l.
Proof.
  unfold removeAt. induction l as [|y l IH]; intros i.
  - now rewrite firstn_nil, skipn_nil.
  - destruct i as [|i]; cbn; [tauto|]. intros [F|F]; [now left|right; eauto].
Qed.

Lemma NoDup_removeAt {A} i (l : list A) : NoDup l -> NoDup (removeAt i l).
Proof.
  revert i. induction l as [|x l IH]; intros i H.
  - unfold removeAt. now rewrite firstn_nil, skipn_nil.
  - inversion H as [|? ? Hx Hl]; subst. destruct i as [|i]; [exact Hl|].
    change (removeAt (S i) (x :: l)) with (x :: removeAt i l).
    constructor; [|now apply IH].
    intros F. apply Hx. now apply removeAt_In in F.
Qed.

Lemma added_ids now nodeInfo l :
  ids (added now nodeInfo l)
  = if existsb (hasID (ID nodeInfo)) l then ids l else ids l ++ [ID nodeInfo].
Proof.
  unfold added.
  pose proof (indexOfID_find (ID nodeInfo) l 0) as H.
  destruct (indexOfID (ID nodeInfo) l 0) as [i|] eqn:E,
           (find (hasID (ID nodeInfo)) l) as [s|] eqn:F; try contradiction.
  - replace (existsb _ l) with true.
    + now apply ids_updateAt.
    + symmetry. apply existsb_exists. exists s. apply find_some in F. exact F.
  - replace (existsb _ l) with false.
    + unfold ids. now rewrite map_app.
    + symmetry. apply not_true_is_false. intros X. apply existsb_exists in X.
      destruct X as (x & Hx & Hp). now apply (find_none _ _ F) in Hx; congruence.
Qed.

Lemma NoDup_added now nodeInfo l : NoDup (ids l) -> NoDup (ids (added now nodeInfo l)).
Proof.
  intros H. unfold added.
  destruct (indexOfID (ID nodeInfo) l 0) as [i|] eqn:E.
  - now rewrite ids_updateAt.
  - unfold ids. rewrite map_app. cbn.
    apply NoDup_app; repeat split; try assumption.
    + repeat constructor. tauto.
    + intros x Hx [<-|[]]. exact (indexOfID_None _ _ _ E Hx).
Qed.

(** Property X11.  AddNode, SetAsSuperNode, RemoveNode and
    UpdateNodeActivity, called in any order on a manager whose mutex is
    free and whose table holds every id once, all return and leave a
    table that holds every id once, with the mutex free. *)
Theorem table_ids_stay_unique (cs : list tableCall) (sm : SuperNodeManager) :
  mu sm = Unlocked -> NoDup (ids (supernodes sm)) ->
  exists sm', calls cs sm = Returns tt sm'
              /\ mu sm' = Unlocked
              /\ NoDup (ids (supernodes sm')).
Proof.
  revert sm. induction cs as [|c cs IH]; intros sm Hmu Hnd.
  - exists sm. now repeat split.
  - cbn [calls]. unfold mbind.
    assert (exists sm1, call c sm = Returns tt sm1 /\ mu sm1 = Unlocked
                        /\ NoDup (ids (supernodes sm1))) as (sm1 & -> & Hmu1 & Hnd1).
    { destruct c as [now n|now nodeID|nodeID|now nodeID]; cbn [call].
      - rewrite AddNode_unlocked by exact Hmu. eexists. split; [reflexivity|].
        cbn [mu supernodes set_supernodes]. split; [exact Hmu|now apply NoDup_added].
      - rewrite SetAsSuperNode_unlocked by exact Hmu. eexists. split; [reflexivity|].
        destruct (indexOfID _ _ _); cbn [mu supernodes set_supernodes];
          (split; [exact Hmu|]); [now rewrite ids_updateAt|exact Hnd].
      - rewrite RemoveNode_unlocked by exact Hmu. eexists. split; [reflexivity|].
        destruct (indexOfID _ _ _); cbn [mu supernodes set_supernodes];
          (split; [exact Hmu|]); [|exact Hnd].
        unfold ids. rewrite removeAt_ids. now apply NoDup_removeAt.
      - rewrite UpdateNodeActivity_unlocked by exact Hmu. eexists.
        split; [reflexivity|].
        destruct (indexOfID _ _ _); cbn [mu supernodes set_supernodes];
          (split; [exact Hmu|]); [now rewrite ids_updateAt|exact Hnd]. }
    now apply IH.
Qed.


Lemma GetNode_returns nodeID sm :
  mu sm = Unlocked ->
  GetNode nodeID sm = Returns (find (hasID nodeID) (supernodes sm)) sm.
Proof. intros Hmu. unfold GetNode. now rewrite rlocked_gets. Qed.

Lemma GetSuperNodes_returns now sm :
  mu sm = Unlocked ->
  GetSuperNodes now sm
  = Returns (filter (fun sn => active now sn && IsSuperNode sn) (supernodes sm)) sm.
Proof. intros Hmu. unfold GetSuperNodes. now rewrite rlocked_gets. Qed.

Lemma GetRegularNodes_returns now sm :
  mu sm = Unlocked ->
  GetRegularNodes now sm
  = Returns (map Node (filter (fun sn => active now sn && negb (IsSuperNode sn))
                         (supernodes sm))) sm.
Proof. intros Hmu. unfold GetRegularNodes. now rewrite rlocked_gets. Qed.

Lemma find_updateAt nodeID (f : SuperNodeInfo -> SuperNodeInfo) l :
  (forall sn, ID (Node (f sn)) = ID (Node sn)) ->
  forall k i, indexOfID nodeID l k = Some i ->
    find (hasID nodeID) (updateAt (i - k) f l)
    = option_map f (find (hasID nodeID) l).
Proof.
  intros Hf. induction l as [|sn l IH]; intros k i; cbn; [discriminate|].
  change (hasID nodeID sn) with (String.eqb (ID (Node sn)) nodeID).
  destruct (String.eqb (ID (Node sn)) nodeID) eqn:E.
  - intros [= <-]. rewrite Nat.sub_diag. cbn. unfold hasID. now rewrite Hf, E.
  - intros H. pose proof (indexOfID_find nodeID l (S k)) as G. rewrite H in G.
    destruct (find (hasID nodeID) l); [|contradiction]. destruct G as (Hk & _).
    replace (i - k)%nat with (S (i - S k)) by lia. cbn.
    change (hasID nodeID sn) with (String.eqb (ID (Node sn)) nodeID).
    rewrite E. now apply IH.
Qed.

Lemma find_app_last {A} (p : A -> bool) l x :
  find p l = None -> find p (l ++ [x]) = if p x then Some x else None.
Proof.
  induction l as [|y l IH]; cbn; [reflexivity|]. destruct (p y); [discriminate|exact IH].
Qed.

Lemma find_added now nodeInfo l :
  find (hasID (ID nodeInfo)) (added now nodeInfo l)
  = Some (entryAfterAdd now nodeInfo l).
Proof.
  unfold added, entryAfterAdd.
  pose proof (indexOfID_find (ID nodeInfo) l 0) as H.
  destruct (indexOfID (ID nodeInfo) l 0) as [i|] eqn:E,
           (find (hasID (ID nodeInfo)) l) as [old|] eqn:F; try contradiction.
  - rewrite <- (Nat.sub_0_r i) at 1.
    rewrite (find_updateAt (ID nodeInfo)
               (fun sn => mkSuperNodeInfo
                  (mkNodeInfo (ID (Node sn)) (Address nodeInfo)
                     (Nickname nodeInfo) (NoSuperNode nodeInfo))
                  (IsSuperNode sn) now) l (fun _ => eq_refl) 0%nat i E).
    rewrite F. cbn. apply find_some in F. destruct F as [_ F].
    unfold hasID in F. apply String.eqb_eq in F. rewrite F.
    now destruct nodeInfo.
  - rewrite find_app_last by exact F. unfold hasID. cbn. now rewrite String.eqb_refl.
Qed.

(** Property X12.  After AddNode, GetNode on the id of the node returns
    an entry that carries the announced node and the time of the call;
    its role is the one the node had before, and Regular for a node that
    was not in the table. *)
Theorem AddNode_then_GetNode (now : Z) (nodeInfo : NodeInfo) (sm : SuperNodeManager) :
  mu sm = Unlocked ->
  exists sm',
    (AddNode now nodeInfo ;;; GetNode (ID nodeInfo)) sm
    = Returns (Some (entryAfterAdd now nodeInfo (supernodes sm))) sm'
    /\ mu sm' = Unlocked.
Proof.
  intros Hmu. unfold mbind. rewrite AddNode_unlocked by exact Hmu.
  rewrite GetNode_returns by exact Hmu. cbn [supernodes set_supernodes].
  rewrite find_added. eexists. split; [reflexivity|exact Hmu].
Qed.

(** Property X13.  AddNode never demotes: a node that is recorded as
    SuperNode and is added again stays one, whatever it announces, its
    opt-out included, and GetSuperNodes at the time of the call lists
    it with the announced fields. *)
Theorem AddNode_keeps_a_relay (now : Z) (nodeInfo : NodeInfo)
        (sm : SuperNodeManager) (old : SuperNodeInfo) :
  mu sm = Unlocked ->
  find (hasID (ID nodeInfo)) (supernodes sm) = Some old ->
  IsSuperNode old = true ->
  exists relays sm',
    (AddNode now nodeInfo ;;; GetSuperNodes now) sm = Returns relays sm'
    /\ In (mkSuperNodeInfo nodeInfo true now) relays.
Proof.
  intros Hmu Hf Hr. unfold mbind. rewrite AddNode_unlocked by exact Hmu.
  rewrite GetSuperNodes_returns by exact Hmu. cbn [supernodes set_supernodes].
  eexists _, _. split; [reflexivity|]. apply filter_In. split.
  - pose proof (find_added now nodeInfo (supernodes sm)) as F.
    unfold entryAfterAdd in F. rewrite Hf, Hr in F. now apply find_some in F.
  - unfold active. cbn [LastActive IsSuperNode]. rewrite Z.sub_diag. reflexivity.
Qed.

Lemma In_ids x l : In x l -> In (ID (Node x)) (ids l).
Proof. intros H. unfold ids. exact (in_map (fun sn => ID (Node sn)) l x H). Qed.

Lemma filter_all {A} (p : A -> bool) l :
  (forall x, In x l -> p x = true) -> filter p l = l.
Proof.
  induction l as [|x l IH]; intros H; cbn; [reflexivity|].
  rewrite (H x) by now left. f_equal. apply IH. intros y Hy. apply H. now right.
Qed.

Lemma removeAt_filter nodeID l : NoDup (ids l) ->
  forall k i, indexOfID nodeID l k = Some i ->
    removeAt (i - k) l = filter (fun sn => negb (hasID nodeID sn)) l.
Proof.
  induction l as [|sn l IH]; intros Hnd k i; cbn; [discriminate|].
  inversion Hnd as [|? ? Hx Hl]; subst.
  change (hasID nodeID sn) with (String.eqb (ID (Node sn)) nodeID).
  destruct (String.eqb_spec (ID (Node sn)) nodeID) as [E|E]; cbn [negb].
  - intros [= <-]. rewrite Nat.sub_diag. unfold removeAt. cbn.
    symmetry. apply filter_all. intros x Hin. unfold hasID.
    destruct (String.eqb_spec (ID (Node x)) nodeID) as [E'|]; [|reflexivity].
    exfalso. apply Hx. rewrite E, <- E'. now apply In_ids.
  - intros H. pose proof (indexOfID_find nodeID l (S k)) as G. rewrite H in G.
    destruct (find (hasID nodeID) l); [|contradiction]. destruct G as (Hk & _).
    replace (i - k)%nat with (S (i - S k)) by lia.
    change (removeAt (S (i - S k)) (sn :: l)) with (sn :: removeAt (i - S k) l).
    f_equal. now apply IH.
Qed.

Lemma find_filter_out nodeID l :
  find (hasID nodeID) (filter (fun sn => negb (hasID nodeID sn)) l) = None.
Proof.
  induction l as [|sn l IH]; cbn; [reflexivity|].
  destruct (hasID nodeID sn) eqn:E; cbn; [exact IH|]. now rewrite E.
Qed.

(** Property X14.  On a table that holds every id once, RemoveNode
    removes the entries with the id and no others, and GetNode on the id
    then finds nothing. *)
Theorem RemoveNode_then_GetNode (nodeID : string) (sm : SuperNodeManager) :
  mu sm = Unlocked -> NoDup (ids (supernodes sm)) ->
  exists sm',
    (RemoveNode nodeID ;;; GetNode nodeID) sm = Returns None sm'
    /\ supernodes sm'
       = filter (fun sn => negb (hasID nodeID sn)) (supernodes sm).
Proof.
  intros Hmu Hnd. unfold mbind. rewrite RemoveNode_unlocked by exact Hmu.
  destruct (indexOfID nodeID (supernodes sm) 0) as [i|] eqn:E.
  - rewrite GetNode_returns by exact Hmu. cbn [supernodes set_supernodes].
    rewrite <- (Nat.sub_0_r i), (removeAt_filter _ _ Hnd _ _ E).
    rewrite find_filter_out. eexists. split; reflexivity.
  - rewrite GetNode_returns by exact Hmu.
    assert (F : filter (fun sn => negb (hasID nodeID sn)) (supernodes sm)
                = supernodes sm).
    { apply filter_all. intros x Hx. unfold hasID.
      destruct (String.eqb_spec (ID (Node x)) nodeID) as [<-|]; [|reflexivity].
      exfalso. apply (indexOfID_None _ _ _ E). now apply In_ids. }
    pose proof (indexOfID_find nodeID (supernodes sm) 0) as G. rewrite E in G.
    destruct (find (hasID nodeID) (supernodes sm)); [contradiction|].
    eexists. split; [reflexivity|]. now rewrite F.
Qed.

Lemma filter_split_length {A} (p q : A -> bool) l :
  (length (filter (fun x => p x && q x) l)
   + length (filter (fun x => p x && negb (q x)) l)
   = length (filter p l))%nat.
Proof.
  induction l as [|x l IH]; cbn; [reflexivity|].
  destruct (p x), (q x); cbn; lia.
Qed.

(** Property X15.  GetSuperNodes and GetRegularNodes leave the manager
    as it was and split the nodes heard of in the last thirty seconds:
    the first returns those recorded as SuperNode, the second the node
    records of the others, and together they count the active nodes. *)
Theorem listings_split_the_active_nodes (now : Z) (sm : SuperNodeManager) :
  mu sm = Unlocked ->
  exists relays regular,
    GetSuperNodes now sm = Returns relays sm
    /\ GetRegularNodes now sm = Returns regular sm
    /\ len relays + len regular = len (filter (active now) (supernodes sm))
    /\ (forall sn, In sn relays
                   <-> In sn (supernodes sm) /\ active now sn = true
                       /\ IsSuperNode sn = true)
    /\ (forall n, In n regular
                  <-> exists sn, In sn (supernodes sm) /\ Node sn = n
                                 /\ active now sn = true
                                 /\ IsSuperNode sn = false).
Proof.
  intros Hmu. rewrite GetSuperNodes_returns, GetRegularNodes_returns by exact Hmu.
  eexists _, _. split; [reflexivity|]. split; [reflexivity|]. repeat split.
  - unfold len. rewrite length_map, <- Nat2Z.inj_add. f_equal.
    apply filter_split_length.
  - now apply filter_In in H.
  - apply filter_In in H. destruct H as [_ H]. now apply andb_prop in H.
  - apply filter_In in H. destruct H as [_ H]. now apply andb_prop in H.
  - intros (Hin & Ha & Hr). apply filter_In. split; [exact Hin|]. now rewrite Ha, Hr.
  - intros H. apply in_map_iff in H. destruct H as (sn & <- & H).
    apply filter_In in H. destruct H as [Hin H]. apply andb_prop in H.
    destruct H as [Ha Hr]. exists sn. repeat split; try assumption.
    now destruct (IsSuperNode sn).
  - intros (sn & Hin & <- & Ha & Hr). apply in_map, filter_In.
    split; [exact Hin|]. now rewrite Ha, Hr.
Qed.

Lemma unique_by_id l a b :
  NoDup (ids l) -> In a l -> In b l -> ID (Node a) = ID (Node b) -> a = b.
Proof.
  induction l as [|x l IH]; intros Hnd Ha Hb E; [contradiction|].
  inversion Hnd as [|? ? Hx Hl]; subst.
  destruct Ha as [<-|Ha], Hb as [<-|Hb]; try reflexivity.
  - exfalso. apply Hx. rewrite E. now apply In_ids.
  - exfalso. apply Hx. rewrite <- E. now apply In_ids.
  - now apply IH.
Qed.

(** Property X16.  On a table that holds every id once, a node added
    at time [t] is listed at time [now], by GetSuperNodes or by
    GetRegularNodes, exactly when less than thirty seconds have passed
    since [t]. *)
Theorem announced_node_is_listed_for_30_seconds
        (t now : Z) (nodeInfo : NodeInfo) (sm : SuperNodeManager) :
  mu sm = Unlocked -> NoDup (ids (supernodes sm)) ->
  exists relays regular sm',
    (AddNode t nodeInfo ;;;
     relays <~ GetSuperNodes now ;;
     regular <~ GetRegularNodes now ;;
     ret (relays, regular)) sm = Returns (relays, regular) sm'
    /\ (In nodeInfo (map Node relays ++ regular) <-> now - t < 30 * Second).
Proof.
  intros Hmu Hnd. unfold mbind at 1. rewrite AddNode_unlocked by exact Hmu.
  set (sm1 := set_supernodes _ sm).
  assert (Hmu1 : mu sm1 = Unlocked) by exact Hmu.
  unfold mbind at 1. rewrite GetSuperNodes_returns by exact Hmu1.
  unfold mbind at 1. rewrite GetRegularNodes_returns by exact Hmu1.
  eexists _, _, _. split; [reflexivity|].
  pose proof (find_added t nodeInfo (supernodes sm)) as F.
  apply find_some in F. destruct F as [Fin _].
  pose proof (NoDup_added t nodeInfo _ Hnd) as Hnd1.
  set (e := entryAfterAdd t nodeInfo (supernodes sm)) in *.
  change (supernodes sm1) with (added t nodeInfo (supernodes sm)).
  assert (Hact : active now e = (now - t <? 30 * Second)) by reflexivity.
  assert (Listed : forall (p : SuperNodeInfo -> bool),
            In nodeInfo
               (map Node (filter (fun sn => active now sn && p sn)
                            (added t nodeInfo (supernodes sm)))) ->
            active now e = true).
  { intros p H. apply in_map_iff in H. destruct H as (sn & Hn & H).
    apply filter_In in H. destruct H as [Hin H]. apply andb_prop in H.
    destruct H as [Ha _].
    replace e with sn; [exact Ha|].
    apply (unique_by_id _ sn e Hnd1 Hin Fin). now rewrite Hn. }
  split.
  - intros H. apply Z.ltb_lt. rewrite <- Hact. apply in_app_or in H.
    destruct H as [H|H]; [exact (Listed _ H)|exact (Listed _ H)].
  - intros H. apply Z.ltb_lt in H. rewrite <- Hact in H. apply in_or_app.
    destruct (IsSuperNode e) eqn:R; [left|right];
      (change nodeInfo with (Node e); apply in_map, filter_In;
       split; [exact Fin|now rewrite H, R]).
Qed.



Lemma HandleNodeLeave_plain now nodeID sm :
  mu sm = Unlocked ->
  (forall sn, find (hasID nodeID) (supernodes sm) = Some sn ->
              IsSuperNode sn = true ->
              1 < len (filter (fun sn => IsSuperNode sn && active now sn)
                         (supernodes sm))) ->
  HandleNodeLeave now nodeID sm = RemoveNode nodeID sm.
Proof.
  intros Hmu Hc. rewrite RemoveNode_unlocked by exact Hmu.
  unfold HandleNodeLeave, locked, mbind at 1, Lock. rewrite Hmu.
  unfold mbind at 1. unfold mbind at 1, gets. cbn [supernodes set_mu].
  rewrite leaveLoop_at.
  pose proof (indexOfID_find nodeID (supernodes sm) 0) as G.
  change (fun sn => String.eqb (ID (Node sn)) nodeID) with (hasID nodeID).
  destruct (indexOfID nodeID (supernodes sm) 0) as [i|],
           (find (hasID nodeID) (supernodes sm)) as [sn|] eqn:F;
    try contradiction.
  - unfold mbind at 1.
    assert (E : handleSuperNodeLeave now (set_mu WriteLocked sm)
                = Returns tt (set_mu WriteLocked sm) \/ IsSuperNode sn = false).
    { destruct (IsSuperNode sn) eqn:R; [left|now right].
      specialize (Hc sn eq_refl R).
      unfold handleSuperNodeLeave, mbind, gets. cbn [supernodes set_mu].
      destruct (Z.leb_spec (len (filter (fun sn0 => IsSuperNode sn0 && active now sn0)
                                   (supernodes sm))) 1); [lia|reflexivity]. }
    destruct E as [E| ->]; [destruct (IsSuperNode sn); [rewrite E|]|];
      unfold modify, Unlock, mbind, ret;
      destruct sm; cbn in *; subst; reflexivity.
  - unfold Unlock, mbind, ret. destruct sm; cbn in *; subst. reflexivity.
Qed.

(** Property X17.  HandleNodeLeave is RemoveNode whenever no election is
    due: for an unknown id, for a Regular node, and for a SuperNode that
    leaves while more than one active SuperNode is recorded. *)
Theorem HandleNodeLeave_like_RemoveNode
        (now : Z) (nodeID : string) (sm : SuperNodeManager) :
  mu sm = Unlocked ->
  (forall sn, find (hasID nodeID) (supernodes sm) = Some sn ->
              IsSuperNode sn = true ->
              1 < len (filter (fun sn => IsSuperNode sn && active now sn)
                         (supernodes sm))) ->
  HandleNodeLeave now nodeID sm = RemoveNode nodeID sm.
Proof. exact (HandleNodeLeave_plain now nodeID sm). Qed.

Lemma existsb_negb_false {A} (p : A -> bool) l :
  existsb (fun x => negb (p x)) l = false -> forallb p l = true.
Proof.
  induction l as [|x l IH]; cbn; [reflexivity|].
  destruct (p x); cbn; [exact IH|discriminate].
Qed.

Lemma existsb_false_negb {A} (p : A -> bool) l :
  existsb p l = false -> forallb (fun x => negb (p x)) l = true.
Proof.
  induction l as [|x l IH]; cbn; [reflexivity|].
  destruct (p x); cbn; [discriminate|exact IH].
Qed.

(** Property X18.  No election promotes a peer.  On a manager whose
    mutex is free, SelectInitialSuperNode returns the empty id with the
    manager unchanged or blocks on the mutex it holds; and however
    HandleNodeLeave ends, every entry of the table it leaves is an entry
    of the table it found, role included. *)
Theorem elections_never_promote_a_peer
        (now : Z) (nodeID : string) (sm : SuperNodeManager) :
  mu sm = Unlocked ->
  (SelectInitialSuperNode now sm = Returns EmptyString sm
   \/ SelectInitialSuperNode now sm = Blocks (set_mu WriteLocked sm))
  /\ (forall sn, In sn (supernodes (final (HandleNodeLeave now nodeID sm))) ->
                 In sn (supernodes sm)).
Proof.
  intros Hmu. split.
  - destruct (existsb (fun sn => negb (String.eqb (ID (Node sn))
                                         (Address (localNodeInfo sm))))
                (supernodes sm)) eqn:E.
    + right. now apply SelectInitialSuperNode_blocks.
    + left. apply SelectInitialSuperNode_nobody; [exact Hmu|].
      now apply existsb_negb_false in E.
  - assert (Plain : HandleNodeLeave now nodeID sm = RemoveNode nodeID sm ->
                    forall sn, In sn (supernodes (final (HandleNodeLeave now nodeID sm))) ->
                               In sn (supernodes sm)).
    { intros -> sn. rewrite RemoveNode_unlocked by exact Hmu. cbn [final].
      destruct (indexOfID _ _ _); [|tauto]. cbn [supernodes set_supernodes].
      apply removeAt_In. }
    pose proof (indexOfID_find nodeID (supernodes sm) 0) as G.
    destruct (find (hasID nodeID) (supernodes sm)) as [old|] eqn:F.
    2:{ apply Plain, HandleNodeLeave_plain; [exact Hmu|]. intros sn. now rewrite F. }
    destruct (indexOfID nodeID (supernodes sm) 0) as [i|] eqn:I; [|contradiction].
    destruct (IsSuperNode old) eqn:R.
    2:{ apply Plain, HandleNodeLeave_plain; [exact Hmu|]. rewrite F.
        intros sn [= <-]. congruence. }
    destruct (Z.leb_spec (len (filter (fun sn => IsSuperNode sn && active now sn)
                                 (supernodes sm))) 1) as [C|C].
    2:{ apply Plain, HandleNodeLeave_plain; [exact Hmu|]. intros; exact C. }
    destruct (existsb (shortlisted now (Address (localNodeInfo sm))) (supernodes sm))
      eqn:S.
    + rewrite HandleNodeLeave_blocks; [tauto|exact Hmu| |exact C|exact S].
      exists old. split; [exact F|exact R].
    + rewrite (HandleNodeLeave_falls_back now nodeID sm i old Hmu I F R C
                 (existsb_false_negb _ _ S)).
      cbn [final supernodes set_supernodes]. intros sn. apply removeAt_In.
Qed.


Lemma table_ids_stay_unique_witness :
  exists sm', calls sampleCalls (manager [] false) = Returns tt sm'
              /\ mu sm' = Unlocked
              /\ NoDup (ids (supernodes sm')).
Proof.
  apply (table_ids_stay_unique sampleCalls (manager [] false));
    [reflexivity|constructor].
Defined.

Lemma AddNode_then_GetNode_witness :
  exists sm',
    (AddNode clock (peer addrC true) ;;; GetNode (ID (peer addrC true)))
      oneRelayThreeRegular
    = Returns (Some (entryAfterAdd clock (peer addrC true)
                       (supernodes oneRelayThreeRegular))) sm'
    /\ mu sm' = Unlocked.
Proof.
  apply (AddNode_then_GetNode clock (peer addrC true) oneRelayThreeRegular).
  reflexivity.
Defined.

Lemma AddNode_keeps_a_relay_witness :
  exists relays sm',
    (AddNode clock (peer addrC true) ;;; GetSuperNodes clock) oneRelayThreeRegular
    = Returns relays sm'
    /\ In (mkSuperNodeInfo (peer addrC true) true clock) relays.
Proof.
  apply (AddNode_keeps_a_relay clock (peer addrC true) oneRelayThreeRegular
           (entry addrC true)); reflexivity.
Defined.

Lemma RemoveNode_then_GetNode_witness :
  exists sm',
    (RemoveNode addrA ;;; GetNode addrA) oneRelayThreeRegular = Returns None sm'
    /\ supernodes sm'
       = filter (fun sn => negb (hasID addrA sn)) (supernodes oneRelayThreeRegular).
Proof.
  apply (RemoveNode_then_GetNode addrA oneRelayThreeRegular); [reflexivity|].
  repeat constructor; cbn; intuition discriminate.
Defined.

Lemma listings_split_the_active_nodes_witness :
  exists relays regular,
    GetSuperNodes clock oneRelayThreeRegular = Returns relays oneRelayThreeRegular
    /\ GetRegularNodes clock oneRelayThreeRegular
       = Returns regular oneRelayThreeRegular
    /\ len relays + len regular
       = len (filter (active clock) (supernodes oneRelayThreeRegular))
    /\ (forall sn, In sn relays
                   <-> In sn (supernodes oneRelayThreeRegular)
                       /\ active clock sn = true /\ IsSuperNode sn = true)
    /\ (forall n, In n regular
                  <-> exists sn, In sn (supernodes oneRelayThreeRegular)
                                 /\ Node sn = n /\ active clock sn = true
                                 /\ IsSuperNode sn = false).
Proof.
  apply (listings_split_the_active_nodes clock oneRelayThreeRegular).
  reflexivity.
Defined.

Lemma announced_node_is_listed_for_30_seconds_witness :
  exists relays regular sm',
    (AddNode 0 (peer addrE false) ;;;
     relays <~ GetSuperNodes (31 * Second) ;;
     regular <~ GetRegularNodes (31 * Second) ;;
     ret (relays, regular)) oneRelayThreeRegular
    = Returns (relays, regular) sm'
    /\ (In (peer addrE false) (map Node relays ++ regular)
        <-> 31 * Second - 0 < 30 * Second).
Proof.
  apply (announced_node_is_listed_for_30_seconds 0 (31 * Second)
           (peer addrE false) oneRelayThreeRegular); [reflexivity|].
  repeat constructor; cbn; intuition discriminate.
Defined.

Lemma HandleNodeLeave_like_RemoveNode_witness :
  HandleNodeLeave clock addrA oneRelayThreeRegular
  = RemoveNode addrA oneRelayThreeRegular.
Proof.
  apply (HandleNodeLeave_like_RemoveNode clock addrA oneRelayThreeRegular);
    [reflexivity|].
  intros sn [= <-]. discriminate.
Defined.

Lemma elections_never_promote_a_peer_witness :
  (SelectInitialSuperNode clock oneRelayThreeRegular
   = Returns EmptyString oneRelayThreeRegular
   \/ SelectInitialSuperNode clock oneRelayThreeRegular
      = Blocks (set_mu WriteLocked oneRelayThreeRegular))
  /\ (forall sn,
        In sn (supernodes (final (HandleNodeLeave clock addrC oneRelayThreeRegular))) ->
        In sn (supernodes oneRelayThreeRegular)).
Proof.
  apply (elections_never_promote_a_peer clock addrC oneRelayThreeRegular).
  reflexivity.
Defined.

End SuperNodeMore.

(* ================================================================== *)
(** ** More properties of the session *)
(* ================================================================== *)

Module ChatMore.
Import Crypto Stun SuperNode Chat Samples Traces Discovery MoreSamples.
Import CryptoFacts StunFacts SuperNodeFacts ChatFacts.
Import CryptoMore StunMore SuperNodeMore.

Section Inbound.
Variable jsonMarshal : Message -> list Z.
Variable jsonUnmarshal : list Z -> string + Message.
Variable aesEncryptBlock aesDecryptBlock : list Z -> list Z -> list Z.
Hypothesis enc_block : cipher_keeps_blocks aesEncryptBlock.
Hypothesis dec_block : cipher_keeps_blocks aesDecryptBlock.
Hypothesis dec_enc : cipher_inverts aesEncryptBlock aesDecryptBlock.

Lemma forwardTo_shows_nothing lines net key message addr :
  shown (forwardTo jsonMarshal aesEncryptBlock lines net key message addr) = [].
Proof.
  unfold forwardTo. destruct (netDial net addr); [reflexivity|].
  destruct (Crypto.encryptAES _ _ _ _); try reflexivity.
  destruct (netWrite net addr); reflexivity.
Qed.

Lemma forwards_show_nothing lines net key message addrs :
  shown (flat_map (forwardTo jsonMarshal aesEncryptBlock lines net key message)
           addrs) = [].
Proof.
  induction addrs as [|a addrs IH]; [reflexivity|]. cbn [flat_map].
  now rewrite shown_app, forwardTo_shows_nothing, IH.
Qed.

(** The forwarding branch prints failure lines and writes frames; it
    shows no message. *)
Lemma forwardInbound_shows_nothing now net remoteAddr message w :
  NodeMutex (client w) = Unlocked ->
  mu (SuperNodeMgr (client w)) = Unlocked ->
  exists served evs,
    forwardInbound jsonMarshal aesEncryptBlock now net remoteAddr message w
    = Returns served (mkProcess (client w) (trace w ++ evs))
    /\ shown evs = [].
Proof.
  intros Hn Hmu. destruct w as [p tr].
  destruct p as [ln room key nm run pip pport sm]. cbn in Hn, Hmu. subst nm.
  cbn [client trace LocalNode Room SuperNodeMgr].
  set (w1 := mkProcess (mkP2PChat ln room key (ReadLocked 0) run pip pport sm) tr).
  destruct (regularPass_returns (Address ln) remoteAddr w1 Hmu (Nodes room))
    as [regular [Hr _]].
  assert (Hg : mgr (GetSuperNodes now) (mkProcess (client w1)
                 (tr ++ flat_map (forwardTo jsonMarshal aesEncryptBlock
                                    regularLines net key message) regular))
               = Returns (filter (fun sn => active now sn && IsSuperNode sn)
                            (supernodes sm))
                   (mkProcess (client w1)
                      (tr ++ flat_map (forwardTo jsonMarshal aesEncryptBlock
                                         regularLines net key message) regular))).
  { apply mgr_returns_same. now apply GetSuperNodes_unlocked. }
  unfold forwardInbound. run_pm. subst w1. cbn [client] in *.
  rewrite Hr. run_pm. rewrite Hg. run_pm.
  eexists _, _. split.
  - rewrite <- app_assoc. reflexivity.
  - now rewrite shown_app, !forwards_show_nothing.
Qed.


(** handleFrame on a client whose mutexes are free: it returns, leaves
    the client as it was, and shows the message that the frame carries,
    if it carries one for this room. *)
Lemma handleFrame_outcome now net remoteAddr frame w :
  NodeMutex (client w) = Unlocked ->
  mu (SuperNodeMgr (client w)) = Unlocked ->
  bytes (MessageKey (client w)) -> bytes frame ->
  exists served evs,
    handleFrame jsonMarshal jsonUnmarshal aesEncryptBlock aesDecryptBlock
      now net remoteAddr frame w
    = Returns served (mkProcess (client w) (trace w ++ evs))
    /\ shown evs
       = match Crypto.decryptAES aesDecryptBlock (MessageKey (client w)) frame with
         | Ok data =>
             match jsonUnmarshal data with
             | inr message =>
                 if String.eqb (RoomID message) (RoomId (Room (client w)))
                 then [message] else []
             | inl _ => []
             end
         | _ => []
         end.
Proof.
  intros Hn Hmu Hk Hf.
  pose proof (mgr_returns_same _ _ _ (IsLocalNodeSuperNode_unlocked _ Hmu)) as Hi.
  assert (Hs : forall n, mgr (ShouldEnableSuperNodeMode n) w
               = Returns (superNodeMode (SuperNodeMgr (client w)) && (n >? 5)) w).
  { intros n. now apply mgr_returns_same. }
  unfold handleFrame. cbv beta iota delta [mbind gets].
  destruct (Crypto.decryptAES aesDecryptBlock (MessageKey (client w)) frame)
    as [data|e|msg] eqn:D.
  - destruct (jsonUnmarshal data) as [e|message].
    + eexists _, _. split; reflexivity.
    + destruct (String.eqb (RoomID message) (RoomId (Room (client w)))); cbn [negb].
      * rewrite Hs.
        destruct (superNodeMode (SuperNodeMgr (client w))
                  && (len (Nodes (Room (client w))) >? 5)).
        -- rewrite Hi. destruct (isSuperNode (SuperNodeMgr (client w))).
           ++ destruct (forwardInbound_shows_nothing now net remoteAddr message w
                          Hn Hmu) as (served & evs & -> & Hsh).
              cbv beta iota delta [emit modify ret client trace].
              eexists _, _. split; [rewrite <- app_assoc; reflexivity|].
              now rewrite shown_app, Hsh.
           ++ cbv beta iota delta [emit modify ret client trace].
              eexists _, _. split; reflexivity.
        -- cbv beta iota delta [emit modify ret client trace].
           eexists _, _. split; reflexivity.
      * exists ([], []), []. rewrite app_nil_r. split; [now destruct w|reflexivity].
  - eexists _, _. split; reflexivity.
  - pose proof (decryptAES_outcome _ dec_block _ _ Hk Hf) as O.
    now rewrite D in O.
Qed.


(** Property X19.  On a client whose mutexes are free, handleFrame
    returns for every frame of bytes and leaves the client as it was; it
    shows at most one message, and shows a message exactly when the frame
    opens under the key of the room, decodes into that message and
    carries the id of the room. *)
Theorem handleFrame_shows_what_the_frame_carries now net remoteAddr frame w :
  NodeMutex (client w) = Unlocked ->
  mu (SuperNodeMgr (client w)) = Unlocked ->
  bytes (MessageKey (client w)) -> bytes frame ->
  exists served evs,
    handleFrame jsonMarshal jsonUnmarshal aesEncryptBlock aesDecryptBlock
      now net remoteAddr frame w
    = Returns served (mkProcess (client w) (trace w ++ evs))
    /\ (length (shown evs) <= 1)%nat
    /\ forall message,
         In message (shown evs)
         <-> exists data,
               Crypto.decryptAES aesDecryptBlock (MessageKey (client w)) frame
               = Ok data
               /\ jsonUnmarshal data = inr message
               /\ RoomID message = RoomId (Room (client w)).
Proof.
  intros Hn Hmu Hk Hf.
  destruct (handleFrame_outcome now net remoteAddr frame w Hn Hmu Hk Hf)
    as (served & evs & Hret & Hsh).
  exists served, evs. split; [exact Hret|]. rewrite Hsh. clear Hret Hsh.
  destruct (Crypto.decryptAES aesDecryptBlock (MessageKey (client w)) frame)
    as [data|e|msg].
  - destruct (jsonUnmarshal data) as [e|m] eqn:J.
    + split; [cbn; lia|]. intros message. split; [intros []|].
      intros (d & [= <-] & J' & _). congruence.
    + destruct (String.eqb_spec (RoomID m) (RoomId (Room (client w)))) as [E|E].
      * split; [cbn; lia|]. intros message. split.
        -- intros [<-|[]]. now exists data.
        -- intros (d & [= <-] & J' & _). left. congruence.
      * split; [cbn; lia|]. intros message. split; [intros []|].
        intros (d & [= <-] & J' & R). congruence.
  - split; [cbn; lia|]. intros message. split; [intros []|].
    now intros (d & [=] & _).
  - split; [cbn; lia|]. intros message. split; [intros []|].
    now intros (d & [=] & _).
Qed.

(** Property X20.  A member shows what another member encrypted: the
    frame that encryptAES builds from a message under the 16-byte key of
    the room makes handleFrame, at a client of the same room holding the
    same key, show exactly that message. *)
Theorem encrypted_message_is_shown now net remoteAddr w iv message frame :
  NodeMutex (client w) = Unlocked ->
  mu (SuperNodeMgr (client w)) = Unlocked ->
  bytes (MessageKey (client w)) -> length (MessageKey (client w)) = 16%nat ->
  is_block iv -> bytes (jsonMarshal message) ->
  jsonUnmarshal (jsonMarshal message) = inr message ->
  RoomID message = RoomId (Room (client w)) ->
  Crypto.encryptAES aesEncryptBlock (inr iv) (MessageKey (client w))
    (jsonMarshal message) = Ok frame ->
  exists served evs,
    handleFrame jsonMarshal jsonUnmarshal aesEncryptBlock aesDecryptBlock
      now net remoteAddr frame w
    = Returns served (mkProcess (client w) (trace w ++ evs))
    /\ shown evs = [message].
Proof.
  intros Hn Hmu Hk Hk16 Hiv Hm Hj Hr He.
  pose proof (key16_ok _ Hk16) as Hs.
  pose proof (encrypted_frame_opens _ _ enc_block dec_enc _ _ _ _ Hk Hs Hiv Hm He)
    as Hd.
  assert (Hf : bytes frame).
  { destruct (encryptAES_frame _ enc_block _ _ _ Hk Hs Hiv Hm) as (body & E & B & _).
    rewrite E in He. injection He as <-. apply bytes_app. split; [apply Hiv|exact B]. }
  destruct (handleFrame_outcome now net remoteAddr frame w Hn Hmu Hk Hf)
    as (served & evs & Hret & Hsh).
  exists served, evs. split; [exact Hret|].
  now rewrite Hsh, Hd, Hj, Hr, String.eqb_refl.
Qed.

End Inbound.

Section Outbound.
Variable jsonMarshal : Message -> list Z.
Variable aesEncryptBlock : list Z -> list Z -> list Z.

Lemma written_sendFrame net frame addr :
  written (sendFrame net frame addr)
  = match netDial net addr, netWrite net addr with
    | None, None => [(addr, frame)]
    | _, _ => []
    end.
Proof.
  unfold sendFrame. destruct (netDial net addr); [reflexivity|].
  destruct (netWrite net addr); reflexivity.
Qed.

(** The frames of the direct fan-out: one for every member entry whose
    address is not the local one and whose dial and write succeed. *)
Lemma written_fanOutLoop localAddr net frame message nodes : forall d,
  written (fst (fanOutLoop localAddr net frame message nodes d))
  = map (fun a => (a, frame))
      (filter (fun a => match netDial net a, netWrite net a with
                        | None, None => true
                        | _, _ => false
                        end)
         (filter (fun a => negb (String.eqb a localAddr))
            (map Address nodes))).
Proof.
  induction nodes as [|node rest IH]; intros d; cbn [fanOutLoop map filter];
    [reflexivity|].
  destruct (String.eqb (Address node) localAddr); cbn [negb fst written].
  - apply IH.
  - cbn [filter]. rewrite written_app, written_sendFrame, IH.
    destruct (netDial net (Address node)); [reflexivity|].
    destruct (netWrite net (Address node)); reflexivity.
Qed.

Lemma directFanOut_writes net frame message w :
  NodeMutex (client w) = Unlocked ->
  exists evs,
    directFanOut net frame message w
    = Returns tt (mkProcess (client w) (trace w ++ evs))
    /\ written evs
       = written (fst (fanOutLoop (Address (LocalNode (client w))) net frame
                         message (Nodes (Room (client w))) false)).
Proof.
  intros Hn. destruct w as [p tr].
  destruct p as [ln room key nm run pip pport sm]. cbn in Hn. subst nm.
  unfold directFanOut. run_pm.
  destruct (snd (fanOutLoop (Address ln) net frame message (Nodes room) false));
    cbn [negb]; run_pm.
  - eexists. split; reflexivity.
  - eexists. split; [rewrite <- app_assoc; reflexivity|].
    rewrite written_app. cbn. now rewrite app_nil_r.
Qed.

(** Property X21.  In the standard mode (SuperNode mode off, or a room
    of five members or fewer) SendMessage writes the one frame it
    encrypted, only to entries of the member list whose address is not
    the local one: once for each such entry whose dial and write succeed,
    in some order, so that on a network without failures it writes it
    once for each such entry. *)
Theorem SendMessage_direct_fan_out now timestamp net rnd content w frame :
  let p := client w in
  let message := mkMessage (RoomId (Room p)) (Nickname (LocalNode p))
                   timestamp content in
  let others := filter (fun a => negb (String.eqb a (Address (LocalNode p))))
                  (map Address (Nodes (Room p))) in
  NodeMutex p = Unlocked ->
  superNodeMode (SuperNodeMgr p) && (len (Nodes (Room p)) >? 5) = false ->
  Crypto.encryptAES aesEncryptBlock rnd (MessageKey p) (jsonMarshal message)
  = Ok frame ->
  exists evs,
    SendMessage jsonMarshal aesEncryptBlock now timestamp net rnd content w
    = Returns None (mkProcess p (trace w ++ evs))
    /\ (forall a f, In (a, f) (written evs) ->
                    f = frame /\ In a others)
    /\ Permutation (written evs)
         (map (fun a => (a, frame))
            (filter (fun a => match netDial net a, netWrite net a with
                              | None, None => true
                              | _, _ => false
                              end) others))
    /\ ((forall a, netDial net a = None /\ netWrite net a = None) ->
        Permutation (written evs) (map (fun a => (a, frame)) others)).
Proof.
  intros p message others Hn Hmode Henc.
  assert (Hs : mgr (ShouldEnableSuperNodeMode (len (Nodes (Room p)))) w
               = Returns false w).
  { apply mgr_returns_same. unfold ShouldEnableSuperNodeMode, gets.
    fold p. now rewrite Hmode. }
  destruct (directFanOut_writes net frame message w Hn) as (evs & Hd & Hw).
  fold p in Hd, Hw. rewrite written_fanOutLoop in Hw. fold others in Hw.
  unfold SendMessage. cbv beta iota delta [mbind gets].
  fold p message. rewrite Henc, Hs, Hd.
  exists evs. split; [reflexivity|]. split; [|split].
  - intros a f Hin. rewrite Hw in Hin. apply in_map_iff in Hin.
    destruct Hin as (a' & [= <- <-] & Hin). split; [reflexivity|].
    now apply filter_In in Hin.
  - rewrite Hw. apply Permutation_refl.
  - intros Hq. rewrite Hw. replace (filter _ others) with others;
      [apply Permutation_refl|].
    symmetry. apply filter_all.
    intros a _. now destruct (Hq a) as [-> ->].
Qed.


(** Property X22.  A client as NewP2PChat builds it holds no key:
    SendMessage on it returns the error of aes.NewCipher for a key of
    size 0 and neither sends nor displays anything. *)
Theorem SendMessage_before_any_room cfg nickname public localIP p0 tr
        now timestamp net rnd content :
  NewP2PChat cfg nickname public localIP = Ok p0 ->
  SendMessage jsonMarshal aesEncryptBlock now timestamp net rnd content
    (mkProcess p0 tr)
  = Returns (Some "crypto/aes: invalid key size 0"%string) (mkProcess p0 tr).
Proof.
  intros Hnew.
  assert (Hkey : MessageKey p0 = []).
  { unfold NewP2PChat in Hnew.
    destruct public as [[ip port]|e|msg]; try discriminate;
      now injection Hnew as <-. }
  unfold SendMessage. cbv beta iota delta [mbind gets client].
  rewrite Hkey. reflexivity.
Qed.

End Outbound.

Section Announcing.
Variable cfg : Config.
Variable base64Encode : list Z -> string.
Variable base64Decode : string -> string + list Z.

(** Property X23.  Only the creator of a room announces itself: on a
    client as NewP2PChat builds it, the test that starts
    broadcastNodeInfo holds after CreateRoom and fails after JoinRoom,
    which leaves the member list empty. *)
Theorem only_the_creator_announces nickname public localIP p0 tr :
  NewP2PChat cfg nickname public localIP = Ok p0 ->
  (forall key roomID,
      isRoomCreator
        (client (final ((CreateRoom cfg base64Encode (inr key) roomID ;;;
                         StartUDPBroadcast None) (mkProcess p0 tr)))) = true)
  /\ (forall roomID password,
         isRoomCreator
           (client (final ((JoinRoom cfg base64Decode roomID password ;;;
                            StartUDPBroadcast None) (mkProcess p0 tr)))) = false).
Proof.
  intros Hnew. unfold NewP2PChat in Hnew.
  assert (exists ln key nm run pip pport sm,
            p0 = mkP2PChat ln (mkRoomInfo EmptyString [] EmptyString) key nm run
                   pip pport sm) as (ln & key0 & nm & run & pip & pport & sm & ->).
  { destruct public as [[ip port]|e|msg]; try discriminate;
      injection Hnew as <-; now eexists _, _, _, _, _, _, _. }
  clear Hnew. split.
  - intros key roomID. unfold CreateRoom, StartUDPBroadcast. run_pm.
    unfold isRoomCreator.
    cbn [final client Nodes Room LocalNode app hd_error Address len length].
    now rewrite String.eqb_refl.
  - intros roomID password. unfold JoinRoom, StartUDPBroadcast.
    destruct (base64Decode password) as [e|key]; run_pm; [reflexivity|].
    destruct (negb (len key =? 16)); run_pm; reflexivity.
Qed.

End Announcing.

Section Listening.
Variable cfg : Config.

Lemma isRoomNode_false nodes id :
  isRoomNode nodes id = false -> ~ In id (map ID nodes).
Proof.
  unfold isRoomNode. induction nodes as [|n nodes IH]; cbn; [tauto|].
  destruct (String.eqb_spec (ID n) id) as [E|E]; cbn; [discriminate|].
  intros H [F|F]; [contradiction|]. now apply IH.
Qed.

(** Property X24.  The announcement of a node never carries its
    opt-out: broadcastNodeInfo sends NoSuperNode = false whatever the
    configuration; the sender itself does not accept it, and a client
    that accepts it records the sender as a node that has not opted
    out. *)
Theorem announcement_hides_the_opt_out (sender : P2PChat) now addr w :
  NodeMutex (client w) = Unlocked ->
  Address (LocalNode sender) <> EmptyString ->
  let nodeInfo := broadcastNodeInfo sender in
  NoSuperNode nodeInfo = false
  /\ accepts cfg sender nodeInfo = false
  /\ membersAfter (announce cfg now nodeInfo addr w)
     = if accepts cfg (client w) nodeInfo
       then Nodes (Room (client w)) ++ [nodeInfo]
       else Nodes (Room (client w)).
Proof.
  intros Hn Ha nodeInfo. split; [reflexivity|]. split.
  - unfold accepts, nodeInfo, broadcastNodeInfo. cbn [ID].
    rewrite String.eqb_refl. cbn [negb]. rewrite andb_false_r. reflexivity.

  - assert (Hnorm : normalize nodeInfo addr = nodeInfo).
    { unfold normalize, nodeInfo, broadcastNodeInfo. cbn [ID Address].
      apply String.eqb_neq in Ha. rewrite Ha. cbn [Address]. now rewrite Ha. }
    unfold membersAfter.
    destruct (announce_final cfg now nodeInfo addr w Hn) as [-> _].
    now rewrite Hnorm.
Qed.

(** Property X25.  However it ends, the listener only appends to the
    member list; no node it appends has the local address as id; it
    keeps the ids of the list distinct, and it keeps the list within the
    configured maximum. *)
Theorem discovery_only_appends_strangers arrivals : forall w,
  NodeMutex (client w) = Unlocked ->
  exists newcomers,
    membersAfter (listenForBroadcasts cfg arrivals w)
    = Nodes (Room (client w)) ++ newcomers
    /\ Forall (fun n => ID n <> Address (LocalNode (client w))) newcomers
    /\ (NoDup (map ID (Nodes (Room (client w)))) ->
        NoDup (map ID (membersAfter (listenForBroadcasts cfg arrivals w))))
    /\ (len (Nodes (Room (client w))) <= MaxNodes cfg ->
        len (membersAfter (listenForBroadcasts cfg arrivals w)) <= MaxNodes cfg).
Proof.
  induction arrivals as [|d rest IH]; intros w Hn.
  { exists []. cbn. rewrite app_nil_r. repeat split; auto. }
  assert (Stop : exists newcomers,
             Nodes (Room (client w)) = Nodes (Room (client w)) ++ newcomers
             /\ Forall (fun n => ID n <> Address (LocalNode (client w))) newcomers
             /\ (NoDup (map ID (Nodes (Room (client w)))) ->
                 NoDup (map ID (Nodes (Room (client w)))))
             /\ (len (Nodes (Room (client w))) <= MaxNodes cfg ->
                 len (Nodes (Room (client w))) <= MaxNodes cfg)).
  { exists []. rewrite app_nil_r. repeat split; auto. }
  unfold membersAfter in *. cbn [listenForBroadcasts]. unfold mbind at 1 3 5, gets.
  destruct (Running (client w)); [|exact Stop].
  destruct d as [e| |now received addr].
  - unfold mbind, emit, modify. apply (IH (mkProcess (client w) _)). exact Hn.
  - unfold mbind, ret. now apply IH.
  - destruct (announce_final cfg now received addr w Hn) as (Hm & Hmu & Hl).
    set (n := normalize received addr) in *.
    assert (Step : exists newcomers,
               Nodes (Room (client (final (announce cfg now received addr w))))
               = Nodes (Room (client w)) ++ newcomers
               /\ Forall (fun n => ID n <> Address (LocalNode (client w))) newcomers
               /\ (NoDup (map ID (Nodes (Room (client w)))) ->
                   NoDup (map ID (Nodes (Room (client (final (announce cfg now received addr w)))))))
               /\ (len (Nodes (Room (client w))) <= MaxNodes cfg ->
                   len (Nodes (Room (client (final (announce cfg now received addr w)))))
                   <= MaxNodes cfg)).
    { rewrite Hm. unfold accepts.
      destruct (isRoomNode (Nodes (Room (client w))) (ID n)) eqn:R; cbn [negb andb];
        [exact Stop|].
      destruct (String.eqb_spec (ID n) (Address (LocalNode (client w)))) as [E|E];
        cbn [negb andb]; [exact Stop|].
      destruct (Z.ltb_spec (len (Nodes (Room (client w)))) (MaxNodes cfg)) as [L|L];
        [|exact Stop].
      exists [n]. repeat split.
      - now repeat constructor.
      - intros Hnd. rewrite map_app. cbn [map].
        apply NoDup_app; try assumption.
        + repeat constructor. tauto.
        + intros x Hx [<-|[]]. now apply isRoomNode_false in R.
      - intros _. unfold len in *. rewrite length_app. cbn [length]. lia. }
    unfold mbind.
    destruct (announce cfg now received addr w) as [a s|s|msg s];
      cbn [final] in *; try exact Step.
    destruct (IH s Hmu) as (more & Hmore & Hstr & Hnd & Hcap).
    destruct Step as (newcomers & Hnew & Hstr0 & Hnd0 & Hcap0).
    exists (newcomers ++ more). repeat split.
    + now rewrite Hmore, Hnew, app_assoc.
    + apply Forall_app. split; [exact Hstr0|]. now rewrite <- Hl.
    + intros H. apply Hnd, Hnd0, H.
    + intros H. apply Hcap, Hcap0, H.
Qed.

End Listening.

Lemma tryServers_returns send servers :
  (forall server msg, send server <> Panic msg) ->
  exists found, tryServers send servers = Ok found.
Proof.
  intros Hsend. induction servers as [|s l IH]; cbn; [now eexists|].
  destruct (send s) as [found|e|msg] eqn:E; [now eexists|exact IH|].
  now apply Hsend in E.
Qed.

(** Property X26.  Whatever the STUN servers answer in datagrams of at
    most 1020 bytes, and whether they answer at all, NewP2PChat returns
    a client: its address is the address and port that
    getPublicIPAndPort returned, it is in no room, holds no key and is
    not running; the fallback on getLocalIP in NewP2PChat is never
    taken. *)
Theorem client_starts_whatever_the_servers_answer
        cfg nickname (answers : string -> Exchange) dial localIP :
  (forall server datagram,
      readResult (answers server) = inr datagram ->
      bytes datagram /\ len datagram <= 1020) ->
  let public := getPublicIPAndPort (fun server => sendSTUNRequest (answers server))
                  dial (TCPPort cfg) in
  exists ip port,
    public = Ok (ip, port)
    /\ NewP2PChat cfg nickname public localIP
       = Ok (let localNode := mkNodeInfo EmptyString (hostPort ip port)
                                nickname (CfgNoSuperNode cfg) in
             mkP2PChat localNode (mkRoomInfo EmptyString [] EmptyString) []
               Unlocked false ip port
               (NewSuperNodeManager localNode [] (TCPPort cfg) (UDPPort cfg)
                  (CfgNoSuperNode cfg))).
Proof.
  intros Hsize public.
  assert (Hsend : forall server msg, sendSTUNRequest (answers server) <> Panic msg).
  { intros server msg. unfold sendSTUNRequest.
    destruct (resolveErr (answers server)); [discriminate|].
    destruct (dialErr (answers server)); [discriminate|].
    destruct (randErr (answers server)); [discriminate|].
    destruct (writeErr (answers server)); [discriminate|].
    destruct (readResult (answers server)) as [e|d] eqn:R; [discriminate|].
    destruct (Hsize server d R) as [Hb Hl].
    now apply parseSTUNResponse_in_capacity; apply responseSlice_in_capacity. }
  destruct (tryServers_returns _ stunServers Hsend) as [found Hf].
  assert (exists ip port, public = Ok (ip, port)) as (ip & port & Hp).
  { subst public. unfold getPublicIPAndPort. rewrite Hf. cbn [bind].
    destruct found as [[ip port]|]; now eexists _, _. }
  exists ip, port. split; [exact Hp|]. unfold NewP2PChat. now rewrite Hp.
Qed.

Lemma handleFrame_shows_what_the_frame_carries_witness :
  exists served evs,
    handleFrame demoMarshal demoUnmarshal xorCipher xorCipher clock quietNet
      addrA hiFrame relayOfSix
    = Returns served (mkProcess (client relayOfSix) (trace relayOfSix ++ evs))
    /\ (length (shown evs) <= 1)%nat
    /\ forall message,
         In message (shown evs)
         <-> exists data,
               Crypto.decryptAES xorCipher (MessageKey (client relayOfSix)) hiFrame
               = Ok data
               /\ demoUnmarshal data = inr message
               /\ RoomID message = RoomId (Room (client relayOfSix)).
Proof.
  apply (handleFrame_shows_what_the_frame_carries demoMarshal demoUnmarshal
           xorCipher xorCipher xorCipher_blocks clock quietNet addrA hiFrame
           relayOfSix); try reflexivity; apply bytes_dec_true; reflexivity.
Defined.

Lemma encrypted_message_is_shown_witness :
  exists served evs,
    handleFrame demoMarshal demoUnmarshal xorCipher xorCipher clock quietNet
      addrA hiFrame relayOfFour
    = Returns served (mkProcess (client relayOfFour) (trace relayOfFour ++ evs))
    /\ shown evs = [hi].
Proof.
  apply (encrypted_message_is_shown demoMarshal demoUnmarshal xorCipher xorCipher
           xorCipher_blocks xorCipher_blocks xorCipher_inverts clock quietNet
           addrA relayOfFour sampleIV hi hiFrame); try reflexivity;
    try (apply bytes_dec_true; reflexivity).
  split; [apply bytes_dec_true|]; reflexivity.
Defined.

Lemma SendMessage_direct_fan_out_witness :
  exists evs,
    SendMessage demoMarshal xorCipher clock "2026-01-10 12:00:00" quietNet
      (inr sampleIV) "hi" relayOfFour
    = Returns None (mkProcess (client relayOfFour) (trace relayOfFour ++ evs))
    /\ Permutation (written evs)
         [(addrA, hiFrame); (addrB, hiFrame); (addrC, hiFrame)].
Proof.
  destruct (SendMessage_direct_fan_out demoMarshal xorCipher clock
              "2026-01-10 12:00:00" quietNet (inr sampleIV) "hi" relayOfFour
              hiFrame eq_refl eq_refl eq_refl) as (evs & Hrun & _ & Hperm & _).
  exists evs. split; [exact Hrun|exact Hperm].
Defined.

Lemma SendMessage_before_any_room_witness :
  SendMessage demoMarshal xorCipher clock "2026-01-10 12:00:00" quietNet
    (inr sampleIV) "hi" (fresh capOfThree)
  = Returns (Some "crypto/aes: invalid key size 0"%string) (fresh capOfThree).
Proof.
  apply (SendMessage_before_any_room demoMarshal xorCipher capOfThree "me"
           (Ok ("10.0.0.1"%string, 8080)) "10.0.0.1").
  reflexivity.
Defined.

Lemma only_the_creator_announces_witness :
  (forall key roomID,
      isRoomCreator
        (client (final ((CreateRoom capOfThree demoEncode (inr key) roomID ;;;
                         StartUDPBroadcast None) (fresh capOfThree)))) = true)
  /\ (forall roomID password,
         isRoomCreator
           (client (final ((JoinRoom capOfThree demoDecode roomID password ;;;
                            StartUDPBroadcast None) (fresh capOfThree)))) = false).
Proof.
  apply (only_the_creator_announces capOfThree demoEncode demoDecode "me"
           (Ok ("10.0.0.1"%string, 8080)) "10.0.0.1").
  reflexivity.
Defined.

Lemma announcement_hides_the_opt_out_witness :
  let nodeInfo := broadcastNodeInfo (client relayOfFour) in
  NoSuperNode nodeInfo = false
  /\ accepts capOfThree (client relayOfFour) nodeInfo = false
  /\ membersAfter (announce capOfThree clock nodeInfo "10.0.0.1:8081"
                     (joined capOfThree))
     = if accepts capOfThree (client (joined capOfThree)) nodeInfo
       then Nodes (Room (client (joined capOfThree))) ++ [nodeInfo]
       else Nodes (Room (client (joined capOfThree))).
Proof.
  apply (announcement_hides_the_opt_out capOfThree (client relayOfFour) clock
           "10.0.0.1:8081" (joined capOfThree)); [reflexivity|discriminate].
Defined.

Lemma discovery_only_appends_strangers_witness :
  exists newcomers,
    membersAfter (listenForBroadcasts capOfThree mixedArrivals relayOfFour)
    = Nodes (Room (client relayOfFour)) ++ newcomers
    /\ Forall (fun n => ID n <> Address (LocalNode (client relayOfFour))) newcomers
    /\ (NoDup (map ID (Nodes (Room (client relayOfFour)))) ->
        NoDup (map ID (membersAfter
                         (listenForBroadcasts capOfThree mixedArrivals relayOfFour))))
    /\ (len (Nodes (Room (client relayOfFour))) <= MaxNodes capOfThree ->
        len (membersAfter (listenForBroadcasts capOfThree mixedArrivals relayOfFour))
        <= MaxNodes capOfThree).
Proof.
  apply (discovery_only_appends_strangers capOfThree mixedArrivals relayOfFour).
  reflexivity.
Defined.

Lemma client_starts_whatever_the_servers_answer_witness :
  let public := getPublicIPAndPort
                  (fun server => sendSTUNRequest (truncatedAnswers server))
                  (Some "192.168.1.5"%string) (TCPPort capOfThree) in
  exists ip port,
    public = Ok (ip, port)
    /\ NewP2PChat capOfThree "me" public "10.0.0.1"
       = Ok (let localNode := mkNodeInfo EmptyString (hostPort ip port)
                                "me" (CfgNoSuperNode capOfThree) in
             mkP2PChat localNode (mkRoomInfo EmptyString [] EmptyString) []
               Unlocked false ip port
               (NewSuperNodeManager localNode [] (TCPPort capOfThree)
                  (UDPPort capOfThree) (CfgNoSuperNode capOfThree))).
Proof.
  apply (client_starts_whatever_the_servers_answer capOfThree "me"
           truncatedAnswers (Some "192.168.1.5"%string) "10.0.0.1").
  intros server datagram [= <-]. split; [apply bytes_dec_true; reflexivity|].
  vm_compute. discriminate.
Defined.

End ChatMore.

(* ================================================================== *)
(** ** Properties of the start-up and of the commands *)
(* ================================================================== *)

Module CliMore.
Import SuperNode Chat Samples MoreSamples Cli ChatFacts.

(** Property X27.  generateRandomNickname returns the configured
    nickname when there is one; otherwise it returns an adjective and a
    noun of the configured lists followed by the number, and it panics
    exactly when one of the two lists is empty. *)
Theorem generateRandomNickname_cases
        (defaultNickname : string) (adjectives nouns : list string)
        (nano1 nano2 : Z) (num : option Z) :
  0 <= nano1 -> 0 <= nano2 ->
  (defaultNickname <> EmptyString ->
   generateRandomNickname defaultNickname adjectives nouns nano1 nano2 num
   = Ok defaultNickname)
  /\ (defaultNickname = EmptyString -> adjectives <> [] -> nouns <> [] ->
      exists adj noun,
        In adj adjectives /\ In noun nouns
        /\ generateRandomNickname defaultNickname adjectives nouns nano1 nano2 num
           = Ok (adj ++ noun ++ match num with
                                | Some n => itoa n
                                | None => "<nil>"
                                end)%string)
  /\ (defaultNickname = EmptyString -> adjectives = [] \/ nouns = [] ->
      exists msg,
        generateRandomNickname defaultNickname adjectives nouns nano1 nano2 num
        = Panic msg).
Proof.
  intros H1 H2. unfold generateRandomNickname. repeat split.
  - intros Hd. apply String.eqb_neq in Hd. now rewrite Hd.
  - intros -> Ha Hn. cbn [String.eqb negb].
    assert (La : 0 < len adjectives) by (destruct adjectives; [congruence|unfold len; cbn; lia]).
    assert (Ln : 0 < len nouns) by (destruct nouns; [congruence|unfold len; cbn; lia]).
    destruct (Z.eqb_spec (len adjectives) 0); [lia|].
    destruct (Z.eqb_spec (len nouns) 0); [lia|].
    pose proof (Z.rem_bound_pos nano1 (len adjectives) H1 La) as Ba.
    pose proof (Z.rem_bound_pos nano2 (len nouns) H2 Ln) as Bn.
    destruct (Z.ltb_spec (Z.rem nano1 (len adjectives)) 0); [lia|].
    destruct (Z.ltb_spec (Z.rem nano2 (len nouns)) 0); [lia|].
    eexists _, _. split; [|split; [|reflexivity]];
      apply nth_In; unfold len in *; lia.
  - intros -> [-> | ->]; cbn [String.eqb negb].
    + now eexists.
    + destruct (len adjectives =? 0); [now eexists|].
      destruct (Z.rem nano1 (len adjectives) <? 0); now eexists.
Qed.

Lemma substring_all s : substring 0 (String.length s) s = s.
Proof. induction s as [|c s IH]; cbn; [reflexivity|]. now rewrite IH. Qed.

Lemma substring_prefix prefix rest :
  substring 0 (String.length prefix) (prefix ++ rest) = prefix.
Proof. induction prefix as [|c s IH]; cbn; [now destruct rest|]. now rewrite IH. Qed.

Lemma length_append a b :
  String.length (a ++ b) = (String.length a + String.length b)%nat.
Proof. induction a as [|c a IH]; cbn; [reflexivity|]. now rewrite IH. Qed.

Lemma append_assoc (a b c : string) : ((a ++ b) ++ c = a ++ b ++ c)%string.
Proof. induction a as [|x a IH]; cbn; [reflexivity|]. now rewrite IH. Qed.

(** Property X28.  The text that the command /file sends carries the
    whole base64 encoding of a file only if that has at most 100
    characters; of a longer one it carries the first 100 characters and
    three dots, so that two files whose encodings agree on their first
    100 characters are sent as the same text. *)
Theorem fileMessage_carries_100_characters (name encodedData : string) :
  ((String.length encodedData <= 100)%nat ->
   fileMessage name encodedData
   = ("[File] " ++ name ++ ": " ++ encodedData)%string)
  /\ (forall first rest rest',
        String.length first = 100%nat ->
        rest <> EmptyString -> rest' <> EmptyString ->
        fileMessage name (first ++ rest)
        = ("[File] " ++ name ++ ": " ++ first ++ "...")%string
        /\ fileMessage name (first ++ rest) = fileMessage name (first ++ rest')).
Proof.
  split.
  - intros H. unfold fileMessage.
    destruct (Z.ltb_spec (Z.of_nat (String.length encodedData)) 100) as [L|L].
    + rewrite Nat2Z.id, substring_all.
      destruct (Z.gtb_spec (Z.of_nat (String.length encodedData))
                  (Z.of_nat (String.length encodedData))); [lia|reflexivity].
    + replace (Z.to_nat 100) with (String.length encodedData) by lia.
      rewrite substring_all.
      destruct (Z.gtb_spec (Z.of_nat (String.length encodedData)) 100);
        [lia|reflexivity].
  - assert (Long : forall first rest, String.length first = 100%nat ->
              rest <> EmptyString ->
              fileMessage name (first ++ rest)
              = ("[File] " ++ name ++ ": " ++ first ++ "...")%string).
    { intros first rest Hf Hr. unfold fileMessage.
      assert (Hl : (100 < String.length (first ++ rest))%nat).
      { rewrite length_append, Hf. destruct rest; [congruence|cbn; lia]. }
      destruct (Z.ltb_spec (Z.of_nat (String.length (first ++ rest))) 100); [lia|].
      destruct (Z.gtb_spec (Z.of_nat (String.length (first ++ rest))) 100); [|lia].
      replace (Z.to_nat 100) with (String.length first) by lia.
      rewrite substring_prefix. now rewrite !append_assoc. }
    intros first rest rest' Hf Hr Hr'. split; [now apply Long|].
    now rewrite !Long.
Qed.

Section Commands.
Variable cfg : Config.
Variable base64Encode : list Z -> string.
Variable base64Decode : string -> string + list Z.

Lemma createCommand_in_a_room rnd udpErr tcpErr parts w :
  2 <= len parts -> RoomId (Room (client w)) <> EmptyString ->
  createCommand cfg base64Encode rnd udpErr tcpErr parts w
  = Returns tt (mkProcess (client w)
                  (trace w ++ [LogLine "You are already in a room!"])).
Proof.
  intros Hp Hr. unfold createCommand.
  destruct (Z.ltb_spec (len parts) 2); [lia|].
  cbv beta iota delta [mbind gets]. apply String.eqb_neq in Hr. now rewrite Hr.
Qed.

Lemma joinCommand_in_a_room udpErr tcpErr parts w :
  3 <= len parts -> RoomId (Room (client w)) <> EmptyString ->
  joinCommand cfg base64Decode udpErr tcpErr parts w
  = Returns tt (mkProcess (client w)
                  (trace w ++ [LogLine "You are already in a room!"])).
Proof.
  intros Hp Hr. unfold joinCommand.
  destruct (Z.ltb_spec (len parts) 3); [lia|].
  cbv beta iota delta [mbind gets]. apply String.eqb_neq in Hr. now rewrite Hr.
Qed.

(** Property X29.  A failed start cannot be retried.  When /create has
    created the room and StartUDPBroadcast then fails, the client is in
    the room without running; from then on every /create and every
    /join is refused with "You are already in a room!" and changes
    nothing. *)
Theorem failed_start_cannot_be_retried
        nickname public localIP p0 tr key e tcpErr command roomID :
  NewP2PChat cfg nickname public localIP = Ok p0 ->
  roomID <> EmptyString ->
  let w1 := final (createCommand cfg base64Encode (inr key) (Some e) tcpErr
                     [command; roomID] (mkProcess p0 tr)) in
  Running (client w1) = false
  /\ RoomId (Room (client w1)) = roomID
  /\ (forall rnd udpErr tcpErr' parts,
        2 <= len parts ->
        createCommand cfg base64Encode rnd udpErr tcpErr' parts w1
        = Returns tt (mkProcess (client w1)
                        (trace w1 ++ [LogLine "You are already in a room!"])))
  /\ (forall udpErr tcpErr' parts,
        3 <= len parts ->
        joinCommand cfg base64Decode udpErr tcpErr' parts w1
        = Returns tt (mkProcess (client w1)
                        (trace w1 ++ [LogLine "You are already in a room!"]))).
Proof.
  intros Hnew Hroom w1. unfold NewP2PChat in Hnew.
  assert (exists ln k nm pip pport sm,
            p0 = mkP2PChat ln (mkRoomInfo EmptyString [] EmptyString) k nm false
                   pip pport sm) as (ln & k & nm & pip & pport & sm & ->).
  { destruct public as [[ip port]|err|msg]; try discriminate;
      injection Hnew as <-; now eexists _, _, _, _, _, _. }
  clear Hnew.
  assert (E : Running (client w1) = false /\ RoomId (Room (client w1)) = roomID).
  { subst w1. unfold createCommand, CreateRoom, StartUDPBroadcast.
    change (len [command; roomID] <? 2) with false. run_pm.
    cbn [RoomId String.eqb negb nth final client]. now split. }
  destruct E as [E1 E2]. repeat split; try assumption.
  - intros rnd udpErr tcpErr' parts Hp. apply createCommand_in_a_room; [exact Hp|].
    now rewrite E2.
  - intros udpErr tcpErr' parts Hp. apply joinCommand_in_a_room; [exact Hp|].
    now rewrite E2.
Qed.

End Commands.


Lemma generateRandomNickname_cases_witness :
  (EmptyString <> EmptyString ->
   generateRandomNickname EmptyString sampleAdjectives sampleNouns
     1767225600000000007 1767225600000000011 (Some 42)
   = Ok EmptyString)
  /\ (EmptyString = EmptyString -> sampleAdjectives <> [] -> sampleNouns <> [] ->
      exists adj noun,
        In adj sampleAdjectives /\ In noun sampleNouns
        /\ generateRandomNickname EmptyString sampleAdjectives sampleNouns
             1767225600000000007 1767225600000000011 (Some 42)
           = Ok (adj ++ noun ++ itoa 42)%string)
  /\ (EmptyString = EmptyString -> sampleAdjectives = [] \/ sampleNouns = [] ->
      exists msg,
        generateRandomNickname EmptyString sampleAdjectives sampleNouns
          1767225600000000007 1767225600000000011 (Some 42)
        = Panic msg).
Proof.
  apply (generateRandomNickname_cases EmptyString sampleAdjectives sampleNouns
           1767225600000000007 1767225600000000011 (Some 42)); lia.
Defined.

Lemma fileMessage_carries_100_characters_witness :
  (fileMessage "a.bin" (hundredCharacters ++ "UVJT")
   = "[File] a.bin: " ++ hundredCharacters ++ "..."
   /\ fileMessage "a.bin" (hundredCharacters ++ "UVJT")
      = fileMessage "a.bin" (hundredCharacters ++ "WFla"))%string.
Proof.
  apply (proj2 (fileMessage_carries_100_characters "a.bin" EmptyString)
           hundredCharacters "UVJT"%string "WFla"%string);
    [reflexivity|discriminate|discriminate].
Defined.

Lemma failed_start_cannot_be_retried_witness :
  let w1 := final (createCommand capOfThree demoEncode (inr sampleKey)
                     (Some "bind: address already in use"%string) None
                     ["/create"; "r1"]%string (fresh capOfThree)) in
  Running (client w1) = false
  /\ RoomId (Room (client w1)) = "r1"%string
  /\ (forall rnd udpErr tcpErr' parts,
        2 <= len parts ->
        createCommand capOfThree demoEncode rnd udpErr tcpErr' parts w1
        = Returns tt (mkProcess (client w1)
                        (trace w1 ++ [LogLine "You are already in a room!"])))
  /\ (forall udpErr tcpErr' parts,
        3 <= len parts ->
        joinCommand capOfThree demoDecode udpErr tcpErr' parts w1
        = Returns tt (mkProcess (client w1)
                        (trace w1 ++ [LogLine "You are already in a room!"]))).
Proof.
  apply (failed_start_cannot_be_retried capOfThree demoEncode demoDecode "me"
           (Ok ("10.0.0.1"%string, 8080)) "10.0.0.1" _ []
           sampleKey "bind: address already in use" None "/create" "r1");
    [reflexivity|discriminate].
Defined.

End CliMore.
